(** * The particle filter of pf.c: a shallow embedding and its properties

    The filter of [pf/pf.c] (adaptive Monte Carlo localisation) is embedded
    function by function.  The C code computes on [double] and [int]; the
    embedding is generic in the arithmetic of [double] (class [DoubleOps]) and
    is instantiated at:

    - IEEE 754 binary64 ([FloatOps], on [PrimFloat]), where every definition
      runs; the conversion [(int) x] is that of x86-64, which yields
      [INT_MIN] outside the range of [int];
    - the real numbers ([RealOps]), the exact arithmetic of which [double] is
      the rounded image, where the numeric laws of the filter are proved;
    - the real numbers with the conversion [(int) x] of the machine
      ([RealIntOps]), for the laws that depend on the range of [int].

    [pow (x, 2)] is an operation of the class: it is [x * x] on the real
    numbers, and the rounded [x * x] on binary64.

    [int] is modelled by [Z]: signed overflow is undefined in C and the
    integers the filter computes are bounded by the capacities of its arrays.

    The collaborators of pf.c that live in other files (the kd-tree of
    pf_kdtree.c, the samplers of pf_pdf.c and of GSL) are the fields of the
    class [Env]: every theorem holds for all of them. *)

From Stdlib Require Import ZArith List Bool Lia.
From Stdlib Require Import Reals Lra Psatz.
From Stdlib Require PrimFloat FloatOps SpecFloat Uint63.
Import ListNotations.

Local Open Scope Z_scope.

(* ================================================================== *)
(** * Outcomes of a C function *)
(* ================================================================== *)

(** A call returns, or it does not: an [assert] fails, an array is indexed
    outside its bounds, an integer is divided by zero, or a loop whose
    number of iterations the code does not bound is still running when the
    fuel of the model is spent. *)
Inductive failure : Type :=
| AssertFailed
| OutOfBounds
| DivisionByZero
| OutOfFuel.

Inductive res (A : Type) : Type :=
| Ret (a : A)
| Err (e : failure).

Arguments Ret {A} a.
Arguments Err {A} e.

Definition bind {A B : Type} (m : res A) (k : A -> res B) : res B :=
  match m with
  | Ret a => k a
  | Err e => Err e
  end.

Notation "x <- m ;; k" := (bind m (fun x => k))
  (at level 61, m at next level, right associativity).
Notation "' p <- m ;; k" := (bind m (fun x => match x with p => k end))
  (at level 61, p pattern, m at next level, right associativity).

(** [assert(b)] *)
Definition assert_ (b : bool) : res unit :=
  if b then Ret tt else Err AssertFailed.

(** The call returns, and what it returns satisfies [P]. *)
Definition returned {A : Type} (m : res A) (P : A -> Prop) : Prop :=
  match m with
  | Ret a => P a
  | Err _ => False
  end.

(* ------------------------------------------------------------------ *)
(** ** Arrays *)

(** A C array is a list of fixed length; an access outside it is an
    [OutOfBounds] failure. *)
Fixpoint upd {A : Type} (l : list A) (n : nat) (a : A) : list A :=
  match l, n with
  | [], _ => []
  | _ :: t, O => a :: t
  | h :: t, S n' => h :: upd t n' a
  end.

Definition aread {A : Type} (l : list A) (i : Z) : res A :=
  if i <? 0 then Err OutOfBounds
  else match nth_error l (Z.to_nat i) with
       | Some a => Ret a
       | None => Err OutOfBounds
       end.

Definition awrite {A : Type} (l : list A) (i : Z) (a : A) : res (list A) :=
  if (0 <=? i) && (i <? Z.of_nat (length l))
  then Ret (upd l (Z.to_nat i) a)
  else Err OutOfBounds.

(* ------------------------------------------------------------------ *)
(** ** Loops *)

(** [for (i = lo; i < lo + n; i++) body] *)
Fixpoint for_loop {S : Type} (n : nat) (i : Z) (body : Z -> S -> res S) (s : S)
  : res S :=
  match n with
  | O => Ret s
  | Datatypes.S n' => s' <- body i s ;; for_loop n' (i + 1) body s'
  end.

Definition for_ {S : Type} (lo hi : Z) (body : Z -> S -> res S) (s : S) : res S :=
  for_loop (Z.to_nat (hi - lo)) lo body s.

(** [for (i = lo; i < lo + n && cond; i++) body] *)
Fixpoint for_while {S : Type} (n : nat) (i : Z) (cond : S -> bool)
    (body : Z -> S -> res S) (s : S) : res S :=
  match n with
  | O => Ret s
  | Datatypes.S n' =>
      if cond s then s' <- body i s ;; for_while n' (i + 1) cond body s'
      else Ret s
  end.

(** [while (cond) { body }], where the body says whether it ends in [break]. *)
Fixpoint while_ {S : Type} (fuel : nat) (cond : S -> bool)
    (body : S -> res (bool * S)) (s : S) : res S :=
  match fuel with
  | O => Err OutOfFuel
  | Datatypes.S f =>
      if cond s
      then '(brk, s') <- body s ;;
           if (brk : bool) then Ret s' else while_ f cond body s'
      else Ret s
  end.

(** [do { body } while (again)] *)
Fixpoint do_while {S : Type} (fuel : nat) (body : S -> res (bool * S)) (s : S)
  : res S :=
  match fuel with
  | O => Err OutOfFuel
  | Datatypes.S f =>
      '(again, s') <- body s ;;
      if (again : bool) then do_while f body s' else Ret s'
  end.

(* ================================================================== *)
(** * The arithmetic of [double] *)
(* ================================================================== *)

Class DoubleOps (D : Type) : Type := {
  d_of_int : Z -> D;            (* (double) i, and the integer literals *)
  d_add : D -> D -> D;
  d_sub : D -> D -> D;
  d_mul : D -> D -> D;
  d_div : D -> D -> D;
  d_ltb : D -> D -> bool;        (* x < y *)
  d_sqrt : D -> D;
  d_pow2 : D -> D;               (* pow(x, 2) *)
  d_floor : D -> D;
  d_ceil : D -> D;
  d_to_int : D -> Z;             (* (int) x *)
  d_cos : D -> D;
  d_sin : D -> D;
  d_log : D -> D;
  d_atan2 : D -> D -> D;
  d_pi : D                       (* M_PI *)
}.

Section Literals.
Context {D : Type} {ops : DoubleOps D}.

Definition d_zero : D := d_of_int 0.                          (* 0.0 *)
Definition d_one : D := d_of_int 1.                           (* 1.0 *)
Definition d_half : D := d_div (d_of_int 1) (d_of_int 2).     (* 0.5 *)
Definition d_hundredth : D := d_div (d_of_int 1) (d_of_int 100). (* 0.01 *)
End Literals.

(* ================================================================== *)
(** * Data model (pf.h, pf_vector.h, map.h) *)
(* ================================================================== *)

Section Model.
Context {D : Type} {ops : DoubleOps D}.

(** [pf_vector_t]: the pose [v[0..2]] = (x, y, heading). *)
Record pf_vector_t : Type := mk_vector { v0 : D; v1 : D; v2 : D }.

(** [pf_matrix_t]: the 3x3 matrix [m[i][j]]. *)
Record pf_matrix_t : Type := mk_matrix {
  m00 : D; m01 : D; m02 : D;
  m10 : D; m11 : D; m12 : D;
  m20 : D; m21 : D; m22 : D
}.

Definition pf_vector_zero : pf_vector_t := mk_vector d_zero d_zero d_zero.
Definition pf_matrix_zero : pf_matrix_t :=
  mk_matrix d_zero d_zero d_zero d_zero d_zero d_zero d_zero d_zero d_zero.

(** [hyp_t]: a hypothesis of the external source. *)
Record hyp_t : Type := mk_hyp {
  pf_pose_mean : pf_vector_t;
  pf_pose_cov : pf_matrix_t
}.

(** [pf_sample_t] *)
Record pf_sample_t : Type := mk_sample { pose : pf_vector_t; weight : D }.

(** [pf_cluster_t]: [c_m0..c_m3] is the array [m[4]], [c_c00..c_c11] the
    array [c[2][2]]. *)
Record pf_cluster_t : Type := mk_cluster {
  c_count : Z;
  c_weight : D;
  c_mean : pf_vector_t;
  c_cov : pf_matrix_t;
  c_m0 : D; c_m1 : D; c_m2 : D; c_m3 : D;
  c_c00 : D; c_c01 : D; c_c10 : D; c_c11 : D
}.

(** [map_cell_t]: pf.c reads the occupancy state only
    (-1 = free, 0 = unknown, +1 = occupied). *)
Record map_cell_t : Type := mk_cell { occ_state : Z }.

(** [map_t], with the fields pf.c reads. *)
Record map_t : Type := mk_map {
  origin_x : D; origin_y : D;
  scale : D;
  size_x : Z; size_y : Z;
  cells : list map_cell_t
}.

(* ---------------------------------------------------------------- *)
(** ** The collaborators of pf.c *)

(** The kd-tree (pf_kdtree.c), the samplers of pf_pdf.c and the GSL
    generator.  A generator is a state that every draw advances; the two
    generators a resampler uses (the one inside the discrete pdf and the
    one it seeds itself) are threaded as one state. *)
Class Env : Type := {
  kdtree_t : Type;
  pf_kdtree_alloc : Z -> kdtree_t;
  pf_kdtree_clear : kdtree_t -> kdtree_t;
  pf_kdtree_insert : kdtree_t -> pf_vector_t -> D -> kdtree_t;
  leaf_count : kdtree_t -> Z;
  pf_kdtree_cluster : kdtree_t -> kdtree_t;
  pf_kdtree_get_cluster : kdtree_t -> pf_vector_t -> Z;
  rng : Type;
  gsl_rng_uniform_pos : rng -> D * rng;
  gsl_rng_uniform : rng -> D * rng;
  (* gsl_ran_bivariate_gaussian(r, sigma_x, sigma_y, rho, &x, &y) *)
  gsl_ran_bivariate_gaussian : rng -> D -> D -> D -> (D * D) * rng;
  (* pf_pdf_discrete_sample on the pdf allocated from (n, randlist) *)
  pf_pdf_discrete_sample : rng -> Z -> list D -> Z * rng;
  (* pf_pdf_gaussian_sample on the pdf allocated from (mean, cov) *)
  pf_pdf_gaussian_sample : rng -> pf_vector_t -> pf_matrix_t -> pf_vector_t * rng
}.

Context {E : Env}.

(** [pf_sample_set_t] *)
Record pf_sample_set_t : Type := mk_set {
  sample_count : Z;
  samples : list pf_sample_t;
  kdtree : kdtree_t;
  cluster_count : Z;
  cluster_max_count : Z;
  clusters : list pf_cluster_t
}.

(** [pf_t]; [set0] and [set1] are [sets[0]] and [sets[1]]. *)
Record pf_t : Type := mk_pf {
  min_samples : Z;
  max_samples : Z;
  overHead_samples : Z;
  pop_err : D;
  pop_z : D;
  current_set : Z;
  set0 : pf_sample_set_t;
  set1 : pf_sample_set_t;
  sumSquareWeights : D
}.

(** Field updates. *)
Definition with_sample_count (s : pf_sample_set_t) (n : Z) : pf_sample_set_t :=
  mk_set n (samples s) (kdtree s) (cluster_count s) (cluster_max_count s) (clusters s).
Definition with_samples (s : pf_sample_set_t) (l : list pf_sample_t) : pf_sample_set_t :=
  mk_set (sample_count s) l (kdtree s) (cluster_count s) (cluster_max_count s) (clusters s).
Definition with_kdtree (s : pf_sample_set_t) (k : kdtree_t) : pf_sample_set_t :=
  mk_set (sample_count s) (samples s) k (cluster_count s) (cluster_max_count s) (clusters s).
Definition with_cluster_count (s : pf_sample_set_t) (n : Z) : pf_sample_set_t :=
  mk_set (sample_count s) (samples s) (kdtree s) n (cluster_max_count s) (clusters s).
Definition with_clusters (s : pf_sample_set_t) (l : list pf_cluster_t) : pf_sample_set_t :=
  mk_set (sample_count s) (samples s) (kdtree s) (cluster_count s) (cluster_max_count s) l.

(** [pf->sets + j] *)
Definition get_set (pf : pf_t) (j : Z) : res pf_sample_set_t :=
  if j =? 0 then Ret (set0 pf)
  else if j =? 1 then Ret (set1 pf)
  else Err OutOfBounds.

(** [pf->sets[j] = s], for [j] in 0..1 *)
Definition put_set (pf : pf_t) (j : Z) (s : pf_sample_set_t) : pf_t :=
  if j =? 0
  then mk_pf (min_samples pf) (max_samples pf) (overHead_samples pf) (pop_err pf)
             (pop_z pf) (current_set pf) s (set1 pf) (sumSquareWeights pf)
  else mk_pf (min_samples pf) (max_samples pf) (overHead_samples pf) (pop_err pf)
             (pop_z pf) (current_set pf) (set0 pf) s (sumSquareWeights pf).

Definition with_current_set (pf : pf_t) (j : Z) : pf_t :=
  mk_pf (min_samples pf) (max_samples pf) (overHead_samples pf) (pop_err pf)
        (pop_z pf) j (set0 pf) (set1 pf) (sumSquareWeights pf).

(* ---------------------------------------------------------------- *)
(** ** The KLD resample limits (pf.c, lines 954-1024) *)

(** [pf_resample_limit(pf, k)] *)
Definition pf_resample_limit (pf : pf_t) (k : Z) : Z :=
  if k <=? 1 then min_samples pf
  else
    let a := d_of_int 1 in
    let b := d_div (d_of_int 2) (d_mul (d_of_int 9) (d_sub (d_of_int k) (d_of_int 1))) in
    let c := d_mul (d_sqrt (d_div (d_of_int 2)
                                  (d_mul (d_of_int 9) (d_sub (d_of_int k) (d_of_int 1)))))
                   (pop_z pf) in
    let x := d_add (d_sub a b) c in
    let n := d_to_int (d_ceil
               (d_mul (d_mul (d_mul (d_div (d_of_int (k - 1))
                                           (d_mul (d_of_int 2) (pop_err pf))) x) x) x)) in
    if n <? min_samples pf then min_samples pf
    else if max_samples pf <=? n then max_samples pf
    else n.

(** [pf_resample_limit_2(pf, k)]: no guard on [k], no clamping. *)
Definition pf_resample_limit_2 (pf : pf_t) (k : Z) : Z :=
  let a := d_of_int 1 in
  let b := d_div (d_of_int 2) (d_mul (d_of_int 9) (d_sub (d_of_int k) (d_of_int 1))) in
  let c := d_mul (d_sqrt (d_div (d_of_int 2)
                                (d_mul (d_of_int 9) (d_sub (d_of_int k) (d_of_int 1)))))
                 (pop_z pf) in
  let x := d_add (d_sub a b) c in
  d_to_int (d_ceil
    (d_mul (d_mul (d_mul (d_div (d_of_int (k - 1))
                                (d_mul (d_of_int (5 * 2)) (pop_err pf))) x) x) x)).

(** [pf_resample_limit_hyps(pf, k, pop_z, pop_err)] *)
Definition pf_resample_limit_hyps (pf : pf_t) (k : Z) (pop_z' pop_err' : D) : Z :=
  if k <=? 1 then min_samples pf
  else
    let a := d_of_int 1 in
    let b := d_div (d_of_int 2) (d_mul (d_of_int 9) (d_sub (d_of_int k) (d_of_int 1))) in
    let c := d_mul (d_sqrt (d_div (d_of_int 2)
                                  (d_mul (d_of_int 9) (d_sub (d_of_int k) (d_of_int 1)))))
                   pop_z' in
    let x := d_add (d_sub a b) c in
    let n := d_to_int (d_ceil
               (d_mul (d_mul (d_mul (d_div (d_of_int (k - 1))
                                           (d_mul (d_of_int 2) pop_err')) x) x) x)) in
    if n <? min_samples pf then min_samples pf
    else if max_samples pf <=? n then max_samples pf
    else n.

(* ---------------------------------------------------------------- *)
(** ** Map macros (map.h, lines 1583-1595) *)

(** [MAP_GXWX(map, x)]: a [double]; [size_x / 2] is an integer division. *)
Definition MAP_GXWX (map : map_t) (x : D) : D :=
  d_add (d_floor (d_add (d_div (d_sub x (origin_x map)) (scale map)) d_half))
        (d_of_int (Z.quot (size_x map) 2)).
Definition MAP_GYWY (map : map_t) (y : D) : D :=
  d_add (d_floor (d_add (d_div (d_sub y (origin_y map)) (scale map)) d_half))
        (d_of_int (Z.quot (size_y map) 2)).
Definition MAP_VALID (map : map_t) (i j : Z) : bool :=
  (0 <=? i) && (i <? size_x map) && (0 <=? j) && (j <? size_y map).
Definition MAP_INDEX (map : map_t) (i j : Z) : Z := i + j * size_x map.

(** [MAP_WXGX(map, i)] and [MAP_WYGY(map, j)] (lines 1584-1585), for [int]
    indices: the subtraction is on integers, the product on doubles. *)
Definition MAP_WXGX (map : map_t) (i : Z) : D :=
  d_add (origin_x map) (d_mul (d_of_int (i - Z.quot (size_x map) 2)) (scale map)).
Definition MAP_WYGY (map : map_t) (j : Z) : D :=
  d_add (origin_y map) (d_mul (d_of_int (j - Z.quot (size_y map) 2)) (scale map)).

(** [int ix = MAP_GXWX(map, x); int iy = MAP_GYWY(map, y);
    MAP_VALID(map, ix, iy)] *)
Definition valid_cell_check (map : map_t) (tmp : pf_vector_t) : bool :=
  MAP_VALID map (d_to_int (MAP_GXWX map (v0 tmp))) (d_to_int (MAP_GYWY map (v1 tmp))).

(** [MAP_VALID(map, ix, iy) &&
     map->cells[MAP_INDEX(map, ix, iy)].occ_state == -1] *)
Definition free_cell_check (map : map_t) (tmp : pf_vector_t) : res bool :=
  let ix := d_to_int (MAP_GXWX map (v0 tmp)) in
  let iy := d_to_int (MAP_GYWY map (v1 tmp)) in
  if MAP_VALID map ix iy
  then c <- aread (cells map) (MAP_INDEX map ix iy) ;; Ret (occ_state c =? -1)
  else Ret false.

(* ---------------------------------------------------------------- *)
(** ** Construction and cluster statistics *)

(** A cluster as [calloc] and the first loop of [pf_cluster_stats] leave it. *)
Definition cluster_zero : pf_cluster_t :=
  mk_cluster 0 d_zero pf_vector_zero pf_matrix_zero
             d_zero d_zero d_zero d_zero d_zero d_zero d_zero d_zero.

(** [pf_alloc] (lines 26-74) *)
Definition pf_alloc (min_samples' max_samples' overHead_samples' : Z) : pf_t :=
  let set :=
    mk_set max_samples'
           (repeat (mk_sample pf_vector_zero (d_div d_one (d_of_int max_samples')))
                   (Z.to_nat max_samples'))
           (pf_kdtree_alloc (3 * max_samples'))
           0 100 (repeat cluster_zero 100) in
  mk_pf min_samples' max_samples' overHead_samples'
        d_hundredth (d_of_int 3) 0 set set d_zero.

(** The accumulation step of [pf_cluster_stats] (lines 1068-1081). *)
Definition cluster_add (cluster : pf_cluster_t) (sample : pf_sample_t) : pf_cluster_t :=
  let w := weight sample in
  let p := pose sample in
  mk_cluster (c_count cluster + 1)
             (d_add (c_weight cluster) w)
             (c_mean cluster) (c_cov cluster)
             (d_add (c_m0 cluster) (d_mul w (v0 p)))
             (d_add (c_m1 cluster) (d_mul w (v1 p)))
             (d_add (c_m2 cluster) (d_mul w (d_cos (v2 p))))
             (d_add (c_m3 cluster) (d_mul w (d_sin (v2 p))))
             (d_add (c_c00 cluster) (d_mul (d_mul w (v0 p)) (v0 p)))
             (d_add (c_c01 cluster) (d_mul (d_mul w (v0 p)) (v1 p)))
             (d_add (c_c10 cluster) (d_mul (d_mul w (v1 p)) (v0 p)))
             (d_add (c_c11 cluster) (d_mul (d_mul w (v1 p)) (v1 p))).

(** The normalisation step of [pf_cluster_stats] (lines 1088-1103). *)
Definition cluster_normalize (cluster : pf_cluster_t) : pf_cluster_t :=
  let mean0 := d_div (c_m0 cluster) (c_weight cluster) in
  let mean1 := d_div (c_m1 cluster) (c_weight cluster) in
  let mean2 := d_atan2 (c_m3 cluster) (c_m2 cluster) in
  let cov :=
    mk_matrix
      (d_sub (d_div (c_c00 cluster) (c_weight cluster)) (d_mul mean0 mean0))
      (d_sub (d_div (c_c01 cluster) (c_weight cluster)) (d_mul mean0 mean1))
      d_zero
      (d_sub (d_div (c_c10 cluster) (c_weight cluster)) (d_mul mean1 mean0))
      (d_sub (d_div (c_c11 cluster) (c_weight cluster)) (d_mul mean1 mean1))
      d_zero
      d_zero d_zero
      (d_mul (d_of_int (-2))
             (d_log (d_sqrt (d_add (d_mul (c_m2 cluster) (c_m2 cluster))
                                   (d_mul (c_m3 cluster) (c_m3 cluster)))))) in
  mk_cluster (c_count cluster) (c_weight cluster)
             (mk_vector mean0 mean1 mean2) cov
             (c_m0 cluster) (c_m1 cluster) (c_m2 cluster) (c_m3 cluster)
             (c_c00 cluster) (c_c01 cluster) (c_c10 cluster) (c_c11 cluster).

(** [pf_cluster_stats(pf, set)] (lines 1027-1111); [pf] is not used. *)
Definition pf_cluster_stats (set : pf_sample_set_t) : res pf_sample_set_t :=
  let set := with_kdtree set (pf_kdtree_cluster (kdtree set)) in
  let set := with_cluster_count set 0 in
  set <- for_ 0 (cluster_max_count set)
           (fun i set =>
              cl <- awrite (clusters set) i cluster_zero ;;
              Ret (with_clusters set cl)) set ;;
  set <- for_ 0 (sample_count set)
           (fun i set =>
              sample <- aread (samples set) i ;;
              let c := pf_kdtree_get_cluster (kdtree set) (pose sample) in
              _ <- assert_ (0 <=? c) ;;
              if cluster_max_count set <=? c then Ret set
              else
                let set := if cluster_count set <? c + 1
                           then with_cluster_count set (c + 1) else set in
                cluster <- aread (clusters set) c ;;
                cl <- awrite (clusters set) c (cluster_add cluster sample) ;;
                Ret (with_clusters set cl)) set ;;
  for_ 0 (cluster_count set)
    (fun i set =>
       cluster <- aread (clusters set) i ;;
       cl <- awrite (clusters set) i (cluster_normalize cluster) ;;
       Ret (with_clusters set cl)) set.

(* ---------------------------------------------------------------- *)
(** ** Initialisation (lines 90-213 and 1181-1238) *)

(** The loop the four initialisations share (lines 107-114, 148-176,
    200-207, 1203-1230): every sample takes the weight [1.0 / max_samples]
    and the pose [draw] yields, and enters the histogram. *)
Definition init_samples {St : Type} (pf : pf_t) (draw : St -> res (pf_vector_t * St))
    (set : pf_sample_set_t) (st : St) : res (pf_sample_set_t * St) :=
  for_ 0 (sample_count set)
    (fun i '(set, st) =>
       let w := d_div d_one (d_of_int (max_samples pf)) in
       '(p, st) <- draw st ;;
       l <- awrite (samples set) i (mk_sample p w) ;;
       Ret (with_kdtree (with_samples set l) (pf_kdtree_insert (kdtree set) p w), st))
    (set, st).

(** What an initialisation does around that loop. *)
Definition init_with {St : Type} (pf : pf_t) (draw : St -> res (pf_vector_t * St))
    (st : St) : res pf_t :=
  set <- get_set pf (current_set pf) ;;
  let set := with_kdtree set (pf_kdtree_clear (kdtree set)) in
  let set := with_sample_count set (max_samples pf) in
  '(set, _) <- init_samples pf draw set st ;;
  set <- pf_cluster_stats set ;;
  Ret (put_set pf (current_set pf) set).

(** [pf_init(pf, mean, cov)] *)
Definition pf_init (pf : pf_t) (mean : pf_vector_t) (cov : pf_matrix_t) (r : rng)
  : res pf_t :=
  init_with pf (fun r => Ret (pf_pdf_gaussian_sample r mean cov)) r.

(** The body of the rejection loop of [pf_init_map] (lines 155-168): a pose
    uniform over the extent of the map, heading 0. *)
Definition init_map_draw (map : map_t) (st : pf_vector_t * rng)
  : res (bool * (pf_vector_t * rng)) :=
  let '(_, r) := st in
  let '(u0, r) := gsl_rng_uniform_pos r in
  let '(u1, r) := gsl_rng_uniform_pos r in
  let tmp :=
    mk_vector (d_mul (d_mul (d_sub u0 d_half) (d_of_int (size_x map))) (scale map))
              (d_mul (d_mul (d_sub u1 d_half) (d_of_int (size_y map))) (scale map))
              d_zero in
  correct <- free_cell_check map tmp ;;
  Ret (negb correct, (tmp, r)).

(** [pf_init_map(pf, map)]; [r] is the generator seeded from the clock. *)
Definition pf_init_map (fuel : nat) (pf : pf_t) (map : map_t) (r : rng) : res pf_t :=
  init_with pf (fun r => do_while fuel (init_map_draw map) (pf_vector_zero, r)) r.

(** [pf_init_model(pf, init_fn, init_data)]: the callback may keep a state
    behind [init_data]. *)
Definition pf_init_model {I : Type} (pf : pf_t) (init_fn : I -> pf_vector_t * I)
    (init_data : I) : res pf_t :=
  init_with pf (fun d => Ret (init_fn d)) init_data.

(** The body of the rejection loop of [pf_init_to_point] (lines 1210-1222):
    the map bounds are tested, the occupancy is not. *)
Definition init_to_point_draw (map : map_t) (x y var : D) (st : pf_vector_t * rng)
  : res (bool * (pf_vector_t * rng)) :=
  let '(_, r) := st in
  let '(u0, r) := gsl_rng_uniform_pos r in
  let '(u1, r) := gsl_rng_uniform_pos r in
  let '(u2, r) := gsl_rng_uniform r in
  let tmp :=
    mk_vector (d_add (d_mul (d_sub u0 d_half) var) x)
              (d_add (d_mul (d_sub u1 d_half) var) y)
              (d_mul (d_mul (d_sub u2 d_half) (d_of_int 2)) d_pi) in
  Ret (negb (valid_cell_check map tmp), (tmp, r)).

(** [pf_init_to_point(pf, map, x, y, var)] *)
Definition pf_init_to_point (fuel : nat) (pf : pf_t) (map : map_t) (x y var : D)
    (r : rng) : res pf_t :=
  init_with pf (fun r => do_while fuel (init_to_point_draw map x y var) (pf_vector_zero, r)) r.

(* ---------------------------------------------------------------- *)
(** ** Action and sensor updates (lines 215-347) *)

(** [pf_update_action(pf, action_fn, action_data)]: the callback rewrites
    the current set in place. *)
Definition pf_update_action (pf : pf_t)
    (action_fn : pf_sample_set_t -> pf_sample_set_t) : res pf_t :=
  set <- get_set pf (current_set pf) ;;
  Ret (put_set pf (current_set pf) (action_fn set)).

(** [pf_update_action_update_cluster(pf, action_fn, action_data)] *)
Definition pf_update_action_update_cluster (pf : pf_t)
    (action_fn : pf_sample_set_t -> pf_sample_set_t) : res pf_t :=
  set <- get_set pf (current_set pf) ;;
  let set := with_kdtree set (pf_kdtree_clear (kdtree set)) in
  let set := action_fn set in
  set <- for_ 0 (sample_count set)
           (fun i set =>
              sample <- aread (samples set) i ;;
              Ret (with_kdtree set
                     (pf_kdtree_insert (kdtree set) (pose sample) (weight sample))))
           set ;;
  set <- pf_cluster_stats set ;;
  Ret (put_set pf (current_set pf) set).

(** [pf_cluster_set(set)] (lines 254-285): a histogram of [3 *
    sample_count] nodes and 100 zeroed clusters are allocated for the set,
    the samples enter the histogram and the clusters are computed. *)
Definition pf_cluster_set (set : pf_sample_set_t) : res pf_sample_set_t :=
  let set := mk_set (sample_count set) (samples set)
                    (pf_kdtree_alloc (3 * sample_count set))
                    0 100 (repeat cluster_zero 100) in
  let set := with_kdtree set (pf_kdtree_clear (kdtree set)) in
  set <- for_ 0 (sample_count set)
           (fun i set =>
              sample <- aread (samples set) i ;;
              Ret (with_kdtree set
                     (pf_kdtree_insert (kdtree set) (pose sample) (weight sample))))
           set ;;
  pf_cluster_stats set.

(** [pf_update_sensor(pf, sensor_fn, sensor_data)]: the callback rewrites
    the weights of the current set and returns their total; the result is
    the sum of the squared weights and the updated filter. *)
Definition pf_update_sensor (pf : pf_t)
    (sensor_fn : pf_sample_set_t -> D * pf_sample_set_t) : res (D * pf_t) :=
  set <- get_set pf (current_set pf) ;;
  let '(total, set) := sensor_fn set in
  '(set, squareWeightSum) <-
    (if d_ltb d_zero total
     then
       for_ 0 (sample_count set)
         (fun i '(set, sq) =>
            sample <- aread (samples set) i ;;
            let w := d_div (weight sample) total in
            l <- awrite (samples set) i (mk_sample (pose sample) w) ;;
            Ret (with_samples set l, d_add sq (d_pow2 w)))
         (set, d_zero)
     else
       for_ 0 (sample_count set)
         (fun i '(set, sq) =>
            sample <- aread (samples set) i ;;
            let w := d_div d_one (d_of_int (sample_count set)) in
            l <- awrite (samples set) i (mk_sample (pose sample) w) ;;
            Ret (with_samples set l, d_add sq (d_pow2 w)))
         (set, d_zero)) ;;
  Ret (squareWeightSum, put_set pf (current_set pf) set).

(* ---------------------------------------------------------------- *)
(** ** Resampling (lines 349-952 and 1240-1446) *)

(** The loop every resampler opens with (lines 364-370): the weights of
    the source set, copied into [randlist]. *)
Definition build_randlist (set_a : pf_sample_set_t) : res (list D) :=
  for_ 0 (sample_count set_a)
    (fun i l => sample <- aread (samples set_a) i ;; Ret (l ++ [weight sample])) [].

(** [sample = set->samples + set->sample_count++; sample->pose = p;
    sample->weight = 1.0] *)
Definition push_sample (set : pf_sample_set_t) (p : pf_vector_t)
  : res pf_sample_set_t :=
  l <- awrite (samples set) (sample_count set) (mk_sample p d_one) ;;
  Ret (with_sample_count (with_samples set l) (sample_count set + 1)).

(** [pf_kdtree_insert(set->kdtree, p, w)] *)
Definition kd_insert (set : pf_sample_set_t) (p : pf_vector_t) (w : D)
  : pf_sample_set_t :=
  with_kdtree set (pf_kdtree_insert (kdtree set) p w).

(** The body of the importance-resampling loop (lines 384-405), the same in
    the six resamplers: a sample of the source set is drawn, its weight is
    asserted positive, its pose is appended to [set_b] with weight 1.0 and
    entered in the histogram; the loop breaks when [set_b] holds more
    samples than the KLD limit of its histogram asks for.  The state is
    ([set_b], [total], generator). *)
Definition resample_step (pf : pf_t) (set_a : pf_sample_set_t) (randlist : list D)
    (st : pf_sample_set_t * D * rng) : res (bool * (pf_sample_set_t * D * rng)) :=
  let '(set_b, total, r) := st in
  let '(i, r) := pf_pdf_discrete_sample r (sample_count set_a) randlist in
  sample_a <- aread (samples set_a) i ;;
  _ <- assert_ (d_ltb d_zero (weight sample_a)) ;;
  set_b <- push_sample set_b (pose sample_a) ;;
  let total := d_add total d_one in
  let set_b := kd_insert set_b (pose sample_a) d_one in
  Ret (pf_resample_limit pf (leaf_count (kdtree set_b)) <? sample_count set_b,
       (set_b, total, r)).

(** [while (set_b->sample_count < bound) { ... }] *)
Definition resample_loop (fuel : nat) (pf : pf_t) (set_a : pf_sample_set_t)
    (randlist : list D) (bound : Z) (st : pf_sample_set_t * D * rng)
  : res (pf_sample_set_t * D * rng) :=
  while_ fuel (fun '(set_b, _, _) => sample_count set_b <? bound)
         (resample_step pf set_a randlist) st.

(** The closing loop [sample_b->weight /= total] (lines 413-417). *)
Definition normalize_weights (set_b : pf_sample_set_t) (total : D)
  : res pf_sample_set_t :=
  for_ 0 (sample_count set_b)
    (fun i set_b =>
       sample_b <- aread (samples set_b) i ;;
       l <- awrite (samples set_b) i
              (mk_sample (pose sample_b) (d_div (weight sample_b) total)) ;;
       Ret (with_samples set_b l)) set_b.

(** [pf_update_resample(pf, nMaxParticles)] *)
Definition pf_update_resample (fuel : nat) (pf : pf_t) (nMaxParticles : Z) (r : rng)
  : res pf_t :=
  set_a <- get_set pf (current_set pf) ;;
  set_b <- get_set pf (Z.rem (current_set pf + 1) 2) ;;
  randlist <- build_randlist set_a ;;
  let set_b := with_kdtree set_b (pf_kdtree_clear (kdtree set_b)) in
  let set_b := with_sample_count set_b 0 in
  '(set_b, total, _) <-
    resample_loop fuel pf set_a randlist nMaxParticles (set_b, d_zero, r) ;;
  set_b <- normalize_weights set_b total ;;
  set_b <- pf_cluster_stats set_b ;;
  Ret (with_current_set (put_set pf (Z.rem (current_set pf + 1) 2) set_b)
                        (Z.rem (current_set pf + 1) 2)).

(** The body of the rejection loop of the two map-constrained injections
    (lines 510-523 and 627-640): a pose uniform over the extent of the map,
    heading uniform. *)
Definition map_draw (map : map_t) (st : pf_vector_t * rng)
  : res (bool * (pf_vector_t * rng)) :=
  let '(_, r) := st in
  let '(u0, r) := gsl_rng_uniform_pos r in
  let '(u1, r) := gsl_rng_uniform_pos r in
  let '(u2, r) := gsl_rng_uniform r in
  let tmp :=
    mk_vector (d_mul (d_mul (d_sub u0 d_half) (d_of_int (size_x map))) (scale map))
              (d_mul (d_mul (d_sub u1 d_half) (d_of_int (size_y map))) (scale map))
              (d_mul (d_mul (d_sub u2 d_half) (d_of_int 2)) d_pi) in
  correct <- free_cell_check map tmp ;;
  Ret (negb correct, (tmp, r)).

(** The injection loop of [pf_update_resample_addParticle] (lines 502-531). *)
Definition add_particles (fuel : nat) (map : map_t) (nPartToAdd : Z)
    (st : pf_sample_set_t * D * rng) : res (pf_sample_set_t * D * rng) :=
  for_ 0 nPartToAdd
    (fun i '(set_b, total, r) =>
       let total := d_add total d_one in
       '(tmp, r) <- do_while fuel (map_draw map) (pf_vector_zero, r) ;;
       set_b <- push_sample set_b tmp ;;
       Ret (kd_insert set_b tmp d_one, total, r)) st.

(** [pf_update_resample_addParticle(pf, nPartToAdd, map)] *)
Definition pf_update_resample_addParticle (fuel : nat) (pf : pf_t) (nPartToAdd : Z)
    (map : map_t) (r : rng) : res pf_t :=
  set_a <- get_set pf (current_set pf) ;;
  set_b <- get_set pf (Z.rem (current_set pf + 1) 2) ;;
  randlist <- build_randlist set_a ;;
  let set_b := with_kdtree set_b (pf_kdtree_clear (kdtree set_b)) in
  let set_b := with_sample_count set_b 0 in
  st <- resample_loop fuel pf set_a randlist (max_samples pf - nPartToAdd)
          (set_b, d_zero, r) ;;
  '(set_b, total, _) <- add_particles fuel map nPartToAdd st ;;
  set_b <- normalize_weights set_b total ;;
  set_b <- pf_cluster_stats set_b ;;
  Ret (with_current_set (put_set pf (Z.rem (current_set pf + 1) 2) set_b)
                        (Z.rem (current_set pf + 1) 2)).

(** The injection of [pf_update_resample_map] (lines 618-649). *)
Definition map_injection (fuel : nat) (pf : pf_t) (map : map_t)
    (st : pf_sample_set_t * D * rng) : res (pf_sample_set_t * D * rng) :=
  let '(set_b, _, _) := st in
  if sample_count set_b <? min_samples pf + 10
  then
    for_while 100 0
      (fun '(set_b, _, _) => sample_count set_b <? max_samples pf)
      (fun i '(set_b, total, r) =>
         '(tmp, r) <- do_while fuel (map_draw map) (pf_vector_zero, r) ;;
         set_b <- push_sample set_b tmp ;;
         let total := d_add total d_one in
         Ret (kd_insert set_b tmp d_one, total, r)) st
  else Ret st.

(** [pf_update_resample_map(pf, map)] *)
Definition pf_update_resample_map (fuel : nat) (pf : pf_t) (map : map_t) (r : rng)
  : res pf_t :=
  set_a <- get_set pf (current_set pf) ;;
  set_b <- get_set pf (Z.rem (current_set pf + 1) 2) ;;
  randlist <- build_randlist set_a ;;
  let set_b := with_kdtree set_b (pf_kdtree_clear (kdtree set_b)) in
  let set_b := with_sample_count set_b 0 in
  st <- resample_loop fuel pf set_a randlist (max_samples pf - overHead_samples pf)
          (set_b, d_zero, r) ;;
  '(set_b, total, _) <- map_injection fuel pf map st ;;
  set_b <- normalize_weights set_b total ;;
  set_b <- pf_cluster_stats set_b ;;
  Ret (with_current_set (put_set pf (Z.rem (current_set pf + 1) 2) set_b)
                        (Z.rem (current_set pf + 1) 2)).

(** One draw around a hypothesis (lines 759-777): (x, y) from the bivariate
    Gaussian built on [pf_pose_cov], whose entries [m[0][0]] and [m[1][1]]
    are passed as standard deviations, around the mean of the hypothesis;
    the heading is what [heading] draws.  The result says whether the pose
    falls in a free cell of the map. *)
Definition hyp_draw (map : map_t) (hyp : hyp_t) (heading : rng -> D * rng) (r : rng)
  : res (pf_vector_t * bool * rng) :=
  let cov := pf_pose_cov hyp in
  let rho := d_div (m01 cov) (d_mul (m00 cov) (m11 cov)) in
  let '((gx, gy), r) := gsl_ran_bivariate_gaussian r (m00 cov) (m11 cov) rho in
  let '(th, r) := heading r in
  let tmp := mk_vector (d_add gx (v0 (pf_pose_mean hyp)))
                       (d_add gy (v1 (pf_pose_mean hyp))) th in
  correct <- free_cell_check map tmp ;;
  Ret (tmp, correct, r).

(** [(gsl_rng_uniform(r) - 0.5) * 2 * M_PI] *)
Definition uniform_heading (r : rng) : D * rng :=
  let '(u, r) := gsl_rng_uniform r in
  (d_mul (d_mul (d_sub u d_half) (d_of_int 2)) d_pi, r).

(** [tmp.v[2] = 0.0] *)
Definition zero_heading (r : rng) : D * rng := (d_zero, r).

(** The number of draws per hypothesis in [pf_update_resample_hyps]
    (lines 743-751). *)
Definition hyps_budget (pf : pf_t) (set_b : pf_sample_set_t) (nHyp nParticle : Z)
  : res Z :=
  let nNewSample := max_samples pf - sample_count set_b in
  let nNewSample := if nParticle <? nNewSample then nParticle else nNewSample in
  if nHyp =? 0 then Err DivisionByZero else Ret (Z.quot nNewSample nHyp).

(** The injection loops of [pf_update_resample_hyps] (lines 757-789). *)
Definition hyps_injection (map : map_t) (nHyp : Z) (hyps : list hyp_t)
    (nNewSample : Z) (st : pf_sample_set_t * D * rng)
  : res (pf_sample_set_t * D * rng) :=
  for_ 0 nHyp
    (fun j st =>
       for_ 0 nNewSample
         (fun i '(set_b, total, r) =>
            hyp <- aread hyps j ;;
            '(tmp, correct, r) <- hyp_draw map hyp uniform_heading r ;;
            if (correct : bool)
            then
              set_b <- push_sample set_b tmp ;;
              Ret (kd_insert set_b tmp d_one, d_add total d_one, r)
            else Ret (set_b, total, r)) st) st.

(** [pf_update_resample_hyps(pf, map, nHyp, hyps, nParticle)] *)
Definition pf_update_resample_hyps (fuel : nat) (pf : pf_t) (map : map_t) (nHyp : Z)
    (hyps : list hyp_t) (nParticle : Z) (r : rng) : res pf_t :=
  set_a <- get_set pf (current_set pf) ;;
  set_b <- get_set pf (Z.rem (current_set pf + 1) 2) ;;
  randlist <- build_randlist set_a ;;
  let set_b := with_kdtree set_b (pf_kdtree_clear (kdtree set_b)) in
  let set_b := with_sample_count set_b 0 in
  st <- resample_loop fuel pf set_a randlist (max_samples pf - overHead_samples pf)
          (set_b, d_zero, r) ;;
  nNewSample <- hyps_budget pf (fst (fst st)) nHyp nParticle ;;
  '(set_b, total, _) <- hyps_injection map nHyp hyps nNewSample st ;;
  set_b <- normalize_weights set_b total ;;
  set_b <- pf_cluster_stats set_b ;;
  Ret (with_current_set (put_set pf (Z.rem (current_set pf + 1) 2) set_b)
                        (Z.rem (current_set pf + 1) 2)).

(** The injection loops of [pf_update_resample_hyps_2] (lines 848-879):
    the accepted poses are appended to the source set [set_a]. *)
Definition hyps_2_injection (map : map_t) (nHyp : Z) (hyps : list hyp_t)
    (nNewSample : Z) (st : pf_sample_set_t * rng) : res (pf_sample_set_t * rng) :=
  for_ 0 nHyp
    (fun j st =>
       for_ 0 nNewSample
         (fun i '(set_a, r) =>
            hyp <- aread hyps j ;;
            '(tmp, correct, r) <- hyp_draw map hyp uniform_heading r ;;
            if (correct : bool)
            then set_a <- push_sample set_a tmp ;; Ret (set_a, r)
            else Ret (set_a, r)) st) st.

(** [set_a->samples[i].weight = 1.0 / set_a->sample_count] (lines 884-887) *)
Definition uniform_weights (set_a : pf_sample_set_t) : res pf_sample_set_t :=
  for_ 0 (sample_count set_a)
    (fun i set_a =>
       sample <- aread (samples set_a) i ;;
       l <- awrite (samples set_a) i
              (mk_sample (pose sample) (d_div d_one (d_of_int (sample_count set_a)))) ;;
       Ret (with_samples set_a l)) set_a.

(** [sample_b->weight /= set_b->sample_count] (lines 940-943, 1433-1436) *)
Definition normalize_by_count (set_b : pf_sample_set_t) : res pf_sample_set_t :=
  normalize_weights set_b (d_of_int (sample_count set_b)).

(** [pf_update_resample_hyps_2(pf, map, nHyp, hyps, over_head)]; the loop
    keeps no [total]. *)
Definition pf_update_resample_hyps_2 (fuel : nat) (pf : pf_t) (map : map_t) (nHyp : Z)
    (hyps : list hyp_t) (over_head : Z) (r : rng) : res pf_t :=
  set_a <- get_set pf (current_set pf) ;;
  set_b <- get_set pf (Z.rem (current_set pf + 1) 2) ;;
  nNewSample <- (if nHyp =? 0 then Err DivisionByZero
                 else Ret (Z.quot (max_samples pf - sample_count set_a) nHyp)) ;;
  '(set_a, r) <- hyps_2_injection map nHyp hyps nNewSample (set_a, r) ;;
  set_a <- uniform_weights set_a ;;
  randlist <- build_randlist set_a ;;
  let set_b := with_kdtree set_b (pf_kdtree_clear (kdtree set_b)) in
  let set_b := with_sample_count set_b 0 in
  '(set_b, _, _) <-
    resample_loop fuel pf set_a randlist (max_samples pf - 1000) (set_b, d_zero, r) ;;
  set_b <- normalize_by_count set_b ;;
  set_b <- pf_cluster_stats set_b ;;
  Ret (with_current_set
         (put_set (put_set pf (current_set pf) set_a) (Z.rem (current_set pf + 1) 2) set_b)
         (Z.rem (current_set pf + 1) 2)).

(** [sample_a = set_a->samples + set_a->sample_count++; ...;
    pf_kdtree_insert(set_a->kdtree, ...)] after an accepted draw
    (lines 1359-1368 and 1400-1409). *)
Definition hyps_3_accept (set_a : pf_sample_set_t) (tmp : pf_vector_t) (correct : bool)
  : res pf_sample_set_t :=
  if correct
  then set_a <- push_sample set_a tmp ;; Ret (kd_insert set_a tmp d_one)
  else Ret set_a.

(** The cloud of one hypothesis in [pf_update_resample_hyps_3]
    (lines 1335-1410), built in [set_a] from an empty set: [nMinPart]
    draws, then draws until [nNewSample] poses are held or the histogram
    of the cloud has more poses than [pf_resample_limit_2] asks for. *)
Definition hyps_3_cloud (fuel : nat) (pf : pf_t) (map : map_t) (hyp : res hyp_t)
    (nMinPart nNewSample : Z) (st : pf_sample_set_t * rng)
  : res (pf_sample_set_t * rng) :=
  let '(set_a, r) := st in
  let set_a := with_sample_count set_a 0 in
  let set_a := with_kdtree set_a (pf_kdtree_clear (kdtree set_a)) in
  st <- for_ 0 nMinPart
          (fun i '(set_a, r) =>
             hyp <- hyp ;;
             '(tmp, correct, r) <- hyp_draw map hyp zero_heading r ;;
             set_a <- hyps_3_accept set_a tmp correct ;;
             Ret (set_a, r)) (set_a, r) ;;
  while_ fuel (fun '(set_a, _) => sample_count set_a <? nNewSample)
    (fun '(set_a, r) =>
       let ntemp := pf_resample_limit_2 pf (leaf_count (kdtree set_a)) in
       if ntemp <? sample_count set_a then Ret (true, (set_a, r))
       else
         hyp <- hyp ;;
         '(tmp, correct, r) <- hyp_draw map hyp zero_heading r ;;
         set_a <- hyps_3_accept set_a tmp correct ;;
         Ret (false, (set_a, r))) st.

(** The transfer of a cloud into [set_b] (lines 1414-1424): the heading of
    every pose is drawn afresh. *)
Definition hyps_3_transfer (set_a : pf_sample_set_t) (st : pf_sample_set_t * rng)
  : res (pf_sample_set_t * rng) :=
  for_ 0 (sample_count set_a)
    (fun i '(set_b, r) =>
       sample_a <- aread (samples set_a) i ;;
       let '(th, r) := uniform_heading r in
       let p := mk_vector (v0 (pose sample_a)) (v1 (pose sample_a)) th in
       set_b <- push_sample set_b p ;;
       Ret (kd_insert set_b p d_one, r)) st.

(** [pf_update_resample_hyps_3(pf, map, nHyp, hyps)] *)
Definition pf_update_resample_hyps_3 (fuel : nat) (pf : pf_t) (map : map_t) (nHyp : Z)
    (hyps : list hyp_t) (r : rng) : res pf_t :=
  set_a <- get_set pf (current_set pf) ;;
  set_b <- get_set pf (Z.rem (current_set pf + 1) 2) ;;
  let nReqSamples := max_samples pf - sample_count set_a in
  let nReqSamples := if nReqSamples <? overHead_samples pf
                     then max_samples pf - overHead_samples pf
                     else sample_count set_a in
  randlist <- build_randlist set_a ;;
  let set_b := with_kdtree set_b (pf_kdtree_clear (kdtree set_b)) in
  let set_b := with_sample_count set_b 0 in
  '(set_b, _, r) <-
    resample_loop fuel pf set_a randlist nReqSamples (set_b, d_zero, r) ;;
  nNewSample <- (if nHyp =? 0 then Err DivisionByZero
                 else Ret (Z.quot (max_samples pf - nReqSamples) nHyp)) ;;
  let nMinPart := if 10 <? nNewSample then 10 else nNewSample in
  '(set_a, set_b, _) <-
    for_ 0 nHyp
      (fun j '(set_a, set_b, r) =>
         '(set_a, r) <- hyps_3_cloud fuel pf map (aread hyps j) nMinPart nNewSample
                          (set_a, r) ;;
         '(set_b, r) <- hyps_3_transfer set_a (set_b, r) ;;
         Ret (set_a, set_b, r)) (set_a, set_b, r) ;;
  set_b <- normalize_by_count set_b ;;
  set_b <- pf_cluster_stats set_b ;;
  Ret (with_current_set
         (put_set (put_set pf (current_set pf) set_a) (Z.rem (current_set pf + 1) 2) set_b)
         (Z.rem (current_set pf + 1) 2)).

(* ---------------------------------------------------------------- *)
(** ** Queries (lines 1113-1179) *)

(** [pf_get_cep_stats(pf, &mean, &var)] *)
Definition pf_get_cep_stats (pf : pf_t) : res (pf_vector_t * D) :=
  set <- get_set pf (current_set pf) ;;
  '(mn, mx, my, mrr) <-
    for_ 0 (sample_count set)
      (fun i '(mn, mx, my, mrr) =>
         sample <- aread (samples set) i ;;
         let w := weight sample in
         let p := pose sample in
         let mrr := d_add mrr (d_mul (d_mul w (v0 p)) (v0 p)) in
         let mrr := d_add mrr (d_mul (d_mul w (v1 p)) (v1 p)) in
         Ret (d_add mn w, d_add mx (d_mul w (v0 p)), d_add my (d_mul w (v1 p)), mrr))
      (d_zero, d_zero, d_zero, d_zero) ;;
  Ret (mk_vector (d_div mx mn) (d_div my mn) d_zero,
       d_sub (d_div mrr mn)
             (d_add (d_div (d_mul mx mx) (d_mul mn mn))
                    (d_div (d_mul my my) (d_mul mn mn)))).

(** [pf_get_cluster_stats_set(set, clabel, &weight, &mean, &cov)]: the
    returned integer, and what is stored through the three pointers when
    something is. *)
Definition pf_get_cluster_stats_set (set : pf_sample_set_t) (clabel : Z)
  : res (Z * option (D * pf_vector_t * pf_matrix_t)) :=
  if cluster_count set <=? clabel then Ret (0, None)
  else
    cluster <- aread (clusters set) clabel ;;
    Ret (1, Some (c_weight cluster, c_mean cluster, c_cov cluster)).

(** [pf_get_cluster_stats(pf, clabel, &weight, &mean, &cov)] *)
Definition pf_get_cluster_stats (pf : pf_t) (clabel : Z)
  : res (Z * option (D * pf_vector_t * pf_matrix_t)) :=
  set <- get_set pf (current_set pf) ;;
  if cluster_count set <=? clabel then Ret (0, None)
  else
    cluster <- aread (clusters set) clabel ;;
    Ret (1, Some (c_weight cluster, c_mean cluster, c_cov cluster)).

(* ---------------------------------------------------------------- *)
(** ** The public operations as one family *)

(** A call of an initialisation or of a resampler, with its arguments. *)
Inductive pf_call : Type :=
| Call_init (mean : pf_vector_t) (cov : pf_matrix_t)
| Call_init_map (map : map_t)
| Call_init_model (I : Type) (init_fn : I -> pf_vector_t * I) (init_data : I)
| Call_init_to_point (map : map_t) (x y var : D)
| Call_resample (nMaxParticles : Z)
| Call_resample_map (map : map_t)
| Call_resample_addParticle (nPartToAdd : Z) (map : map_t)
| Call_resample_hyps (map : map_t) (nHyp : Z) (hyps : list hyp_t) (nParticle : Z)
| Call_resample_hyps_2 (map : map_t) (nHyp : Z) (hyps : list hyp_t) (over_head : Z)
| Call_resample_hyps_3 (map : map_t) (nHyp : Z) (hyps : list hyp_t).

Definition is_resample (c : pf_call) : bool :=
  match c with
  | Call_init _ _ | Call_init_map _ | Call_init_model _ _ _
  | Call_init_to_point _ _ _ _ => false
  | _ => true
  end.

Definition run_call (fuel : nat) (pf : pf_t) (c : pf_call) (r : rng) : res pf_t :=
  match c with
  | Call_init mean cov => pf_init pf mean cov r
  | Call_init_map map => pf_init_map fuel pf map r
  | Call_init_model _ init_fn init_data => pf_init_model pf init_fn init_data
  | Call_init_to_point map x y var => pf_init_to_point fuel pf map x y var r
  | Call_resample n => pf_update_resample fuel pf n r
  | Call_resample_map map => pf_update_resample_map fuel pf map r
  | Call_resample_addParticle n map => pf_update_resample_addParticle fuel pf n map r
  | Call_resample_hyps map nHyp hyps nParticle =>
      pf_update_resample_hyps fuel pf map nHyp hyps nParticle r
  | Call_resample_hyps_2 map nHyp hyps over_head =>
      pf_update_resample_hyps_2 fuel pf map nHyp hyps over_head r
  | Call_resample_hyps_3 map nHyp hyps => pf_update_resample_hyps_3 fuel pf map nHyp hyps r
  end.

(** The samples a set holds: the first [sample_count] entries of its array. *)
Definition live_samples (set : pf_sample_set_t) : list pf_sample_t :=
  firstn (Z.to_nat (sample_count set)) (samples set).

(** [sum of w_i], added up from the left as a C loop does. *)
Definition sum_weights (l : list pf_sample_t) : D :=
  fold_left (fun acc s => d_add acc (weight s)) l d_zero.

(** [sum of w_i^2], added up as [pf_update_sensor] does. *)
Definition sum_square_weights (l : list pf_sample_t) : D :=
  fold_left (fun acc s => d_add acc (d_pow2 (weight s))) l d_zero.

(** The set [pf->sets + pf->current_set], when the index is 0 or 1. *)
Definition current (pf : pf_t) : pf_sample_set_t :=
  if current_set pf =? 0 then set0 pf else set1 pf.

(** The other set, [pf->sets + (pf->current_set + 1) % 2]. *)
Definition scratch (pf : pf_t) : pf_sample_set_t :=
  if current_set pf =? 0 then set1 pf else set0 pf.
(* ---------------------------------------------------------------- *)
(** ** Vocabulary of the properties *)

(** [total] after [n] more additions of 1.0. *)
Definition add_ones (t : D) (n : nat) : D := Nat.iter n (fun t => d_add t d_one) t.

(** The free-cell predicate of the map: the cell of the pose is valid and
    its [occ_state] is -1. *)
Definition in_free_cell (map : map_t) (p : pf_vector_t) : Prop :=
  free_cell_check map p = Ret true.

(** The pose is the pose of a sample of [set_a]. *)
Definition from_source (set_a : pf_sample_set_t) (p : pf_vector_t) : Prop :=
  In p (map pose (samples set_a)).

Definition same_frame (set set' : pf_sample_set_t) : Prop :=
  kdtree set' = kdtree set /\ cluster_count set' = cluster_count set /\
  cluster_max_count set' = cluster_max_count set /\ clusters set' = clusters set.

(** [set'] holds the samples of [set] followed by [l]. *)
Definition extends_by (set : pf_sample_set_t) (l : list pf_sample_t)
    (set' : pf_sample_set_t) : Prop :=
  live_samples set' = live_samples set ++ l /\
  sample_count set' = sample_count set + Z.of_nat (length l) /\
  sample_count set' <= Z.of_nat (length (samples set')) /\
  length (samples set') = length (samples set).

Definition unit_weight_in (P : pf_vector_t -> Prop) (s : pf_sample_t) : Prop :=
  weight s = d_one /\ P (pose s).

(** The state of an appending loop: what has been appended so far carries
    the weight 1.0 and a pose in [P], and [total] has counted it. *)
Definition grown (P : pf_vector_t -> Prop) (set_0 : pf_sample_set_t) (total_0 : D)
    (st : pf_sample_set_t * D * rng) : Prop :=
  exists l, extends_by set_0 l (fst (fst st)) /\ Forall (unit_weight_in P) l /\
            snd (fst st) = add_ones total_0 (length l).

Definition grown_set (set_0 set : pf_sample_set_t) : Prop :=
  exists l, extends_by set_0 l set /\ Forall (unit_weight_in (fun _ => True)) l.

(** [sample->weight /= total] and [sample->weight = w] *)
Definition scale_weight (total : D) (s : pf_sample_t) : pf_sample_t :=
  mk_sample (pose s) (d_div (weight s) total).

Definition set_weight (w : D) (s : pf_sample_t) : pf_sample_t :=
  mk_sample (pose s) w.

(** The state of a loop that rewrites the samples in place, before it
    treats the sample of index [i]. *)
Definition rewritten (f : pf_sample_t -> pf_sample_t) (set : pf_sample_set_t) (i : Z)
    (set' : pf_sample_set_t) : Prop :=
  sample_count set' = sample_count set /\ same_frame set set' /\
  length (samples set') = length (samples set) /\
  firstn (Z.to_nat i) (samples set') = map f (firstn (Z.to_nat i) (samples set)) /\
  skipn (Z.to_nat i) (samples set') = skipn (Z.to_nat i) (samples set).

(** What [pf_update_sensor] does to a sample, given the total the callback
    returned and the number of samples. *)
Definition sensor_rule (total : D) (n : Z) : pf_sample_t -> pf_sample_t :=
  if d_ltb d_zero total then scale_weight total
  else set_weight (d_div d_one (d_of_int n)).

Definition initial_weight (pf : pf_t) (P : pf_vector_t -> Prop) (s : pf_sample_t) : Prop :=
  weight s = d_div d_one (d_of_int (max_samples pf)) /\ P (pose s).

(** The set a resampler that divides by [total] builds: poses drawn from
    the source set, then injected poses in [P2], every weight 1.0 over the
    total the loops counted. *)
Definition resampled_from (set_a : pf_sample_set_t) (P2 : pf_vector_t -> Prop)
    (set' : pf_sample_set_t) : Prop :=
  exists l1 l2,
    live_samples set' = map (scale_weight (add_ones d_zero (length (l1 ++ l2)))) (l1 ++ l2) /\
    Forall (unit_weight_in (from_source set_a)) l1 /\
    Forall (unit_weight_in P2) l2 /\
    sample_count set' = Z.of_nat (length (l1 ++ l2)).

(** The set a resampler that divides by [sample_count] builds. *)
Definition resampled_by_count (set' : pf_sample_set_t) : Prop :=
  exists l,
    live_samples set' = map (scale_weight (d_of_int (Z.of_nat (length l)))) l /\
    Forall (unit_weight_in (fun _ => True)) l /\
    sample_count set' = Z.of_nat (length l).

(** The samples of [set] carry one weight, 1.0 over the number of samples
    as the code computed it: converted from [sample_count], or counted in
    [total]. *)
Definition evenly_weighted (set : pf_sample_set_t) : Prop :=
  exists w,
    Forall (fun s => weight s = w) (live_samples set) /\
    (0 < sample_count set -> length (live_samples set) = Z.to_nat (sample_count set)) /\
    (w = d_div d_one (d_of_int (sample_count set)) \/
     w = d_div d_one (add_ones d_zero (Z.to_nat (sample_count set)))).

(** The resamplers that write into the source set as well. *)
Definition writes_source (c : pf_call) : bool :=
  match c with
  | Call_resample_hyps_2 _ _ _ _ | Call_resample_hyps_3 _ _ _ => true
  | _ => false
  end.

(** What [pf_update_resample_hyps_2] makes of the set it resamples from:
    the samples [l] it has drawn around the hypotheses and the map has
    accepted are appended, then every weight of the set is
    [1.0 / sample_count]; histogram and clusters are not touched. *)
Definition appended_and_reset (mp : map_t) (set_a set_a' : pf_sample_set_t) : Prop :=
  exists l,
    Forall (unit_weight_in (in_free_cell mp)) l /\
    sample_count set_a' = sample_count set_a + Z.of_nat (length l) /\
    live_samples set_a'
    = List.map (set_weight (d_div d_one (d_of_int (sample_count set_a'))))
               (live_samples set_a ++ l) /\
    same_frame set_a set_a'.

(** What [pf_update_resample_hyps_3] leaves in the set it resampled from
    once it has treated a hypothesis: the cloud of the last hypothesis,
    samples of weight 1.0 whose poses the map has accepted, with the
    heading 0.0. *)
Definition holds_cloud (mp : map_t) (set_a' : pf_sample_set_t) : Prop :=
  0 <= sample_count set_a' <= Z.of_nat (length (samples set_a')) /\
  Forall (unit_weight_in (fun p => in_free_cell mp p /\ v2 p = d_zero))
         (live_samples set_a').

(** The map of the four operations that draw poses in its free cells. *)
Definition free_cell_map (c : pf_call) : option map_t :=
  match c with
  | Call_init_map map | Call_resample_map map | Call_resample_addParticle _ map
  | Call_resample_hyps map _ _ _ => Some map
  | _ => None
  end.

(** The generator after one draw around [hyp], accepted or not. *)
Definition after_draw (hyp : hyp_t) (r : rng) : rng :=
  let cov := pf_pose_cov hyp in
  let rho := d_div (m01 cov) (d_mul (m00 cov) (m11 cov)) in
  snd (uniform_heading (snd (gsl_ran_bivariate_gaussian r (m00 cov) (m11 cov) rho))).

(** The generator after [n] draws around each hypothesis of [hyps] in turn. *)
Fixpoint after_draws (n : nat) (hyps : list hyp_t) (r : rng) : rng :=
  match hyps with
  | [] => r
  | hyp :: hyps' => after_draws n hyps' (Nat.iter n (after_draw hyp) r)
  end.

(** The histogram labels every sample of the set. *)
Definition labelled (set : pf_sample_set_t) : Prop :=
  forall s, In s (live_samples set) ->
            0 <= pf_kdtree_get_cluster (pf_kdtree_cluster (kdtree set)) (pose s).
End Model.

Arguments pf_vector_t D : clear implicits.
Arguments pf_matrix_t D : clear implicits.
Arguments hyp_t D : clear implicits.
Arguments pf_sample_t D : clear implicits.
Arguments pf_cluster_t D : clear implicits.
Arguments map_t D : clear implicits.
Arguments Env D : clear implicits.
Arguments pf_call D : clear implicits.

(* ================================================================== *)
(** * Vocabulary of the further properties *)
(* ================================================================== *)

Section Vocabulary.
Context {D : Type} {ops : DoubleOps D} {E : Env D}.

(** The poses [n] successive calls of [f] yield, the state threaded from
    call to call, and the state they leave. *)
Fixpoint drawn {St : Type} (f : St -> pf_vector_t D * St) (n : nat) (st : St)
  : list (pf_vector_t D) :=
  match n with
  | O => []
  | S n' => fst (f st) :: drawn f n' (snd (f st))
  end.

Fixpoint after_n {St : Type} (f : St -> pf_vector_t D * St) (n : nat) (st : St) : St :=
  match n with
  | O => st
  | S n' => after_n f n' (snd (f st))
  end.

(** The label the histogram [kd] gives a sample, and the label the
    clustered histogram of [set] gives it. *)
Definition label_in (kd : kdtree_t) (s : pf_sample_t D) : Z :=
  pf_kdtree_get_cluster kd (pose s).

Definition cluster_label (set : pf_sample_set_t) (s : pf_sample_t D) : Z :=
  label_in (pf_kdtree_cluster (kdtree set)) s.

(** The samples of [set] whose label is [c], in the order of the array. *)
Definition members (set : pf_sample_set_t) (c : Z) : list (pf_sample_t D) :=
  filter (fun s => cluster_label set s =? c) (live_samples set).

(** The sums a cluster accumulates over the samples [l]. *)
Definition gather (l : list (pf_sample_t D)) : pf_cluster_t D :=
  fold_left cluster_add l cluster_zero.

(** The state of the accumulation loop of [pf_cluster_stats] before it
    treats the sample of index [i]: every cluster below the capacity holds
    the sums of the samples of its label among the first [i], and
    [cluster_count] is one more than the largest label seen below the
    capacity. *)
Definition acc_inv (set0 : pf_sample_set_t) (i : Z) (t : pf_sample_set_t) : Prop :=
  samples t = samples set0 /\ sample_count t = sample_count set0 /\
  kdtree t = kdtree set0 /\ cluster_max_count t = cluster_max_count set0 /\
  length (clusters t) = length (clusters set0) /\
  0 <= cluster_count t <= Z.max 0 (cluster_max_count set0) /\
  (forall c, 0 <= c < cluster_max_count set0 ->
     nth_error (clusters t) (Z.to_nat c)
     = Some (gather (filter (fun s => label_in (kdtree set0) s =? c)
                            (firstn (Z.to_nat i) (samples set0))))) /\
  Forall (fun s => 0 <= label_in (kdtree set0) s /\
                   (label_in (kdtree set0) s < cluster_max_count set0 ->
                    label_in (kdtree set0) s < cluster_count t))
         (firstn (Z.to_nat i) (samples set0)) /\
  (0 < cluster_count t ->
   exists s, In s (firstn (Z.to_nat i) (samples set0)) /\
             label_in (kdtree set0) s = cluster_count t - 1).

(** What [pf_cluster_stats] makes of [set]. *)
Definition clustered (set set' : pf_sample_set_t) : Prop :=
  samples set' = samples set /\ sample_count set' = sample_count set /\
  kdtree set' = pf_kdtree_cluster (kdtree set) /\
  cluster_max_count set' = cluster_max_count set /\
  length (clusters set') = length (clusters set) /\
  0 <= cluster_count set' <= Z.max 0 (cluster_max_count set) /\
  Z.max 0 (cluster_max_count set) <= Z.of_nat (length (clusters set)) /\
  (forall c, 0 <= c < cluster_count set' ->
     nth_error (clusters set') (Z.to_nat c)
     = Some (cluster_normalize (gather (members set c)))) /\
  (forall c, cluster_count set' <= c < cluster_max_count set ->
     nth_error (clusters set') (Z.to_nat c) = Some cluster_zero) /\
  Forall (fun s => 0 <= cluster_label set s /\
                   (cluster_label set s < cluster_max_count set ->
                    cluster_label set s < cluster_count set'))
         (live_samples set) /\
  (0 < cluster_count set' ->
   exists s, In s (live_samples set) /\ cluster_label set s = cluster_count set' - 1).

(** The histogram [kd] after [pf_kdtree_clear] and the insertion of the
    poses [l], each with the weight [w]. *)
Definition refilled (kd : kdtree_t) (w : D) (l : list (pf_vector_t D)) : kdtree_t :=
  fold_left (fun kd p => pf_kdtree_insert kd p w) l (pf_kdtree_clear kd).

(** The histogram [kd] has room for [n] poses: cleared and filled with at
    most [n] poses it drops none of them, so that once it is clustered the
    lookup of each of them finds a leaf, whose label is not negative.
    (The lookup of a pose that was not inserted may give the negative
    sentinel.) *)
Definition labels_poses (kd : kdtree_t) (n : Z) : Prop :=
  forall w l, Z.of_nat (length l) <= n ->
  forall p, In p l ->
    0 <= pf_kdtree_get_cluster (pf_kdtree_cluster (refilled kd w l)) p.

(** [sum of w_i * f(pose_i)], added up from the left. *)
Definition weighted_sum (f : pf_vector_t D -> D) (l : list (pf_sample_t D)) : D :=
  fold_left (fun acc s => d_add acc (d_mul (weight s) (f (pose s)))) l d_zero.
End Vocabulary.

(* ================================================================== *)
(** * The two arithmetics *)
(* ================================================================== *)

(** ** Exact arithmetic: the real numbers *)

(** [(int) x] for an [int] without bounds: the fractional part is
    discarded. *)
Definition R_to_int (x : R) : Z :=
  if Rle_dec 0 x then Zfloor x else Zceil x.

Definition R_ltb (x y : R) : bool :=
  if Rlt_dec x y then true else false.

(** [atan2(y, x)] *)
Definition R_atan2 (y x : R) : R :=
  if Rlt_dec 0 x then atan (y / x)
  else if Rlt_dec x 0
       then (if Rle_dec 0 y then atan (y / x) + PI else atan (y / x) - PI)%R
       else if Rlt_dec 0 y then (PI / 2)%R
            else if Rlt_dec y 0 then (- (PI / 2))%R else 0%R.

#[export] Instance RealOps : DoubleOps R := {
  d_of_int := IZR;
  d_add := Rplus;
  d_sub := Rminus;
  d_mul := Rmult;
  d_div := Rdiv;
  d_ltb := R_ltb;
  d_sqrt := sqrt;
  d_pow2 := fun x => Rmult x x;
  d_floor := fun x => IZR (Zfloor x);
  d_ceil := fun x => IZR (Zceil x);
  d_to_int := R_to_int;
  d_cos := cos;
  d_sin := sin;
  d_log := ln;
  d_atan2 := R_atan2;
  d_pi := PI
}.

(** ** Exact arithmetic with the [int] of the machine *)

(** An [int] has 32 bits.  [(int) x] of a [double] whose integral part is
    no [int] is undefined in ISO C; the instruction the x86-64 compilers
    emit for the conversion (cvttsd2si) yields [INT_MIN] then. *)
Definition INT_MIN : Z := -2147483648.
Definition INT_MAX : Z := 2147483647.

Definition int_of_integral (t : Z) : Z :=
  if (INT_MIN <=? t) && (t <=? INT_MAX) then t else INT_MIN.

Definition R_to_int32 (x : R) : Z := int_of_integral (R_to_int x).

(** The real numbers with that conversion. *)
Definition RealIntOps : DoubleOps R := {|
  d_of_int := IZR;
  d_add := Rplus;
  d_sub := Rminus;
  d_mul := Rmult;
  d_div := Rdiv;
  d_ltb := R_ltb;
  d_sqrt := sqrt;
  d_pow2 := fun x => Rmult x x;
  d_floor := fun x => IZR (Zfloor x);
  d_ceil := fun x => IZR (Zceil x);
  d_to_int := R_to_int32;
  d_cos := cos;
  d_sin := sin;
  d_log := ln;
  d_atan2 := R_atan2;
  d_pi := PI
|}.

(** ** IEEE 754 binary64 *)

Module F.
Import PrimFloat FloatOps SpecFloat.
Local Open Scope float_scope.

(** [(double) z], exact for the 32-bit integers of the C code. *)
Definition of_int (z : Z) : float :=
  if (z <? 0)%Z then - of_uint63 (Uint63.of_Z (- z)) else of_uint63 (Uint63.of_Z z).

Definition signed (s : bool) (m : positive) : Z :=
  if s then Z.neg m else Z.pos m.

(** [floor] and [ceil]: a finite value is [signed s m * 2^e]; it is an
    integer already when [0 <= e], and smaller than [2^53] otherwise. *)
Definition floor (x : float) : float :=
  match Prim2SF x with
  | S754_finite s m e => if (e <? 0)%Z then of_int (Z.shiftl (signed s m) e) else x
  | _ => x
  end.

Definition ceil (x : float) : float :=
  match Prim2SF x with
  | S754_finite s m e =>
      if (e <? 0)%Z then of_int (- Z.shiftl (- signed s m) e) else x
  | _ => x
  end.

(** [(int) x]: truncation; where ISO C leaves the conversion undefined
    (NaN, infinities, values outside [int]) the result is the one of
    x86-64, [INT_MIN]. *)
Definition to_int (x : float) : Z :=
  match Prim2SF x with
  | S754_zero _ => 0%Z
  | S754_finite s m e =>
      let t := if (e <? 0)%Z then Z.quot (signed s m) (2 ^ (- e))
               else (signed s m * 2 ^ e)%Z in
      if ((-2147483648 <=? t) && (t <=? 2147483647))%Z then t else (-2147483648)%Z
  | _ => (-2147483648)%Z
  end.

(** [pow(x, 2)]: the square, rounded once.  The [pow] of a libm is within
    one unit in the last place of it. *)
Definition pow2 (x : float) : float := x * x.

Definition pi : float := 0x1.921fb54442d18p+1.
Definition ln2 : float := 0x1.62e42fefa39efp-1.

(** The functions of libm are no part of IEEE 754; here they are summed
    from their power series after a range reduction, to a few units in
    the last place. *)
Fixpoint alt_series (n : nat) (k : Z) (term acc x2 : float) : float :=
  match n with
  | O => acc
  | S n' =>
      let term' := - (term * x2) / of_int ((k + 1) * (k + 2)) in
      alt_series n' (k + 2)%Z term' (acc + term') x2
  end.

Definition reduce (x : float) : float :=
  x - 2 * pi * floor (x / (2 * pi) + 0.5).

Definition sin (x : float) : float :=
  let r := reduce x in alt_series 16 1 r r (r * r).

Definition cos (x : float) : float :=
  let r := reduce x in alt_series 16 0 1 1 (r * r).

(** [sum of z^(2j+1) / (2j+1)] *)
Fixpoint odd_series (n : nat) (k : Z) (sgn pw acc z2 : float) : float :=
  match n with
  | O => acc
  | S n' =>
      let pw' := pw * z2 in
      odd_series n' (k + 2)%Z sgn (sgn * pw') (acc + sgn * pw' / of_int (k + 2)) z2
  end.

Definition log (x : float) : float :=
  if x <? 0 then nan
  else if x =? 0 then neg_infinity
  else if is_finite x then
    let '(m, e) := Z.frexp x in
    let '(m, e) := if m <? 0x1.6a09e667f3bcdp-1 then (2 * m, (e - 1)%Z) else (m, e) in
    let z := (m - 1) / (m + 1) in
    of_int e * ln2 + 2 * odd_series 20 1 1 z z (z * z)
  else x.

Definition atan_small (t : float) : float :=
  let h := fun u => u / (1 + sqrt (1 + u * u)) in
  let u := h (h t) in
  4 * odd_series 14 1 (-1) u u (u * u).

Definition atan (t : float) : float :=
  if abs t <=? 1 then atan_small t
  else if 0 <? t then pi / 2 - atan_small (1 / t)
  else - (pi / 2) - atan_small (1 / t).

Definition atan2 (y x : float) : float :=
  if 0 <? x then atan (y / x)
  else if x <? 0 then (if 0 <=? y then atan (y / x) + pi else atan (y / x) - pi)
  else if 0 <? y then pi / 2
  else if y <? 0 then - (pi / 2) else 0.
End F.

#[export] Instance FloatOps : DoubleOps PrimFloat.float := {
  d_of_int := F.of_int;
  d_add := PrimFloat.add;
  d_sub := PrimFloat.sub;
  d_mul := PrimFloat.mul;
  d_div := PrimFloat.div;
  d_ltb := PrimFloat.ltb;
  d_sqrt := PrimFloat.sqrt;
  d_pow2 := F.pow2;
  d_floor := F.floor;
  d_ceil := F.ceil;
  d_to_int := F.to_int;
  d_cos := F.cos;
  d_sin := F.sin;
  d_log := F.log;
  d_atan2 := F.atan2;
  d_pi := F.pi
}.

(* ================================================================== *)
(** * Collaborators to run the filter with *)
(* ================================================================== *)

Section Collaborators.
Context {D : Type} {ops : DoubleOps D}.

(** ** A generator that replays a script *)

(** The uniform deviates (in [0, 1)) and the standard normal deviates a
    run consumes, in order; an exhausted script yields 0.5 and 0. *)
Record tape : Type := mk_tape { uniforms : list D; normals : list D }.

Definition next_uniform (t : tape) : D * tape :=
  match uniforms t with
  | [] => (d_half, t)
  | u :: us => (u, mk_tape us (normals t))
  end.

Definition next_normal (t : tape) : D * tape :=
  match normals t with
  | [] => (d_zero, t)
  | g :: gs => (g, mk_tape (uniforms t) gs)
  end.

(** GSL's bivariate Gaussian from two standard normal deviates:
    [x = sx g1], [y = sy (rho g1 + sqrt(1 - rho^2) g2)]. *)
Definition tape_bivariate (t : tape) (sx sy rho : D) : (D * D) * tape :=
  let '(g1, t) := next_normal t in
  let '(g2, t) := next_normal t in
  ((d_mul sx g1,
    d_mul sy (d_add (d_mul rho g1)
                    (d_mul (d_sqrt (d_sub d_one (d_mul rho rho))) g2))), t).

(** The index of the first prefix sum of [randlist] that exceeds [u]
    times the total (inverse of the cumulative distribution). *)
Fixpoint inverse_cdf (l : list D) (i : Z) (acc target : D) : Z :=
  match l with
  | [] => i - 1
  | w :: l' =>
      let acc := d_add acc w in
      if d_ltb target acc then i else inverse_cdf l' (i + 1) acc target
  end.

Definition tape_discrete (t : tape) (n : Z) (randlist : list D) : Z * tape :=
  let '(u, t) := next_uniform t in
  let total := fold_left d_add randlist d_zero in
  (inverse_cdf randlist 0 d_zero (d_mul u total), t).

(** Modelled from the spec: pf_pdf.c is not among the sources.  "A
    Cholesky-based standard construction on the linear x,y components";
    the heading is "drawn independently (uniform on (-pi, pi])". *)
Definition tape_gaussian (t : tape) (mean : pf_vector_t D) (cov : pf_matrix_t D)
  : pf_vector_t D * tape :=
  let '(g1, t) := next_normal t in
  let '(g2, t) := next_normal t in
  let '(u, t) := next_uniform t in
  let l00 := d_sqrt (m00 cov) in
  let l10 := d_div (m10 cov) l00 in
  let l11 := d_sqrt (d_sub (m11 cov) (d_mul l10 l10)) in
  (mk_vector (d_add (v0 mean) (d_mul l00 g1))
             (d_add (v1 mean) (d_add (d_mul l10 g1) (d_mul l11 g2)))
             (d_mul (d_mul (d_sub d_half u) (d_of_int 2)) d_pi), t).

(** ** A histogram in the place of the kd-tree *)

(** Modelled from the spec: pf_kdtree.c is not among the sources.  A leaf
    is a bucket of the grid of cells of 0.5 m, 0.5 m and 10 degrees, with
    the weight it has gathered and its cluster label; a tree of [n] leaves
    takes [2n - 1] nodes of the pool, and an insertion the pool cannot
    serve is dropped. *)
Record leaf : Type := mk_leaf { key : Z * Z * Z; value : D; cluster : Z }.
Record histogram : Type := mk_histogram { node_max_count : Z; leaves : list leaf }.

Definition key_eqb (a b : Z * Z * Z) : bool :=
  let '(a0, a1, a2) := a in
  let '(b0, b1, b2) := b in
  (a0 =? b0) && (a1 =? b1) && (a2 =? b2).

(** Two buckets are neighbours when their keys differ by at most 1 on
    every axis. *)
Definition key_near (a b : Z * Z * Z) : bool :=
  let '(a0, a1, a2) := a in
  let '(b0, b1, b2) := b in
  (Z.abs (a0 - b0) <=? 1) && (Z.abs (a1 - b1) <=? 1) && (Z.abs (a2 - b2) <=? 1).

Definition bucket_of (p : pf_vector_t D) : Z * Z * Z :=
  (d_to_int (d_floor (d_div (v0 p) d_half)),
   d_to_int (d_floor (d_div (v1 p) d_half)),
   d_to_int (d_floor (d_div (v2 p) (d_div (d_mul (d_of_int 10) d_pi) (d_of_int 180))))).

Fixpoint add_to_leaf (l : list leaf) (k : Z * Z * Z) (w : D) : option (list leaf) :=
  match l with
  | [] => None
  | lf :: l' =>
      if key_eqb (key lf) k
      then Some (mk_leaf (key lf) (d_add (value lf) w) (cluster lf) :: l')
      else option_map (cons lf) (add_to_leaf l' k w)
  end.

Definition histogram_insert (h : histogram) (p : pf_vector_t D) (w : D) : histogram :=
  let k := bucket_of p in
  match add_to_leaf (leaves h) k w with
  | Some l => mk_histogram (node_max_count h) l
  | None =>
      if 2 * (Z.of_nat (length (leaves h)) + 1) - 1 <=? node_max_count h
      then mk_histogram (node_max_count h) (leaves h ++ [mk_leaf k w (-1)])
      else h
  end.

(** One round of the flood fill: an unlabelled leaf next to a leaf of
    label [c] takes the label [c]. *)
Definition spread (c : Z) (l : list leaf) : list leaf :=
  map (fun lf =>
         if (cluster lf =? -1)
            && existsb (fun lf' => (cluster lf' =? c) && key_near (key lf) (key lf')) l
         then mk_leaf (key lf) (value lf) c else lf) l.

Fixpoint spread_n (n : nat) (c : Z) (l : list leaf) : list leaf :=
  match n with
  | O => l
  | S n' => spread_n n' c (spread c l)
  end.

(** A fill is launched from the first leaf that has no label yet. *)
Fixpoint launch (c : Z) (l : list leaf) : option (list leaf) :=
  match l with
  | [] => None
  | lf :: l' =>
      if cluster lf =? -1 then Some (mk_leaf (key lf) (value lf) c :: l')
      else option_map (cons lf) (launch c l')
  end.

Fixpoint fill_all (n : nat) (c : Z) (l : list leaf) : list leaf :=
  match n with
  | O => l
  | S n' =>
      match launch c l with
      | None => l
      | Some l1 => fill_all n' (c + 1) (spread_n (length l) c l1)
      end
  end.

Definition histogram_cluster (h : histogram) : histogram :=
  let l := map (fun lf => mk_leaf (key lf) (value lf) (-1)) (leaves h) in
  mk_histogram (node_max_count h) (fill_all (length l) 0 l).

Definition histogram_get_cluster (h : histogram) (p : pf_vector_t D) : Z :=
  match find (fun lf => key_eqb (key lf) (bucket_of p)) (leaves h) with
  | Some lf => cluster lf
  | None => -1
  end.

(** A relabelling keeps the keys, and changes a label only from -1 to a
    label that is not negative. *)
Definition relabelled (lf lf' : leaf) : Prop :=
  key lf' = key lf /\
  (cluster lf' = cluster lf \/ (cluster lf = -1 /\ 0 <= cluster lf')).

Definition unlabelled (l : list leaf) : nat :=
  length (filter (fun lf => cluster lf =? -1) l).

Definition ScriptedEnv : Env D := {|
  kdtree_t := histogram;
  pf_kdtree_alloc := fun n => mk_histogram n [];
  pf_kdtree_clear := fun h => mk_histogram (node_max_count h) [];
  pf_kdtree_insert := histogram_insert;
  leaf_count := fun h => Z.of_nat (length (leaves h));
  pf_kdtree_cluster := histogram_cluster;
  pf_kdtree_get_cluster := histogram_get_cluster;
  rng := tape;
  gsl_rng_uniform_pos := next_uniform;
  gsl_rng_uniform := next_uniform;
  gsl_ran_bivariate_gaussian := tape_bivariate;
  pf_pdf_discrete_sample := tape_discrete;
  pf_pdf_gaussian_sample := tape_gaussian
|}.
End Collaborators.

Arguments tape D : clear implicits.
Arguments ScriptedEnv D {ops}.


(* ================================================================== *)
(** * States and collaborators of the examples *)
(* ================================================================== *)

Section Fixtures.
Context {D : Type} {ops : DoubleOps D}.

(** A histogram of one unbounded cell: every pose falls in the same leaf
    and in the cluster 0; the generator is the scripted one. *)
Definition OneCellEnv : Env D := {|
  kdtree_t := Z;
  pf_kdtree_alloc := fun _ => 0;
  pf_kdtree_clear := fun _ => 0;
  pf_kdtree_insert := fun k _ _ => k + 1;
  leaf_count := fun k => Z.min k 1;
  pf_kdtree_cluster := fun k => k;
  pf_kdtree_get_cluster := fun _ _ => 0;
  rng := tape D;
  gsl_rng_uniform_pos := next_uniform;
  gsl_rng_uniform := next_uniform;
  gsl_ran_bivariate_gaussian := tape_bivariate;
  pf_pdf_discrete_sample := tape_discrete;
  pf_pdf_gaussian_sample := tape_gaussian
|}.

(** A grid of 2 x 2 cells of 1 m around the origin; [c0 .. c3] are the
    occupancy states of the cells in the order of the array. *)
Definition grid_2x2 (c0 c1 c2 c3 : Z) : map_t D :=
  mk_map d_zero d_zero d_one 2 2 [mk_cell c0; mk_cell c1; mk_cell c2; mk_cell c3].

(** A hypothesis at (x, y), with [sd] on the diagonal of its matrix. *)
Definition hyp_at (x y sd : D) : hyp_t D :=
  mk_hyp (mk_vector x y d_zero)
         (mk_matrix sd d_zero d_zero d_zero sd d_zero d_zero d_zero d_one).

(** The generator whose script is empty. *)
Definition silent : tape D := mk_tape [] [].

(** A sensor model of constant likelihood: every weight becomes 1.0 and the
    total is the number of samples. *)
Definition flat_sensor {E : Env D} (set : @pf_sample_set_t D E) : D * @pf_sample_set_t D E :=
  (d_of_int (sample_count set), with_samples set (map (set_weight d_one) (samples set))).

(** A sensor model that finds every pose impossible. *)
Definition blind_sensor {E : Env D} (set : @pf_sample_set_t D E) : D * @pf_sample_set_t D E :=
  (d_zero, with_samples set (map (set_weight d_zero) (samples set))).

(** A sensor model that finds the first pose three times as likely as the
    others: the weights become 3.0, 1.0, 1.0, ..., and the total is the
    number of samples plus 2. *)
Definition keen_sensor {E : Env D} (set : @pf_sample_set_t D E) : D * @pf_sample_set_t D E :=
  (d_of_int (sample_count set + 2),
   with_samples set
     match samples set with
     | [] => []
     | s :: l => set_weight (d_of_int 3) s :: map (set_weight d_one) l
     end).

(** An initial model that puts every sample at the origin. *)
Definition origin_fn (d : unit) : pf_vector_t D * unit := (pf_vector_zero, d).

(** [pf->pop_err = err; pf->pop_z = z], as a caller that configures the
    filter writes them. *)
Definition set_pop {E : Env D} (pf : @pf_t D E) (err z : D) : @pf_t D E :=
  mk_pf (min_samples pf) (max_samples pf) (overHead_samples pf) err z
        (current_set pf) (set0 pf) (set1 pf) (sumSquareWeights pf).

(** The generator whose uniform deviates are the tenths [l]: [3] stands
    for 0.3. *)
Definition tenths (l : list Z) : tape D :=
  mk_tape (map (fun z => d_div (d_of_int z) (d_of_int 10)) l) [].
End Fixtures.

Arguments OneCellEnv D {ops}.

(** A fresh filter of 1 to 4 samples, one of them overhead, on binary64. *)
Definition pf_fresh : @pf_t PrimFloat.float (ScriptedEnv PrimFloat.float) := pf_alloc 1 4 1.

(** Its scratch set when two samples have been resampled into it. *)
Definition half_filled : @pf_sample_set_t PrimFloat.float (ScriptedEnv PrimFloat.float) :=
  with_sample_count (scratch pf_fresh) 2.

(** The same filter on the real numbers. *)
Definition pf_fresh_real : @pf_t R (ScriptedEnv R) := pf_alloc 1 4 1.

(** A filter of two samples on the real numbers, with the one-cell histogram. *)
Definition pf_pair : @pf_t R (OneCellEnv R) := pf_alloc 1 2 0.

(** The same filter with the weights 3/4 and 1/4. *)
Definition pf_skewed : @pf_t R (OneCellEnv R) :=
  put_set pf_pair 0
    (with_samples (current pf_pair)
       [mk_sample pf_vector_zero (3 / 4)%R; mk_sample pf_vector_zero (1 / 4)%R]).

(** A fresh filter of 10 samples on binary64. *)
Definition pf_ten : @pf_t PrimFloat.float (ScriptedEnv PrimFloat.float) := pf_alloc 1 10 0.

(** A filter allocated with its bounds exchanged. *)
Definition pf_inverted : @pf_t R (ScriptedEnv R) := pf_alloc 1000 500 0.

(** A filter of 100 to 5000 samples, on the real numbers and on binary64. *)
Definition pf_large_real : @pf_t R (ScriptedEnv R) := pf_alloc 100 5000 0.
Definition pf_large : @pf_t PrimFloat.float (ScriptedEnv PrimFloat.float) :=
  pf_alloc 100 5000 0.

(** A filter configured with a large quantile: [pop_err = 0.5], [pop_z = 100]. *)
Definition pf_wide : @pf_t R (ScriptedEnv R) := set_pop (pf_alloc 1 100000 0) (1 / 2)%R 100%R.

(** The same configuration on binary64. *)
Definition pf_wide_float : @pf_t PrimFloat.float (ScriptedEnv PrimFloat.float) :=
  set_pop (pf_alloc 1 100000 0) (d_div d_one (d_of_int 2)) (d_of_int 100).

(** A map of four free cells, and one whose only free cell is the cell 0:
    the origin of the world falls in the cell 3. *)
Definition grid_free : map_t PrimFloat.float := grid_2x2 (-1) (-1) (-1) (-1).
Definition grid_corner : map_t PrimFloat.float := grid_2x2 (-1) 1 1 1.

(** A hypothesis at the origin of the map, of deviation 1 m. *)
Definition hyp_near : hyp_t PrimFloat.float := hyp_at d_zero d_zero d_one.

(** The fresh filter of 4 samples on binary64 with the one-cell histogram,
    where every pose has the label 0. *)
Definition pf_cell : @pf_t PrimFloat.float (OneCellEnv PrimFloat.float) := pf_alloc 1 4 1.

(** An initial model that counts: its [k]-th pose is [(k, 0, 0)]. *)
Definition count_fn {D : Type} {ops : DoubleOps D} (k : Z) : pf_vector_t D * Z :=
  (mk_vector (d_of_int k) d_zero d_zero, k + 1).

(** The map of four free cells on the real numbers. *)
Definition grid_real : map_t R := grid_2x2 (-1) (-1) (-1) (-1).

(** ** The KLD limit on the real numbers *)

(** The real number whose ceiling [pf_resample_limit] takes. *)
Definition kld_value (z e : R) (k : Z) : R :=
  (let b := 2 / (9 * (IZR k - 1)) in
   let x := 1 - b + sqrt b * z in
   IZR (k - 1) / (2 * e) * x * x * x)%R.

Definition clamp (lo hi n : Z) : Z :=
  if n <? lo then lo else if hi <=? n then hi else n.

(** The ceiling the specification takes, of
    [(k-1)/(2 pop_err) (1 - 2/(9(k-1)) + sqrt(2/(9(k-1))) pop_z)^3]. *)
Definition kld_ceiling (z e : R) (k : Z) : Z := Zceil (kld_value z e k).

(** The limit as the specification words it: [min_samples] for [k <= 1];
    otherwise that ceiling, clamped below by [min_samples], and
    [max_samples] whenever it reaches [max_samples]. *)
Definition kld_limit_spec (min_samples' max_samples' : Z) (z e : R) (k : Z) : Z :=
  if k <=? 1 then min_samples'
  else if max_samples' <=? kld_ceiling z e k then max_samples'
  else Z.max min_samples' (kld_ceiling z e k).

(* ================================================================== *)
(** * Inversion of the error monad *)
(* ================================================================== *)

Lemma bind_Ret {A B : Type} (m : res A) (k : A -> res B) (b : B) :
  bind m k = Ret b -> exists a, m = Ret a /\ k a = Ret b.
Proof. destruct m as [a|e]; simpl; intros H; [eauto | discriminate]. Qed.

Lemma returned_impl {A : Type} (m : res A) (P Q : A -> Prop) :
  (forall a, P a -> Q a) -> returned m P -> returned m Q.
Proof. destruct m; simpl; auto. Qed.

(** [inv_ret H] takes one step through a hypothesis [H : m = Ret b]. *)
Ltac inv_ret H :=
  cbv beta in H;
  match type of H with
  | Ret _ = Ret _ => injection H as H; try subst
  | Err _ = Ret _ => discriminate H
  | bind ?m ?k = Ret _ =>
      let a := fresh "a" in let Ha := fresh "Hm" in
      apply bind_Ret in H; destruct H as (a & Ha & H)
  | (let '(_, _) := ?p in _) = Ret _ => destruct p eqn:?
  | (match ?p with (_, _) => _ end) = Ret _ => destruct p eqn:?
  | (if ?b then _ else _) = Ret _ => destruct b eqn:?
  end.

(** [H : (x <- m ;; k) = Ret b] becomes [Hx : m = Ret x] and [H : k x = Ret b]. *)
Tactic Notation "bind_inv" hyp(H) "as" ident(x) ident(Hx) :=
  cbv beta in H; apply bind_Ret in H; destruct H as (x & Hx & H).

Ltac ret_inv H := cbv beta in H; injection H as H; try subst.

(* ================================================================== *)
(** * Arrays and loops *)
(* ================================================================== *)

Lemma upd_length {A} (l : list A) n a : length (upd l n a) = length l.
Proof. revert n; induction l as [|h t IH]; intros [|n]; simpl; auto. Qed.

Lemma firstn_upd_ge {A} (l : list A) n m a : (n <= m)%nat -> firstn n (upd l m a) = firstn n l.
Proof.
  revert n m; induction l as [|h t IH]; intros [|n] [|m] H; simpl; auto; try lia.
  f_equal. apply IH. lia.
Qed.

Lemma firstn_upd_snoc {A} (l : list A) n a :
  (n < length l)%nat -> firstn (S n) (upd l n a) = firstn n l ++ [a].
Proof.
  revert n; induction l as [|h t IH]; intros [|n] H; simpl in *; try lia.
  - destruct t; reflexivity.
  - f_equal. apply IH. lia.
Qed.

Lemma nth_error_upd_same {A} (l : list A) n a :
  (n < length l)%nat -> nth_error (upd l n a) n = Some a.
Proof.
  revert n; induction l as [|h t IH]; intros [|n] H; simpl in *; try lia; auto.
  apply IH. lia.
Qed.

Lemma nth_error_upd_other {A} (l : list A) n m a :
  n <> m -> nth_error (upd l n a) m = nth_error l m.
Proof.
  revert n m; induction l as [|h t IH]; intros [|n] [|m] H; simpl in *; auto; try congruence.
Qed.

Lemma skipn_upd_lt {A} (l : list A) n m a : (m < n)%nat -> skipn n (upd l m a) = skipn n l.
Proof.
  revert n m; induction l as [|h t IH]; intros [|n] [|m] H; simpl; auto; try lia.
  apply IH. lia.
Qed.

Lemma aread_Ret {A} (l : list A) i a :
  aread l i = Ret a -> 0 <= i < Z.of_nat (length l) /\ nth_error l (Z.to_nat i) = Some a.
Proof.
  unfold aread. destruct (Z.ltb_spec i 0); [discriminate|].
  destruct (nth_error l (Z.to_nat i)) eqn:Hn; [|discriminate].
  intros Hr; inv_ret Hr. split; [|reflexivity].
  assert (Z.to_nat i < length l)%nat by (apply nth_error_Some; congruence). lia.
Qed.

Lemma awrite_Ret {A} (l : list A) i a l' :
  awrite l i a = Ret l' -> 0 <= i < Z.of_nat (length l) /\ l' = upd l (Z.to_nat i) a.
Proof.
  unfold awrite. destruct (Z.leb_spec 0 i); simpl; [|discriminate].
  destruct (Z.ltb_spec i (Z.of_nat (length l))); [|discriminate].
  intros Hr; inv_ret Hr. auto.
Qed.

(** ** Loops: invariants *)
Lemma for_loop_ind {St} (P : Z -> St -> Prop) (body : Z -> St -> res St) n :
  forall i s s',
    for_loop n i body s = Ret s' -> P i s ->
    (forall j t t', i <= j < i + Z.of_nat n -> P j t -> body j t = Ret t' -> P (j + 1) t') ->
    P (i + Z.of_nat n) s'.
Proof.
  induction n as [|n IH]; intros i s s' H HP Hstep.
  - simpl in H. inv_ret H. replace (i + Z.of_nat 0) with i by lia. assumption.
  - simpl in H. inv_ret H.
    replace (i + Z.of_nat (S n)) with ((i + 1) + Z.of_nat n) by lia.
    eapply IH; eauto.
    + eapply Hstep; eauto. lia.
    + intros j t t' Hj. apply Hstep. lia.
Qed.

Lemma for_ind {St} (P : Z -> St -> Prop) lo hi (body : Z -> St -> res St) s s' :
  for_ lo hi body s = Ret s' -> P lo s ->
  (forall j t t', lo <= j < hi -> P j t -> body j t = Ret t' -> P (j + 1) t') ->
  P (Z.max lo hi) s'.
Proof.
  unfold for_. intros H HP Hstep.
  replace (Z.max lo hi) with (lo + Z.of_nat (Z.to_nat (hi - lo))) by lia.
  eapply for_loop_ind; eauto. intros j t t' Hj. apply Hstep. lia.
Qed.

Lemma for_inv {St} (Q : St -> Prop) lo hi (body : Z -> St -> res St) s s' :
  for_ lo hi body s = Ret s' -> Q s ->
  (forall j t t', lo <= j < hi -> Q t -> body j t = Ret t' -> Q t') -> Q s'.
Proof. intros H HQ Hstep. apply (for_ind (fun _ => Q) lo hi body s s' H HQ Hstep). Qed.

Lemma for_while_inv {St} (Q : St -> Prop) (cond : St -> bool) (body : Z -> St -> res St) n :
  forall i s s',
    for_while n i cond body s = Ret s' -> Q s ->
    (forall j t t', cond t = true -> Q t -> body j t = Ret t' -> Q t') -> Q s'.
Proof.
  induction n as [|n IH]; intros i s s' H HQ Hstep; simpl in H.
  - inv_ret H. assumption.
  - destruct (cond s) eqn:Hc; [|inv_ret H; assumption].
    inv_ret H. eapply IH; eauto.
Qed.

Lemma while_inv {St} (Q : St -> Prop) (cond : St -> bool) (body : St -> res (bool * St)) fuel :
  forall s s',
    while_ fuel cond body s = Ret s' -> Q s ->
    (forall t brk t', cond t = true -> Q t -> body t = Ret (brk, t') -> Q t') -> Q s'.
Proof.
  induction fuel as [|f IH]; intros s s' H HQ Hstep; simpl in H; [discriminate|].
  destruct (cond s) eqn:Hc; [|inv_ret H; assumption].
  inv_ret H. destruct a as [brk t]. destruct brk.
  - inv_ret H. eapply Hstep; eauto.
  - eapply IH; eauto.
Qed.

Lemma do_while_last {St} (body : St -> res (bool * St)) fuel :
  forall s s', do_while fuel body s = Ret s' -> exists t, body t = Ret (false, s').
Proof.
  induction fuel as [|f IH]; intros s s' H; simpl in H; [discriminate|].
  inv_ret H. destruct a as [again t]. destruct again.
  - eapply IH; eauto.
  - inv_ret H. eauto.
Qed.

Section Generic.
Context {D : Type} {ops : DoubleOps D} {E : Env D}.
Implicit Types (pf : pf_t) (set : pf_sample_set_t).

Lemma get_set_Ret pf j set :
  get_set pf j = Ret set -> (j = 0 /\ set = set0 pf) \/ (j = 1 /\ set = set1 pf).
Proof.
  unfold get_set. destruct (Z.eqb_spec j 0); [intros H; inv_ret H; auto|].
  destruct (Z.eqb_spec j 1); intros H; inv_ret H; auto.
Qed.

Lemma get_sets_Ret pf set_a set_b :
  get_set pf (current_set pf) = Ret set_a ->
  get_set pf (Z.rem (current_set pf + 1) 2) = Ret set_b ->
  (current_set pf = 0 \/ current_set pf = 1) /\
  Z.rem (current_set pf + 1) 2 = 1 - current_set pf /\
  set_a = current pf /\ set_b = scratch pf.
Proof.
  intros Ha Hb. unfold current, scratch.
  apply get_set_Ret in Ha. destruct Ha as [[Hc ->] | [Hc ->]]; rewrite Hc in *; simpl in *.
  - apply get_set_Ret in Hb. destruct Hb as [[? ?]|[? ->]]; [discriminate|]. auto.
  - apply get_set_Ret in Hb. destruct Hb as [[? ->]|[? ?]]; [|discriminate]. auto.
Qed.

(** What a resampler that leaves the source set alone returns. *)
Lemma flip_frame pf set_b' :
  (current_set pf = 0 \/ current_set pf = 1) ->
  let pf' := with_current_set (put_set pf (1 - current_set pf) set_b') (1 - current_set pf) in
  current_set pf' = 1 - current_set pf /\ scratch pf' = current pf /\ current pf' = set_b' /\
  min_samples pf' = min_samples pf /\ max_samples pf' = max_samples pf /\
  overHead_samples pf' = overHead_samples pf /\ pop_err pf' = pop_err pf /\ pop_z pf' = pop_z pf.
Proof.
  intros [Hc|Hc]; rewrite Hc; unfold current, scratch; simpl; rewrite Hc; simpl; auto 10.
Qed.

Lemma flip_both pf set_a' set_b' :
  (current_set pf = 0 \/ current_set pf = 1) ->
  let pf' := with_current_set
               (put_set (put_set pf (current_set pf) set_a') (1 - current_set pf) set_b')
               (1 - current_set pf) in
  current_set pf' = 1 - current_set pf /\ scratch pf' = set_a' /\ current pf' = set_b' /\
  min_samples pf' = min_samples pf /\ max_samples pf' = max_samples pf /\
  overHead_samples pf' = overHead_samples pf /\ pop_err pf' = pop_err pf /\ pop_z pf' = pop_z pf.
Proof.
  intros [Hc|Hc]; rewrite Hc; unfold current, scratch; simpl; auto 10.
Qed.

(** ** What each phase of a resampler leaves *)
Lemma firstn_snoc_nth {A} (l : list A) n x :
  nth_error l n = Some x -> firstn (S n) l = firstn n l ++ [x].
Proof.
  revert n; induction l as [|h t IH]; intros [|n] H; simpl in *; try discriminate.
  - congruence.
  - f_equal. apply IH. assumption.
Qed.

Lemma nth_error_skipn_0 {A} (l : list A) n : nth_error (skipn n l) 0 = nth_error l n.
Proof.
  revert n; induction l as [|h t IH]; intros [|n]; try reflexivity.
  change (skipn (S n) (h :: t)) with (skipn n t). rewrite IH. reflexivity.
Qed.

Lemma skipn_S_tl {A} (l : list A) n : skipn (S n) l = tl (skipn n l).
Proof.
  revert n; induction l as [|h t IH]; intros [|n]; try reflexivity.
  change (skipn (S (S n)) (h :: t)) with (skipn (S n) t).
  change (skipn (S n) (h :: t)) with (skipn n t). apply IH.
Qed.

Lemma extends_by_nil set : 
  sample_count set <= Z.of_nat (length (samples set)) -> extends_by set [] set.
Proof. intros H. unfold extends_by. rewrite app_nil_r. simpl. repeat split; auto; lia. Qed.

Lemma extends_by_app set l1 set1 l2 set2 :
  extends_by set l1 set1 -> extends_by set1 l2 set2 -> extends_by set (l1 ++ l2) set2.
Proof.
  unfold extends_by. intros (A1 & A2 & A3 & A4) (B1 & B2 & B3 & B4).
  rewrite B1, A1, app_assoc, B2, A2, length_app, B4, A4. repeat split; auto; lia.
Qed.

Lemma push_sample_spec set p set' :
  push_sample set p = Ret set' ->
  extends_by set [mk_sample p d_one] set' /\ same_frame set set' /\ 0 <= sample_count set.
Proof.
  unfold push_sample. intros H. inv_ret H. inv_ret H.
  apply awrite_Ret in Hm. destruct Hm as (Hi & ->).
  unfold extends_by, same_frame, live_samples. simpl. rewrite upd_length.
  repeat split; try lia.
  replace (Z.to_nat (sample_count set + 1)) with (S (Z.to_nat (sample_count set))) by lia.
  apply firstn_upd_snoc. lia.
Qed.

Lemma kd_insert_extends set l set' p w :
  extends_by set l set' -> extends_by set l (kd_insert set' p w).
Proof. unfold extends_by, kd_insert, live_samples. simpl. auto. Qed.

Lemma extends_by_kd_l set0 k l set' :
   extends_by (with_kdtree set0 k) l set' <-> extends_by set0 l set'.
Proof. unfold extends_by, live_samples. simpl. tauto. Qed.

Lemma grown_init P set0 total0 r :
  sample_count set0 <= Z.of_nat (length (samples set0)) -> grown P set0 total0 (set0, total0, r).
Proof. intros H. exists []. simpl. split; [apply extends_by_nil; assumption|]. split; constructor. Qed.

Lemma add_ones_snoc t n : add_ones t (n + 1) = d_add (add_ones t n) d_one.
Proof. unfold add_ones. rewrite Nat.add_1_r. reflexivity. Qed.

Lemma grown_push P set0 total0 set_b total r set_b' p w r' :
  grown P set0 total0 (set_b, total, r) -> push_sample set_b p = Ret set_b' -> P p ->
  grown P set0 total0 (kd_insert set_b' p w, d_add total d_one, r').
Proof.
  intros (l & He & Hl & Ht) Hp HP. simpl in *.
  apply push_sample_spec in Hp. destruct Hp as (Hp & _ & _).
  exists (l ++ [mk_sample p d_one]). simpl. split; [|split].
  - apply kd_insert_extends. eapply extends_by_app; eauto.
  - apply Forall_app. split; [assumption|]. constructor; [|constructor]. split; auto.
  - rewrite length_app. simpl. rewrite add_ones_snoc. congruence.
Qed.

Lemma grown_weaken (P Q : pf_vector_t D -> Prop) set0 total0 st :
  (forall p, P p -> Q p) -> grown P set0 total0 st -> grown Q set0 total0 st.
Proof.
  intros HPQ (l & He & Hl & Ht). exists l. split; [assumption|]. split; [|assumption].
  eapply Forall_impl; [|eassumption]. intros s [? ?]. split; auto.
Qed.

(** ** The importance-resampling loop *)
Lemma resample_step_grown pf set_a randlist set0 total0 st brk st' :
  grown (fun p => In p (map pose (samples set_a))) set0 total0 st ->
  resample_step pf set_a randlist st = Ret (brk, st') ->
  grown (fun p => In p (map pose (samples set_a))) set0 total0 st'.
Proof.
  destruct st as [[set_b total] r]. unfold resample_step. intros Hg H.
  destruct (pf_pdf_discrete_sample r (sample_count set_a) randlist) as [i r'].
  inv_ret H. inv_ret H. inv_ret H. inv_ret H.
  apply aread_Ret in Hm. destruct Hm as (_ & Hn).
  eapply grown_push; eauto.
  apply in_map. eapply nth_error_In; eauto.
Qed.

Lemma resample_loop_grown fuel pf set_a randlist bound set0 total0 r st' :
  sample_count set0 <= Z.of_nat (length (samples set0)) ->
  resample_loop fuel pf set_a randlist bound (set0, total0, r) = Ret st' ->
  grown (fun p => In p (map pose (samples set_a))) set0 total0 st'.
Proof.
  intros Hwf H. unfold resample_loop in H.
  eapply (while_inv (grown _ set0 total0)); [exact H | apply grown_init; assumption |].
  intros t brk t' _ Hg Hb. eapply resample_step_grown; eauto.
Qed.

(** ** The rejection loops *)
Lemma map_draw_free fuel map st tmp r :
  do_while fuel (map_draw map) st = Ret (tmp, r) -> in_free_cell map tmp.
Proof.
  intros H. apply do_while_last in H. destruct H as ([t0 r0] & H).
  unfold map_draw in H.
  destruct (gsl_rng_uniform_pos r0) as [u0 r1].
  destruct (gsl_rng_uniform_pos r1) as [u1 r2].
  destruct (gsl_rng_uniform r2) as [u2 r3].
  inv_ret H. inv_ret H. destruct a; [|discriminate]. assumption.
Qed.

Lemma init_map_draw_free fuel map st tmp r :
  do_while fuel (init_map_draw map) st = Ret (tmp, r) -> in_free_cell map tmp.
Proof.
  intros H. apply do_while_last in H. destruct H as ([t0 r0] & H).
  unfold init_map_draw in H.
  destruct (gsl_rng_uniform_pos r0) as [u0 r1].
  destruct (gsl_rng_uniform_pos r1) as [u1 r2].
  inv_ret H. inv_ret H. destruct a; [|discriminate]. assumption.
Qed.

Lemma hyp_draw_free map hyp heading r tmp r' :
  hyp_draw map hyp heading r = Ret (tmp, true, r') -> in_free_cell map tmp.
Proof.
  unfold hyp_draw. intros H.
  destruct (gsl_ran_bivariate_gaussian _ _ _ _) as [[gx gy] r1].
  destruct (heading r1) as [th r2].
  inv_ret H. inv_ret H. assumption.
Qed.

(** ** The injections *)
Lemma add_particles_grown fuel map n st st' :
  sample_count (fst (fst st)) <= Z.of_nat (length (samples (fst (fst st)))) ->
  add_particles fuel map n st = Ret st' ->
  grown (in_free_cell map) (fst (fst st)) (snd (fst st)) st'.
Proof.
  intros Hwf H. unfold add_particles in H.
  eapply (for_inv (grown _ (fst (fst st)) (snd (fst st))));
    [exact H | destruct st as [[? ?] ?]; apply grown_init; assumption |].
  intros j [[set_b total] r] t' _ Hg Hb.
  inv_ret Hb. destruct a as [tmp r']. inv_ret Hb. inv_ret Hb.
  eapply grown_push; eauto. eapply map_draw_free; eauto.
Qed.

Lemma map_injection_grown fuel pf map st st' :
  sample_count (fst (fst st)) <= Z.of_nat (length (samples (fst (fst st)))) ->
  map_injection fuel pf map st = Ret st' ->
  grown (in_free_cell map) (fst (fst st)) (snd (fst st)) st'.
Proof.
  intros Hwf H. unfold map_injection in H. destruct st as [[set_b total] r].
  cbn [fst snd] in Hwf |- *.
  destruct (sample_count set_b <? min_samples pf + 10).
  - eapply (for_while_inv (grown _ set_b total)); [exact H | apply grown_init; assumption |].
    intros j [[sb tt] rr] t' _ Hg Hb.
    inv_ret Hb. destruct a as [tmp r']. inv_ret Hb. inv_ret Hb.
    eapply grown_push; eauto. eapply map_draw_free; eauto.
  - inv_ret H. apply grown_init; assumption.
Qed.

Lemma hyps_injection_grown map nHyp hyps n st st' :
  sample_count (fst (fst st)) <= Z.of_nat (length (samples (fst (fst st)))) ->
  hyps_injection map nHyp hyps n st = Ret st' ->
  grown (in_free_cell map) (fst (fst st)) (snd (fst st)) st'.
Proof.
  intros Hwf H. unfold hyps_injection in H.
  eapply (for_inv (grown _ (fst (fst st)) (snd (fst st))));
    [exact H | destruct st as [[? ?] ?]; apply grown_init; assumption |].
  intros j t t' _ Hg Hb.
  eapply (for_inv (grown _ (fst (fst st)) (snd (fst st)))); [exact Hb | exact Hg |].
  intros i [[sb tt] rr] t2 _ Hg2 Hb2.
  inv_ret Hb2. inv_ret Hb2. destruct a0 as [[tmp correct] r']. destruct correct.
  - inv_ret Hb2. inv_ret Hb2. eapply grown_push; eauto. eapply hyp_draw_free; eauto.
  - inv_ret Hb2. assumption.
Qed.
(** ** Loops that rewrite the live samples in place *)
Lemma prefix_step {A} (f : A -> A) (l li : list A) (i : nat) (a : A) :
  firstn i li = map f (firstn i l) -> skipn i li = skipn i l -> length li = length l ->
  nth_error li i = Some a ->
  nth_error l i = Some a /\
  firstn (S i) (upd li i (f a)) = map f (firstn (S i) l) /\
  skipn (S i) (upd li i (f a)) = skipn (S i) l /\
  length (upd li i (f a)) = length l.
Proof.
  intros Hf Hs Hlen Hn.
  assert (Hn' : nth_error l i = Some a).
  { rewrite <- nth_error_skipn_0, <- Hs, nth_error_skipn_0. assumption. }
  assert (Hi : (i < length li)%nat) by (apply nth_error_Some; congruence).
  split; [assumption|]. split; [|split].
  - rewrite firstn_upd_snoc by assumption.
    rewrite (firstn_snoc_nth l i a Hn'), map_app, Hf. reflexivity.
  - rewrite skipn_upd_lt by lia. rewrite !skipn_S_tl, Hs. reflexivity.
  - rewrite upd_length. assumption.
Qed.

Lemma rewritten_init f set : rewritten f set 0 set.
Proof. unfold rewritten, same_frame. simpl. auto 10. Qed.

Lemma rewritten_step f set i set_i sample l :
  0 <= i -> rewritten f set i set_i ->
  aread (samples set_i) i = Ret sample -> awrite (samples set_i) i (f sample) = Ret l ->
  rewritten f set (i + 1) (with_samples set_i l) /\ nth_error (samples set) (Z.to_nat i) = Some sample.
Proof.
  intros Hi (Hc & Hfr & Hlen & Hf & Hs) Hr Hw.
  apply aread_Ret in Hr. destruct Hr as (_ & Hn).
  apply awrite_Ret in Hw. destruct Hw as (_ & ->).
  destruct (prefix_step f _ _ _ _ Hf Hs Hlen Hn) as (Hn' & Hf' & Hs' & Hlen').
  split; [|assumption].
  unfold rewritten. simpl. replace (Z.to_nat (i + 1)) with (S (Z.to_nat i)) by lia.
  unfold same_frame in *. simpl. auto 10.
Qed.

Lemma rewritten_live f set n set' :
  n = sample_count set -> rewritten f set (Z.max 0 n) set' ->
  sample_count set' = sample_count set /\ same_frame set set' /\
  length (samples set') = length (samples set) /\
  live_samples set' = map f (live_samples set).
Proof.
  intros -> (Hc & Hfr & Hlen & Hf & Hs). unfold live_samples. rewrite Hc.
  replace (Z.to_nat (Z.max 0 (sample_count set))) with (Z.to_nat (sample_count set)) in Hf by lia.
  auto.
Qed.

Lemma normalize_weights_spec set total set' :
  normalize_weights set total = Ret set' ->
  sample_count set' = sample_count set /\ same_frame set set' /\
  length (samples set') = length (samples set) /\
  live_samples set' = map (scale_weight total) (live_samples set).
Proof.
  unfold normalize_weights. intros H.
  apply (rewritten_live _ _ (sample_count set)); [reflexivity|].
  eapply (for_ind (fun i st => rewritten (scale_weight total) set i st)); 
    [exact H | apply rewritten_init |].
  intros j t t' Hj HP Hb. inv_ret Hb. inv_ret Hb. inv_ret Hb.
  eapply rewritten_step; eauto. lia.
Qed.

Lemma uniform_weights_spec set set' :
  uniform_weights set = Ret set' ->
  sample_count set' = sample_count set /\ same_frame set set' /\
  length (samples set') = length (samples set) /\
  live_samples set' = map (set_weight (d_div d_one (d_of_int (sample_count set)))) (live_samples set).
Proof.
  unfold uniform_weights. intros H.
  apply (rewritten_live _ _ (sample_count set)); [reflexivity|].
  eapply (for_ind (fun i st => rewritten (set_weight (d_div d_one (d_of_int (sample_count set)))) set i st));
    [exact H | apply rewritten_init |].
  intros j t t' Hj HP Hb. inv_ret Hb. inv_ret Hb. inv_ret Hb.
  assert (Hc : sample_count t = sample_count set) by (destruct HP; assumption).
  rewrite Hc in Hm0.
  eapply rewritten_step; eauto. lia.
Qed.

(** ** [pf_cluster_stats] leaves the samples alone *)
Lemma pf_cluster_stats_samples set set' :
  pf_cluster_stats set = Ret set' ->
  samples set' = samples set /\ sample_count set' = sample_count set.
Proof.
  unfold pf_cluster_stats. intros H. inv_ret H. inv_ret H.
  set (Q := fun s : pf_sample_set_t => samples s = samples set /\ sample_count s = sample_count set).
  assert (Q0 : Q a).
  { eapply (for_inv Q); [exact Hm | unfold Q; simpl; auto |].
    intros j t t' _ [? ?] Hb. inv_ret Hb. inv_ret Hb. unfold Q; simpl; auto. }
  assert (Q1 : Q a0).
  { eapply (for_inv Q); [exact Hm0 | exact Q0 |].
    intros j t t' _ [? ?] Hb. inv_ret Hb. inv_ret Hb.
    destruct (cluster_max_count t <=? _); [inv_ret Hb; unfold Q; auto|].
    inv_ret Hb. inv_ret Hb. inv_ret Hb.
    unfold Q. destruct (cluster_count t <? _); simpl; auto. }
  eapply (for_inv Q); [exact H | exact Q1 |].
  intros j t t' _ [? ?] Hb. inv_ret Hb. inv_ret Hb. inv_ret Hb. unfold Q; simpl; auto.
Qed.

Lemma pf_cluster_stats_live set set' :
  pf_cluster_stats set = Ret set' ->
  live_samples set' = live_samples set /\ sample_count set' = sample_count set.
Proof.
  intros H. apply pf_cluster_stats_samples in H. destruct H as [Hs Hc].
  unfold live_samples. rewrite Hs, Hc. auto.
Qed.
Lemma current_put_set pf set :
  (current_set pf = 0 \/ current_set pf = 1) ->
  current (put_set pf (current_set pf) set) = set /\
  current_set (put_set pf (current_set pf) set) = current_set pf /\
  scratch (put_set pf (current_set pf) set) = scratch pf.
Proof.
  intros [Hc|Hc]; unfold current, scratch, put_set; rewrite Hc; simpl;
    try rewrite Hc; simpl; auto.
Qed.

Lemma init_samples_spec {St} pf (draw : St -> res (pf_vector_t D * St)) (P : pf_vector_t D -> Prop)
    set st set' st' :
  (forall s p s', draw s = Ret (p, s') -> P p) ->
  init_samples pf draw set st = Ret (set', st') ->
  sample_count set' = sample_count set /\
  Forall (initial_weight pf P) (live_samples set') /\
  Z.max 0 (sample_count set') <= Z.of_nat (length (samples set')).
Proof.
  intros Hdraw H. unfold init_samples in H.
  assert (HI : sample_count (fst (set', st')) = sample_count set /\
               Z.max 0 (sample_count set) <= Z.of_nat (length (samples (fst (set', st')))) /\
               Forall (initial_weight pf P)
                 (firstn (Z.to_nat (Z.max 0 (sample_count set))) (samples (fst (set', st'))))).
  { eapply (for_ind (fun i t => sample_count (fst t) = sample_count set /\
                        i <= Z.of_nat (length (samples (fst t))) /\
                        Forall (initial_weight pf P) (firstn (Z.to_nat i) (samples (fst t)))));
      [exact H | simpl; repeat split; auto; lia |].
    intros j [sj tj] t' Hj (Hc & Hlen & HF) Hb. simpl in Hc, HF, Hlen.
    bind_inv Hb as d Hd. destruct d as [p tj']. bind_inv Hb as l Hw. ret_inv Hb.
    apply awrite_Ret in Hw. destruct Hw as (Hi & ->). simpl.
    split; [assumption|]. rewrite upd_length. split; [lia|].
    replace (Z.to_nat (j + 1)) with (S (Z.to_nat j)) by lia.
    rewrite firstn_upd_snoc by lia. apply Forall_app. split; [assumption|].
    constructor; [|constructor]. split; [reflexivity|]. simpl. eapply Hdraw; eauto. }
  simpl in HI. destruct HI as (Hc & Hlen & HF). split; [assumption|].
  rewrite Hc. split; [|assumption].
  unfold live_samples. rewrite Hc.
  replace (Z.to_nat (sample_count set)) with (Z.to_nat (Z.max 0 (sample_count set))) by lia.
  assumption.
Qed.

Lemma init_with_spec {St} pf (draw : St -> res (pf_vector_t D * St)) (P : pf_vector_t D -> Prop)
    st pf' :
  (forall s p s', draw s = Ret (p, s') -> P p) ->
  init_with pf draw st = Ret pf' ->
  current_set pf' = current_set pf /\
  sample_count (current pf') = max_samples pf /\
  Forall (initial_weight pf P) (live_samples (current pf')) /\
  Z.max 0 (max_samples pf) <= Z.of_nat (length (samples (current pf'))).
Proof.
  intros Hdraw H. unfold init_with in H.
  bind_inv H as s0 Hget. bind_inv H as p1 Hinit. destruct p1 as [s1 st1].
  bind_inv H as s2 Hcl. ret_inv H.
  assert (Hcs : current_set pf = 0 \/ current_set pf = 1).
  { apply get_set_Ret in Hget. destruct Hget as [[? _]|[? _]]; auto. }
  destruct (current_put_set pf s2 Hcs) as (-> & -> & _).
  pose proof (pf_cluster_stats_samples _ _ Hcl) as [Hsm _].
  apply pf_cluster_stats_live in Hcl. destruct Hcl as [-> ->].
  eapply init_samples_spec in Hinit; [|eassumption].
  destruct Hinit as (Hc & HF & Hlen). simpl in Hc. rewrite Hsm, <- Hc. auto.
Qed.

Lemma add_ones_add t n m : add_ones (add_ones t n) m = add_ones t (n + m).
Proof. unfold add_ones. rewrite Nat.add_comm. symmetry. apply Nat.iter_add. Qed.

Lemma live_samples_reset set k :
  live_samples (with_sample_count (with_kdtree set k) 0) = [].
Proof. reflexivity. Qed.

Lemma resample_tail set_a set_b k P2 st1 st2 set3 set4 :
  grown (from_source set_a) (with_sample_count (with_kdtree set_b k) 0) d_zero st1 ->
  grown P2 (fst (fst st1)) (snd (fst st1)) st2 ->
  normalize_weights (fst (fst st2)) (snd (fst st2)) = Ret set3 ->
  pf_cluster_stats set3 = Ret set4 ->
  resampled_from set_a P2 set4.
Proof.
  intros (l1 & He1 & Hl1 & Ht1) (l2 & He2 & Hl2 & Ht2) Hn Hc.
  apply pf_cluster_stats_live in Hc. destruct Hc as [Hlive Hcount].
  apply normalize_weights_spec in Hn. destruct Hn as (Hc3 & _ & _ & Hl3).
  pose proof (extends_by_app _ _ _ _ _ He1 He2) as (Ha & Hb & _ & _).
  rewrite live_samples_reset in Ha. simpl in Ha, Hb.
  exists l1, l2. rewrite Hlive, Hl3, Ha, Hcount, Hc3, Hb, Ht2, Ht1, add_ones_add, <- length_app.
  auto.
Qed.

Lemma grown_wf P set0 total0 st :
  grown P set0 total0 st ->
  sample_count (fst (fst st)) <= Z.of_nat (length (samples (fst (fst st)))).
Proof. intros (l & (_ & _ & H & _) & _). assumption. Qed.

Lemma reset_wf set k :
  sample_count (with_sample_count (with_kdtree set k) 0)
  <= Z.of_nat (length (samples (with_sample_count (with_kdtree set k) 0))).
Proof. simpl. lia. Qed.

Lemma pf_update_resample_spec fuel pf n r pf' :
  pf_update_resample fuel pf n r = Ret pf' ->
  (current_set pf = 0 \/ current_set pf = 1) /\
  (exists set_b', pf' = with_current_set (put_set pf (1 - current_set pf) set_b')
                                          (1 - current_set pf)) /\
  resampled_from (current pf) (fun _ => False) (current pf').
Proof.
  unfold pf_update_resample. intros H.
  bind_inv H as set_a Ha. bind_inv H as set_b Hb. bind_inv H as randlist Hrl.
  bind_inv H as st1 Hloop. destruct st1 as [[set_b1 total1] r1].
  bind_inv H as set_b3 Hnorm. bind_inv H as set_b4 Hcl. ret_inv H.
  destruct (get_sets_Ret _ _ _ Ha Hb) as (Hcs & Hr & -> & ->). rewrite Hr.
  split; [assumption|]. split; [eauto|].
  destruct (flip_frame pf set_b4 Hcs) as (_ & _ & -> & _).
  apply resample_loop_grown in Hloop; [|apply reset_wf].
  eapply (resample_tail _ _ _ _ (set_b1, total1, r1) (set_b1, total1, r1));
    [exact Hloop | apply grown_init; eapply (grown_wf _ _ _ _ Hloop) | exact Hnorm | exact Hcl].
Qed.

Lemma pf_update_resample_addParticle_spec fuel pf n map r pf' :
  pf_update_resample_addParticle fuel pf n map r = Ret pf' ->
  (current_set pf = 0 \/ current_set pf = 1) /\
  (exists set_b', pf' = with_current_set (put_set pf (1 - current_set pf) set_b')
                                          (1 - current_set pf)) /\
  resampled_from (current pf) (in_free_cell map) (current pf').
Proof.
  unfold pf_update_resample_addParticle. intros H.
  bind_inv H as set_a Ha. bind_inv H as set_b Hb. bind_inv H as randlist Hrl.
  bind_inv H as st1 Hloop. bind_inv H as st2 Hinj. destruct st2 as [[set_b2 total2] r2].
  bind_inv H as set_b3 Hnorm. bind_inv H as set_b4 Hcl. ret_inv H.
  destruct (get_sets_Ret _ _ _ Ha Hb) as (Hcs & Hr & -> & ->). rewrite Hr.
  split; [assumption|]. split; [eauto|].
  destruct (flip_frame pf set_b4 Hcs) as (_ & _ & -> & _).
  apply resample_loop_grown in Hloop; [|apply reset_wf].
  apply add_particles_grown in Hinj; [|apply (grown_wf _ _ _ _ Hloop)].
  eapply (resample_tail _ _ _ _ st1 (set_b2, total2, r2));
    [exact Hloop | exact Hinj | exact Hnorm | exact Hcl].
Qed.

Lemma pf_update_resample_map_spec fuel pf map r pf' :
  pf_update_resample_map fuel pf map r = Ret pf' ->
  (current_set pf = 0 \/ current_set pf = 1) /\
  (exists set_b', pf' = with_current_set (put_set pf (1 - current_set pf) set_b')
                                          (1 - current_set pf)) /\
  resampled_from (current pf) (in_free_cell map) (current pf').
Proof.
  unfold pf_update_resample_map. intros H.
  bind_inv H as set_a Ha. bind_inv H as set_b Hb. bind_inv H as randlist Hrl.
  bind_inv H as st1 Hloop. bind_inv H as st2 Hinj. destruct st2 as [[set_b2 total2] r2].
  bind_inv H as set_b3 Hnorm. bind_inv H as set_b4 Hcl. ret_inv H.
  destruct (get_sets_Ret _ _ _ Ha Hb) as (Hcs & Hr & -> & ->). rewrite Hr.
  split; [assumption|]. split; [eauto|].
  destruct (flip_frame pf set_b4 Hcs) as (_ & _ & -> & _).
  apply resample_loop_grown in Hloop; [|apply reset_wf].
  apply map_injection_grown in Hinj; [|apply (grown_wf _ _ _ _ Hloop)].
  eapply (resample_tail _ _ _ _ st1 (set_b2, total2, r2));
    [exact Hloop | exact Hinj | exact Hnorm | exact Hcl].
Qed.

Lemma pf_update_resample_hyps_spec fuel pf map nHyp hyps nParticle r pf' :
  pf_update_resample_hyps fuel pf map nHyp hyps nParticle r = Ret pf' ->
  (current_set pf = 0 \/ current_set pf = 1) /\
  (exists set_b', pf' = with_current_set (put_set pf (1 - current_set pf) set_b')
                                          (1 - current_set pf)) /\
  resampled_from (current pf) (in_free_cell map) (current pf').
Proof.
  unfold pf_update_resample_hyps. intros H.
  bind_inv H as set_a Ha. bind_inv H as set_b Hb. bind_inv H as randlist Hrl.
  bind_inv H as st1 Hloop. bind_inv H as nNewSample Hbud.
  bind_inv H as st2 Hinj. destruct st2 as [[set_b2 total2] r2].
  bind_inv H as set_b3 Hnorm. bind_inv H as set_b4 Hcl. ret_inv H.
  destruct (get_sets_Ret _ _ _ Ha Hb) as (Hcs & Hr & -> & ->). rewrite Hr.
  split; [assumption|]. split; [eauto|].
  destruct (flip_frame pf set_b4 Hcs) as (_ & _ & -> & _).
  apply resample_loop_grown in Hloop; [|apply reset_wf].
  apply hyps_injection_grown in Hinj; [|apply (grown_wf _ _ _ _ Hloop)].
  eapply (resample_tail _ _ _ _ st1 (set_b2, total2, r2));
    [exact Hloop | exact Hinj | exact Hnorm | exact Hcl].
Qed.

Lemma grown_grown_set P set0 total0 st : grown P set0 total0 st -> grown_set set0 (fst (fst st)).
Proof.
  intros (l & He & Hl & _). exists l. split; [assumption|].
  eapply Forall_impl; [|eassumption]. intros s [? _]. split; auto.
Qed.

Lemma grown_set_push set0 set_b set_b' p w :
  grown_set set0 set_b -> push_sample set_b p = Ret set_b' -> grown_set set0 (kd_insert set_b' p w).
Proof.
  intros (l & He & Hl) Hp.
  apply push_sample_spec in Hp. destruct Hp as (Hp & _ & _).
  exists (l ++ [mk_sample p d_one]). split.
  - apply kd_insert_extends. eapply extends_by_app; eauto.
  - apply Forall_app. split; [assumption|]. constructor; [|constructor]. split; auto.
Qed.

Lemma count_tail set_b k set2 set3 set4 :
  grown_set (with_sample_count (with_kdtree set_b k) 0) set2 ->
  normalize_by_count set2 = Ret set3 ->
  pf_cluster_stats set3 = Ret set4 ->
  resampled_by_count set4.
Proof.
  intros (l & (Ha & Hb & _ & _) & Hl) Hn Hc.
  apply pf_cluster_stats_live in Hc. destruct Hc as [Hlive Hcount].
  unfold normalize_by_count in Hn.
  apply normalize_weights_spec in Hn. destruct Hn as (Hc3 & _ & _ & Hl3).
  rewrite live_samples_reset in Ha. simpl in Ha, Hb.
  exists l. rewrite Hlive, Hl3, Ha, Hcount, Hc3, Hb. auto.
Qed.

Lemma hyps_3_transfer_grown set0 set_a st st' :
  grown_set set0 (fst st) -> hyps_3_transfer set_a st = Ret st' -> grown_set set0 (fst st').
Proof.
  intros Hg H. unfold hyps_3_transfer in H.
  eapply (for_inv (fun t => grown_set set0 (fst t))); [exact H | exact Hg |].
  intros j [sb rr] t' _ Hg' Hb. simpl in Hg'.
  bind_inv Hb as sample_a Hrd.
  destruct (uniform_heading rr) as [th rr'].
  bind_inv Hb as sb' Hpush. ret_inv Hb. simpl.
  eapply grown_set_push; eauto.
Qed.

Lemma pf_update_resample_hyps_2_spec fuel pf map nHyp hyps over_head r pf' :
  pf_update_resample_hyps_2 fuel pf map nHyp hyps over_head r = Ret pf' ->
  (current_set pf = 0 \/ current_set pf = 1) /\
  (exists set_a' set_b',
      pf' = with_current_set
              (put_set (put_set pf (current_set pf) set_a') (1 - current_set pf) set_b')
              (1 - current_set pf)) /\
  resampled_by_count (current pf').
Proof.
  unfold pf_update_resample_hyps_2. intros H.
  bind_inv H as set_a Ha. bind_inv H as set_b Hb. bind_inv H as nNewSample Hbud.
  bind_inv H as st0 Hinj. destruct st0 as [set_a1 r0].
  bind_inv H as set_a2 Hun. bind_inv H as randlist Hrl.
  bind_inv H as st1 Hloop. destruct st1 as [[set_b1 total1] r1].
  bind_inv H as set_b3 Hnorm. bind_inv H as set_b4 Hcl. ret_inv H.
  destruct (get_sets_Ret _ _ _ Ha Hb) as (Hcs & Hr & -> & ->). rewrite Hr.
  split; [assumption|]. split; [eauto|].
  destruct (flip_both pf set_a2 set_b4 Hcs) as (_ & _ & -> & _).
  apply resample_loop_grown in Hloop; [|apply reset_wf].
  apply grown_grown_set in Hloop.
  eapply count_tail; eauto.
Qed.

Lemma pf_update_resample_hyps_3_spec fuel pf map nHyp hyps r pf' :
  pf_update_resample_hyps_3 fuel pf map nHyp hyps r = Ret pf' ->
  (current_set pf = 0 \/ current_set pf = 1) /\
  (exists set_a' set_b',
      pf' = with_current_set
              (put_set (put_set pf (current_set pf) set_a') (1 - current_set pf) set_b')
              (1 - current_set pf)) /\
  resampled_by_count (current pf').
Proof.
  unfold pf_update_resample_hyps_3. intros H.
  bind_inv H as set_a Ha. bind_inv H as set_b Hb. bind_inv H as randlist Hrl.
  bind_inv H as st1 Hloop. destruct st1 as [[set_b1 total1] r1].
  bind_inv H as nNewSample Hbud.
  bind_inv H as st2 Hinj. destruct st2 as [[set_a2 set_b2] r2].
  bind_inv H as set_b3 Hnorm. bind_inv H as set_b4 Hcl. ret_inv H.
  destruct (get_sets_Ret _ _ _ Ha Hb) as (Hcs & Hr & -> & ->). rewrite Hr.
  split; [assumption|]. split; [eauto|].
  destruct (flip_both pf set_a2 set_b4 Hcs) as (_ & _ & -> & _).
  apply resample_loop_grown in Hloop; [|apply reset_wf].
  apply grown_grown_set in Hloop. simpl in Hloop.
  assert (Hg : grown_set (with_sample_count (with_kdtree (scratch pf)
                            (pf_kdtree_clear (kdtree (scratch pf)))) 0) set_b2).
  { eapply (for_inv (fun t => grown_set _ (snd (fst t)))) in Hinj; [exact Hinj | exact Hloop |].
    intros j [[sa sb] rr] t' _ Hg' Hbody. simpl in Hg'.
    bind_inv Hbody as c1 Hcloud. destruct c1 as [sa' rr'].
    bind_inv Hbody as c2 Htr. destruct c2 as [sb' rr''].
    ret_inv Hbody. simpl.
    apply (hyps_3_transfer_grown _ _ (sb, rr') (sb', rr'') Hg' Htr). }
  eapply count_tail; eauto.
Qed.

(** ** The sensor update *)
Lemma sum_square_snoc (l : list (pf_sample_t D)) s :
  sum_square_weights (l ++ [s]) = d_add (sum_square_weights l) (d_pow2 (weight s)).
Proof. unfold sum_square_weights. rewrite fold_left_app. reflexivity. Qed.

Lemma sensor_loop_spec (f : pf_sample_t D -> pf_sample_t D) set st' :
  for_ 0 (sample_count set)
    (fun i '(set_i, sq) =>
       sample <- aread (samples set_i) i ;;
       l <- awrite (samples set_i) i (f sample) ;;
       Ret (with_samples set_i l, d_add sq (d_pow2 (weight (f sample)))))
    (set, d_zero) = Ret st' ->
  sample_count (fst st') = sample_count set /\
  live_samples (fst st') = map f (live_samples set) /\
  snd st' = sum_square_weights (live_samples (fst st')) /\
  Z.max 0 (sample_count set) <= Z.of_nat (length (samples set)).
Proof.
  intros H.
  assert (HI : (rewritten f set (Z.max 0 (sample_count set)) (fst st') /\
                Z.max 0 (sample_count set) <= Z.of_nat (length (samples set))) /\
               snd st' = sum_square_weights
                           (map f (firstn (Z.to_nat (Z.max 0 (sample_count set))) (samples set)))).
  { eapply (for_ind (fun i t => (rewritten f set i (fst t) /\
                                 i <= Z.of_nat (length (samples set))) /\
                        snd t = sum_square_weights (map f (firstn (Z.to_nat i) (samples set)))));
      [exact H | split; [split; [apply rewritten_init | lia] | reflexivity] |].
    intros j [sj sq] t' Hj [[HR Hlen] Hsq] Hb. simpl in HR, Hsq.
    bind_inv Hb as sample Hrd. bind_inv Hb as l Hwr. ret_inv Hb. simpl.
    destruct (rewritten_step f set j sj sample l ltac:(lia) HR Hrd Hwr) as [HR' Hn].
    split; [split; [assumption|] |].
    { assert (Z.to_nat j < length (samples set))%nat by (apply nth_error_Some; congruence). lia. }
    replace (Z.to_nat (j + 1)) with (S (Z.to_nat j)) by lia.
    rewrite (firstn_snoc_nth _ _ _ Hn), map_app. simpl.
    rewrite sum_square_snoc. congruence. }
  destruct HI as [[HR Hlen] Hsq].
  destruct (rewritten_live f set (sample_count set) (fst st') eq_refl HR) as (Hc & _ & _ & Hl).
  split; [assumption|]. split; [assumption|]. split; [|assumption].
  rewrite Hsq, Hl. unfold live_samples.
  replace (Z.to_nat (Z.max 0 (sample_count set))) with (Z.to_nat (sample_count set)) by lia.
  reflexivity.
Qed.

Lemma pf_update_sensor_spec pf (sensor_fn : pf_sample_set_t -> D * pf_sample_set_t) sq pf' :
  pf_update_sensor pf sensor_fn = Ret (sq, pf') ->
  let total := fst (sensor_fn (current pf)) in
  let set1 := snd (sensor_fn (current pf)) in
  current_set pf' = current_set pf /\
  sample_count (current pf') = sample_count set1 /\
  live_samples (current pf') = map (sensor_rule total (sample_count set1)) (live_samples set1) /\
  sq = sum_square_weights (live_samples (current pf')) /\
  Z.max 0 (sample_count set1) <= Z.of_nat (length (samples set1)).
Proof.
  unfold pf_update_sensor. intros H.
  bind_inv H as set_c Hget.
  assert (Hcs : current_set pf = 0 \/ current_set pf = 1).
  { apply get_set_Ret in Hget. destruct Hget as [[? _]|[? _]]; auto. }
  assert (Hcur : set_c = current pf).
  { apply get_set_Ret in Hget. unfold current.
    destruct Hget as [[Hc ->]|[Hc ->]]; rewrite Hc; reflexivity. }
  subst set_c.
  destruct (sensor_fn (current pf)) as [total set1] eqn:Hfn. cbn [fst snd]. 
  bind_inv H as st' Hloop. destruct st' as [set2 sq2]. ret_inv H.
  destruct (current_put_set pf set2 Hcs) as (-> & -> & _).
  split; [reflexivity|].
  unfold sensor_rule.
  destruct (d_ltb d_zero total).
  - destruct (sensor_loop_spec (scale_weight total) set1 (set2, sq) Hloop) as (A & B & C & D0).
    simpl in *. auto.
  - destruct (sensor_loop_spec (set_weight (d_div d_one (d_of_int (sample_count set1))))
                set1 (set2, sq)) as (A & B & C & D0); [|simpl in *; auto].
    rewrite <- Hloop. unfold for_. 
    assert (Heq : forall n i (st : pf_sample_set_t * D),
               sample_count (fst st) = sample_count set1 ->
               for_loop n i
                 (fun i '(set_i, sq) =>
                    sample <- aread (samples set_i) i ;;
                    l <- awrite (samples set_i) i
                           (set_weight (d_div d_one (d_of_int (sample_count set1))) sample) ;;
                    Ret (with_samples set_i l,
                         d_add sq (d_pow2 (weight (set_weight
                              (d_div d_one (d_of_int (sample_count set1))) sample))))) st
               = for_loop n i
                   (fun i '(set, sq) =>
                      sample <- aread (samples set) i ;;
                      (let w := d_div d_one (d_of_int (sample_count set)) in
                       l <- awrite (samples set) i (mk_sample (pose sample) w) ;;
                       Ret (with_samples set l, d_add sq (d_pow2 w)))) st).
    { induction n as [|n IH]; intros i [si sqi] Hc; [reflexivity|]. simpl in Hc. simpl.
      rewrite Hc.
      destruct (aread (samples si) i) as [sample|e]; [|reflexivity]. simpl.
      unfold set_weight. cbn [weight pose].
      destruct (awrite (samples si) i _) as [l|e]; [|reflexivity]. simpl.
      apply IH. simpl. assumption. }
    apply Heq. reflexivity.
Qed.
(** ** The flip and the frame *)
Lemma flip_frame_of pf pf' :
  (current_set pf = 0 \/ current_set pf = 1) ->
  (exists set_b', pf' = with_current_set (put_set pf (1 - current_set pf) set_b')
                                          (1 - current_set pf)) ->
  current_set pf' = 1 - current_set pf /\ scratch pf' = current pf.
Proof. intros Hcs (sb & ->). destruct (flip_frame pf sb Hcs) as (A & B & _). auto. Qed.

Lemma flip_both_of pf pf' :
  (current_set pf = 0 \/ current_set pf = 1) ->
  (exists set_a' set_b',
      pf' = with_current_set
              (put_set (put_set pf (current_set pf) set_a') (1 - current_set pf) set_b')
              (1 - current_set pf)) ->
  current_set pf' = 1 - current_set pf.
Proof. intros Hcs (sa & sb & ->). destruct (flip_both pf sa sb Hcs) as (A & _). auto. Qed.

(** *** The set [pf_update_resample_hyps_2] resamples from *)
Lemma same_frame_refl set : same_frame set set.
Proof. unfold same_frame. auto. Qed.

Lemma same_frame_trans set1 set2 set3 :
  same_frame set1 set2 -> same_frame set2 set3 -> same_frame set1 set3.
Proof.
  unfold same_frame. intros (A1 & A2 & A3 & A4) (B1 & B2 & B3 & B4).
  repeat split; congruence.
Qed.

Lemma uniform_weights_within set set' :
  uniform_weights set = Ret set' ->
  Z.max 0 (sample_count set) <= Z.of_nat (length (samples set)).
Proof.
  unfold uniform_weights. intros H.
  assert (HI : length (samples set') = length (samples set) /\
               Z.max 0 (sample_count set) <= Z.of_nat (length (samples set))).
  { eapply (for_ind (fun i t => length (samples t) = length (samples set) /\
                                i <= Z.of_nat (length (samples set))));
      [exact H | split; [reflexivity | lia] |].
    intros j t t' Hj (Hlen & Hi) Hb.
    bind_inv Hb as sample Hrd. bind_inv Hb as l Hw. ret_inv Hb.
    apply awrite_Ret in Hw. destruct Hw as (Hr & ->).
    cbn [samples with_samples]. rewrite upd_length. split; [assumption | lia]. }
  apply HI.
Qed.

(** The state of the injection loops of [pf_update_resample_hyps_2]. *)
Lemma hyps_2_injection_grows (mp : map_t D) nHyp hyps n set_a r set_a1 r1 :
  hyps_2_injection mp nHyp hyps n (set_a, r) = Ret (set_a1, r1) ->
  sample_count set_a <= sample_count set_a1 /\
  length (samples set_a1) = length (samples set_a) /\
  (sample_count set_a <= Z.of_nat (length (samples set_a)) ->
   exists l, extends_by set_a l set_a1 /\
             Forall (unit_weight_in (in_free_cell mp)) l /\
             same_frame set_a set_a1).
Proof.
  unfold hyps_2_injection. intros H.
  set (Q := fun st : pf_sample_set_t * rng =>
              sample_count set_a <= sample_count (fst st) /\
              length (samples (fst st)) = length (samples set_a) /\
              (sample_count set_a <= Z.of_nat (length (samples set_a)) ->
               exists l, extends_by set_a l (fst st) /\
                         Forall (unit_weight_in (in_free_cell mp)) l /\
                         same_frame set_a (fst st))).
  change (Q (set_a1, r1)).
  eapply (for_inv Q); [exact H | |].
  - unfold Q. cbn [fst]. split; [lia|]. split; [reflexivity|].
    intros Hwf. exists []. split; [apply extends_by_nil; assumption|].
    split; [constructor | apply same_frame_refl].
  - intros j t t' _ HQ Hb.
    eapply (for_inv Q); [exact Hb | exact HQ |].
    intros i [sa rr] t2 _ (Q1 & Q2 & Q3) Hb2. cbn [fst] in Q1, Q2, Q3.
    bind_inv Hb2 as hyp Hrd. bind_inv Hb2 as d Hd. destruct d as [[tmp correct] r'].
    destruct correct.
    + bind_inv Hb2 as sa' Hp. ret_inv Hb2.
      assert (Hfree := hyp_draw_free _ _ _ _ _ _ Hd).
      apply push_sample_spec in Hp. destruct Hp as (He & Hfr & H0).
      unfold Q. cbn [fst].
      destruct He as (E1 & E2 & E3 & E4). cbn [length] in E2.
      split; [lia|]. split; [congruence|].
      intros Hwf. destruct (Q3 Hwf) as (l & Hl1 & Hl2 & Hl3).
      exists (l ++ [mk_sample tmp d_one]). split; [|split].
      * eapply extends_by_app; [exact Hl1|]. unfold extends_by. auto.
      * apply Forall_app. split; [assumption|]. constructor; [|constructor].
        split; [reflexivity | assumption].
      * eapply same_frame_trans; eassumption.
    + ret_inv Hb2. unfold Q. cbn [fst]. auto.
Qed.

Lemma pf_update_resample_hyps_2_source fuel pf (mp : map_t D) nHyp hyps over_head r pf' :
  pf_update_resample_hyps_2 fuel pf mp nHyp hyps over_head r = Ret pf' ->
  appended_and_reset mp (current pf) (scratch pf').
Proof.
  unfold pf_update_resample_hyps_2. intros H.
  bind_inv H as set_a Ha. bind_inv H as set_b Hb. bind_inv H as nNewSample Hbud.
  bind_inv H as st0 Hinj. destruct st0 as [set_a1 r0].
  bind_inv H as set_a2 Hun. bind_inv H as randlist Hrl.
  bind_inv H as st1 Hloop. destruct st1 as [[set_b1 total1] r1].
  bind_inv H as set_b3 Hnorm. bind_inv H as set_b4 Hcl. ret_inv H.
  destruct (get_sets_Ret _ _ _ Ha Hb) as (Hcs & Hr & -> & ->). rewrite Hr.
  destruct (flip_both pf set_a2 set_b4 Hcs) as (_ & -> & _).
  apply hyps_2_injection_grows in Hinj. destruct Hinj as (I1 & I2 & I3).
  pose proof (uniform_weights_within _ _ Hun) as Hwf.
  apply uniform_weights_spec in Hun. destruct Hun as (U1 & U2 & U3 & U4).
  destruct I3 as (l & (E1 & E2 & E3 & E4) & Hl & Hfr); [lia|].
  exists l. split; [assumption|]. split; [lia|]. split.
  - rewrite U4, U1, E1. reflexivity.
  - eapply same_frame_trans; eassumption.
Qed.

(** *** The set [pf_update_resample_hyps_3] resamples from *)
Lemma hyp_draw_zero_heading (mp : map_t D) hyp r tmp correct r' :
  hyp_draw mp hyp zero_heading r = Ret (tmp, correct, r') -> v2 tmp = d_zero.
Proof.
  unfold hyp_draw, zero_heading. intros H.
  destruct (gsl_ran_bivariate_gaussian _ _ _ _) as [[gx gy] r1].
  bind_inv H as c Hc. injection H as <- _ _. reflexivity.
Qed.

Lemma hyps_3_cloud_holds fuel pf (mp : map_t D) hyp nMinPart nNewSample set_a r set_a' r' :
  hyps_3_cloud fuel pf mp hyp nMinPart nNewSample (set_a, r) = Ret (set_a', r') ->
  holds_cloud mp set_a'.
Proof.
  unfold hyps_3_cloud. intros H.
  set (reset := with_kdtree (with_sample_count set_a 0) (pf_kdtree_clear (kdtree set_a))) in H.
  set (G := fun st : pf_sample_set_t * rng =>
              exists l, extends_by reset l (fst st) /\
                Forall (unit_weight_in (fun p => in_free_cell mp p /\ v2 p = d_zero)) l).
  assert (Hacc : forall sa rr h tmp correct rr' sa',
             G (sa, rr) -> hyp_draw mp h zero_heading rr = Ret (tmp, correct, rr') ->
             hyps_3_accept sa tmp correct = Ret sa' -> G (sa', rr')).
  { intros sa rr h tmp correct rr' sa' (l & Hl1 & Hl2) Hd Hacc. unfold hyps_3_accept in Hacc.
    destruct correct.
    - bind_inv Hacc as sa1 Hp. ret_inv Hacc.
      apply push_sample_spec in Hp. destruct Hp as (He & _ & _).
      exists (l ++ [mk_sample tmp d_one]). cbn [fst]. split.
      + apply kd_insert_extends. eapply extends_by_app; eauto.
      + apply Forall_app. split; [assumption|]. constructor; [|constructor].
        split; [reflexivity|]. split.
        * eapply hyp_draw_free; eauto.
        * eapply hyp_draw_zero_heading; eauto.
    - ret_inv Hacc. exists l. auto. }
  bind_inv H as st1 Hmin.
  assert (G1 : G st1).
  { eapply (for_inv G); [exact Hmin | |].
    - exists []. cbn [fst]. split; [apply extends_by_nil; cbn; lia | constructor].
    - intros i [sa rr] t' _ HG Hb.
      bind_inv Hb as h Hh. bind_inv Hb as d Hd. destruct d as [[tmp correct] rr'].
      bind_inv Hb as sa' Hacc'. ret_inv Hb. eapply Hacc; eauto. }
  assert (G2 : G (set_a', r')).
  { eapply (while_inv G); [exact H | exact G1 |].
    intros [sa rr] brk t' _ HG Hb.
    destruct (pf_resample_limit_2 pf (leaf_count (kdtree sa)) <? sample_count sa).
    - ret_inv Hb. assumption.
    - bind_inv Hb as h Hh. bind_inv Hb as d Hd. destruct d as [[tmp correct] rr'].
      bind_inv Hb as sa' Hacc'. ret_inv Hb. eapply Hacc; eauto. }
  destruct G2 as (l & (E1 & E2 & E3 & E4) & Hl). cbn [fst] in *.
  unfold holds_cloud. split.
  - cbn [sample_count reset with_kdtree with_sample_count] in E2. lia.
  - rewrite E1. unfold reset. cbn [live_samples sample_count with_kdtree with_sample_count
                                    samples Z.to_nat firstn app]. assumption.
Qed.

Lemma pf_update_resample_hyps_3_source fuel pf (mp : map_t D) nHyp hyps r pf' :
  pf_update_resample_hyps_3 fuel pf mp nHyp hyps r = Ret pf' ->
  (nHyp < 0 -> scratch pf' = current pf) /\
  (0 < nHyp -> holds_cloud mp (scratch pf')).
Proof.
  unfold pf_update_resample_hyps_3. intros H.
  bind_inv H as set_a Ha. bind_inv H as set_b Hb. bind_inv H as randlist Hrl.
  bind_inv H as st1 Hloop. destruct st1 as [[set_b1 total1] r1].
  bind_inv H as nNewSample Hbud.
  bind_inv H as st2 Hinj. destruct st2 as [[set_a2 set_b2] r2].
  bind_inv H as set_b3 Hnorm. bind_inv H as set_b4 Hcl. ret_inv H.
  destruct (get_sets_Ret _ _ _ Ha Hb) as (Hcs & Hr & -> & ->). rewrite Hr.
  destruct (flip_both pf set_a2 set_b4 Hcs) as (_ & -> & _).
  assert (HP : (Z.max 0 nHyp <= 0 /\ set_a2 = current pf) \/
               (0 < Z.max 0 nHyp /\ holds_cloud mp set_a2)).
  { eapply (for_ind (fun j (st : pf_sample_set_t * pf_sample_set_t * rng) =>
                       (j <= 0 /\ fst (fst st) = current pf) \/
                       (0 < j /\ holds_cloud mp (fst (fst st))))) in Hinj;
      [exact Hinj | left; split; [lia | reflexivity] |].
    intros j [[sa sb] rr] t' Hj _ Hbody.
    bind_inv Hbody as c1 Hcloud. destruct c1 as [sa' rr'].
    bind_inv Hbody as c2 Htr. destruct c2 as [sb' rr''].
    ret_inv Hbody. right. cbn [fst]. split; [lia|].
    eapply hyps_3_cloud_holds; eauto. }
  split.
  - intros Hn. destruct HP as [[_ ->] | [Hj _]]; [reflexivity | lia].
  - intros Hn. destruct HP as [[Hj _] | [_ Hc]]; [lia | assumption].
Qed.


(** ** Where the poses come from *)
Lemma map_pose_scale (total : D) (l : list (pf_sample_t D)) :
  map pose (map (scale_weight total) l) = map pose l.
Proof. rewrite map_map. reflexivity. Qed.

Lemma unit_weight_poses (P : pf_vector_t D -> Prop) (l : list (pf_sample_t D)) :
  Forall (unit_weight_in P) l -> Forall P (map pose l).
Proof.
  intros H. apply Forall_map. eapply Forall_impl; [|exact H]. intros s [_ ?]. assumption.
Qed.

Lemma resampled_from_poses set_a (P : pf_vector_t D -> Prop) set' :
  resampled_from set_a P set' ->
  exists l1 l2, map pose (live_samples set') = l1 ++ l2 /\
                Forall (from_source set_a) l1 /\ Forall P l2.
Proof.
  intros (l1 & l2 & Hl & H1 & H2 & _).
  exists (map pose l1), (map pose l2).
  rewrite Hl, map_pose_scale, map_app.
  split; [reflexivity|]. split; apply unit_weight_poses; assumption.
Qed.

(** C6, as the code has it: after [pf_init_map], [pf_update_resample_map],
    [pf_update_resample_hyps] or [pf_update_resample_addParticle] returns,
    the poses of the resulting set are, in order, copies of poses of the
    set resampled from, followed by injected poses that each pass the
    free-cell check of the map; after [pf_init_map] there is no copy, so
    every pose passes the check. *)
Theorem emitted_poses_copied_or_free fuel pf (c : pf_call D) r pf' (mp : map_t D) :
  free_cell_map c = Some mp ->
  run_call fuel pf c r = Ret pf' ->
  exists l1 l2,
    map pose (live_samples (current pf')) = l1 ++ l2 /\
    Forall (from_source (current pf)) l1 /\
    Forall (in_free_cell mp) l2 /\
    (is_resample c = false -> l1 = []).
Proof.
  intros Hmap H. destruct c; simpl in Hmap; try discriminate; injection Hmap as ->; simpl in H.
  - unfold pf_init_map in H.
    apply (init_with_spec pf _ (in_free_cell mp)) in H.
    + destruct H as (_ & _ & HF & _). exists [], (map pose (live_samples (current pf'))).
      split; [reflexivity|]. split; [constructor|]. split; [|reflexivity].
      apply Forall_map. eapply Forall_impl; [|exact HF]. intros s [_ ?]. assumption.
    + intros s p s' Hd. eapply init_map_draw_free; eauto.
  - apply pf_update_resample_map_spec in H. destruct H as (_ & _ & H).
    destruct (resampled_from_poses _ _ _ H) as (l1 & l2 & A & B & C).
    exists l1, l2. simpl. repeat split; auto. discriminate.
  - apply pf_update_resample_addParticle_spec in H. destruct H as (_ & _ & H).
    destruct (resampled_from_poses _ _ _ H) as (l1 & l2 & A & B & C).
    exists l1, l2. simpl. repeat split; auto. discriminate.
  - apply pf_update_resample_hyps_spec in H. destruct H as (_ & _ & H).
    destruct (resampled_from_poses _ _ _ H) as (l1 & l2 & A & B & C).
    exists l1, l2. simpl. repeat split; auto. discriminate.
Qed.

(** ** The budget of the hypotheses *)
Lemma hyps_budget_value pf set_b nHyp nParticle n :
  hyps_budget pf set_b nHyp nParticle = Ret n ->
  nHyp <> 0 /\ n = Z.quot (Z.min (max_samples pf - sample_count set_b) nParticle) nHyp.
Proof.
  unfold hyps_budget. intros H.
  destruct (Z.eqb_spec nHyp 0); [discriminate|]. ret_inv H.
  split; [assumption|]. f_equal.
  destruct (Z.ltb_spec nParticle (max_samples pf - sample_count set_b)); lia.
Qed.

Lemma hyp_draw_rng mp hyp r tmp correct r' :
  hyp_draw mp hyp uniform_heading r = Ret (tmp, correct, r') -> r' = after_draw hyp r.
Proof.
  unfold hyp_draw, after_draw. intros H.
  destruct (gsl_ran_bivariate_gaussian _ _ _ _) as [[gx gy] r1]. simpl.
  destruct (uniform_heading r1) as [th r2].
  bind_inv H as c Hc. ret_inv H. reflexivity.
Qed.

Lemma hyps_inner_rng mp (hyps : list (hyp_t D)) j hyp n :
  nth_error hyps (Z.to_nat j) = Some hyp -> 0 <= j ->
  forall i st st',
    for_loop n i
      (fun i '(set_b, total, r) =>
         hyp <- aread hyps j ;;
         '(tmp, correct, r) <- hyp_draw mp hyp uniform_heading r ;;
         if (correct : bool)
         then set_b <- push_sample set_b tmp ;;
              Ret (kd_insert set_b tmp d_one, d_add total d_one, r)
         else Ret (set_b, total, r)) st = Ret st' ->
    snd st' = Nat.iter n (after_draw hyp) (snd st).
Proof.
  intros Hn Hj. induction n as [|n IH]; intros i st st' H; simpl in H.
  - ret_inv H. reflexivity.
  - bind_inv H as st1 Hb. apply IH in H. rewrite H.
    destruct st as [[sb tt] rr].
    bind_inv Hb as hyp' Hrd. apply aread_Ret in Hrd. destruct Hrd as (_ & Hrd).
    assert (hyp' = hyp) by congruence. subst hyp'.
    bind_inv Hb as d Hd. destruct d as [[tmp correct] r'].
    apply hyp_draw_rng in Hd. subst r'.
    assert (Hs : snd st1 = after_draw hyp rr).
    { destruct correct; [bind_inv Hb as sb' Hp|]; ret_inv Hb; reflexivity. }
    rewrite Hs. simpl. clear. induction n; simpl; congruence.
Qed.
Lemma after_draws_0 (hyps : list (hyp_t D)) r : after_draws 0 hyps r = r.
Proof. revert r; induction hyps as [|h t IH]; intros r; simpl; auto. Qed.

Lemma after_draws_snoc n (hyps : list (hyp_t D)) hyp r :
  after_draws n (hyps ++ [hyp]) r = Nat.iter n (after_draw hyp) (after_draws n hyps r).
Proof. revert r; induction hyps as [|h t IH]; intros r; simpl; auto. Qed.

Lemma hyps_inner_cases mp (hyps : list (hyp_t D)) j n i st st' :
  0 <= j ->
  for_loop n i
    (fun i '(set_b, total, r) =>
       hyp <- aread hyps j ;;
       '(tmp, correct, r) <- hyp_draw mp hyp uniform_heading r ;;
       if (correct : bool)
       then set_b <- push_sample set_b tmp ;;
            Ret (kd_insert set_b tmp d_one, d_add total d_one, r)
       else Ret (set_b, total, r)) st = Ret st' ->
  (n = O /\ st' = st) \/
  (exists hyp, nth_error hyps (Z.to_nat j) = Some hyp /\
               snd st' = Nat.iter n (after_draw hyp) (snd st)).
Proof.
  intros Hj H. destruct n as [|n]; [left; simpl in H; ret_inv H; auto|right].
  assert (Hh : exists hyp, nth_error hyps (Z.to_nat j) = Some hyp).
  { simpl in H. bind_inv H as st1 Hb. destruct st as [[sb tt] rr].
    bind_inv Hb as hyp Hrd. apply aread_Ret in Hrd. destruct Hrd as (_ & Hrd). eauto. }
  destruct Hh as (hyp & Hh). exists hyp. split; [assumption|].
  eapply hyps_inner_rng; eauto.
Qed.

(** C8, as the code has it: in [pf_update_resample_hyps] with [nHyp]
    hypotheses, once the importance resampling has left [sample_count
    set_b] samples in the scratch set, the budget of each hypothesis is
    [min (max_samples - sample_count set_b) nParticle / nHyp], the integer
    division of C; and the injection phase makes exactly that many draws
    around each of the first [nHyp] hypotheses, in turn, whatever the map
    accepts: the generator it leaves is the one after these draws. *)
Theorem hyps_budget_and_draws pf set_b total r (mp : map_t D) nHyp hyps nParticle n st' :
  hyps_budget pf set_b nHyp nParticle = Ret n ->
  hyps_injection mp nHyp hyps n (set_b, total, r) = Ret st' ->
  n = Z.quot (Z.min (max_samples pf - sample_count set_b) nParticle) nHyp /\
  snd st' = after_draws (Z.to_nat n) (firstn (Z.to_nat nHyp) hyps) r.
Proof.
  intros Hb H. apply hyps_budget_value in Hb. destruct Hb as [_ Hn].
  split; [assumption|]. clear Hn. unfold hyps_injection in H.
  replace (Z.to_nat nHyp) with (Z.to_nat (Z.max 0 nHyp)) by lia.
  eapply (for_ind (fun j st => snd st = after_draws (Z.to_nat n) (firstn (Z.to_nat j) hyps) r));
    [exact H | reflexivity |].
  intros j t t' Hj HP Hbody. unfold for_ in Hbody. rewrite Z.sub_0_r in Hbody.
  apply hyps_inner_cases in Hbody; [|lia].
  replace (Z.to_nat (j + 1)) with (S (Z.to_nat j)) by lia.
  destruct Hbody as [[Hz ->] | (hyp & Hh & Hs)].
  - rewrite Hz, after_draws_0. rewrite Hz, after_draws_0 in HP. assumption.
  - rewrite (firstn_snoc_nth _ _ _ Hh), after_draws_snoc, Hs, HP. reflexivity.
Qed.

(** ** Cluster statistics by label *)
Lemma pf_get_cluster_stats_in_range pf clabel cl :
  (current_set pf = 0 \/ current_set pf = 1) ->
  0 <= clabel < cluster_count (current pf) ->
  nth_error (clusters (current pf)) (Z.to_nat clabel) = Some cl ->
  pf_get_cluster_stats pf clabel = Ret (1, Some (c_weight cl, c_mean cl, c_cov cl)).
Proof.
  intros Hcs Hr Hn. unfold pf_get_cluster_stats, get_set, current in *.
  destruct Hcs as [Hc|Hc]; rewrite Hc in *; simpl in *.
  - destruct (Z.leb_spec (cluster_count (set0 pf)) clabel); [lia|].
    unfold aread. destruct (Z.ltb_spec clabel 0); [lia|]. rewrite Hn. reflexivity.
  - destruct (Z.leb_spec (cluster_count (set1 pf)) clabel); [lia|].
    unfold aread. destruct (Z.ltb_spec clabel 0); [lia|]. rewrite Hn. reflexivity.
Qed.

Lemma pf_get_cluster_stats_above pf clabel :
  (current_set pf = 0 \/ current_set pf = 1) ->
  cluster_count (current pf) <= clabel ->
  pf_get_cluster_stats pf clabel = Ret (0, None).
Proof.
  intros Hcs Hr. unfold pf_get_cluster_stats, get_set, current in *.
  destruct Hcs as [Hc|Hc]; rewrite Hc in *; simpl in *.
  - destruct (Z.leb_spec (cluster_count (set0 pf)) clabel); [reflexivity|lia].
  - destruct (Z.leb_spec (cluster_count (set1 pf)) clabel); [reflexivity|lia].
Qed.

(** C9, for a negative label: when [clabel] is negative the guard
    [clabel >= set->cluster_count] of [pf_get_cluster_stats] does not
    fire, since a cluster count is never negative; the function does not
    return 0 but reads [set->clusters + clabel], outside the array. *)
Theorem pf_get_cluster_stats_negative_label pf clabel :
  (current_set pf = 0 \/ current_set pf = 1) ->
  clabel < 0 -> clabel < cluster_count (current pf) ->
  pf_get_cluster_stats pf clabel = Err OutOfBounds.
Proof.
  intros Hcs Hneg Hr. unfold pf_get_cluster_stats, get_set, current in *.
  destruct Hcs as [Hc|Hc]; rewrite Hc in *; simpl in *.
  - destruct (Z.leb_spec (cluster_count (set0 pf)) clabel); [lia|].
    unfold aread. destruct (Z.ltb_spec clabel 0); [reflexivity|lia].
  - destruct (Z.leb_spec (cluster_count (set1 pf)) clabel); [lia|].
    unfold aread. destruct (Z.ltb_spec clabel 0); [reflexivity|lia].
Qed.

(** ** The two limits *)

(** Whatever the arithmetic of the doubles, the limit is within the bounds
    of a filter whose bounds are in order. *)
Lemma pf_resample_limit_within pf k :
  min_samples pf <= max_samples pf ->
  min_samples pf <= pf_resample_limit pf k <= max_samples pf.
Proof.
  intros Hmm. unfold pf_resample_limit. destruct (Z.leb_spec k 1); [lia|].
  cbv zeta.
  match goal with
  | |- context [if ?n <? _ then _ else _] =>
      destruct (Z.ltb_spec n (min_samples pf)), (Z.leb_spec (max_samples pf) n); lia
  end.
Qed.

(** C10: for every filter and every [k],
    [pf_resample_limit_hyps(pf, k, pf->pop_z, pf->pop_err)] is
    [pf_resample_limit(pf, k)], in every arithmetic of the doubles. *)
Theorem pf_resample_limit_hyps_own_parameters pf k :
  pf_resample_limit_hyps pf k (pop_z pf) (pop_err pf) = pf_resample_limit pf k.
Proof. reflexivity. Qed.

(** ** The sensor update *)
(** In every arithmetic: when the sensor model returns a total
    [total > 0] and the set [set1] of reweighted samples,
    [pf_update_sensor] leaves the current set with the samples of [set1],
    each weight divided by [total], does not switch sets, and returns what
    its loop has added up: [pow(w, 2)] of each weight it has left. *)
Lemma pf_update_sensor_scales pf (sensor_fn : pf_sample_set_t -> D * pf_sample_set_t)
    total set1 sq pf' :
  sensor_fn (current pf) = (total, set1) ->
  d_ltb d_zero total = true ->
  pf_update_sensor pf sensor_fn = Ret (sq, pf') ->
  current_set pf' = current_set pf /\
  sample_count (current pf') = sample_count set1 /\
  live_samples (current pf') = map (scale_weight total) (live_samples set1) /\
  sq = sum_square_weights (live_samples (current pf')).
Proof.
  intros Hfn Hpos H. apply pf_update_sensor_spec in H.
  rewrite Hfn in H. cbn [fst snd] in H. unfold sensor_rule in H. rewrite Hpos in H.
  destruct H as (A & B & C & D0 & _). auto.
Qed.

Lemma pf_update_sensor_resets pf (sensor_fn : pf_sample_set_t -> D * pf_sample_set_t)
    total set1 sq pf' :
  sensor_fn (current pf) = (total, set1) ->
  d_ltb d_zero total = false ->
  pf_update_sensor pf sensor_fn = Ret (sq, pf') ->
  current_set pf' = current_set pf /\
  sample_count (current pf') = sample_count set1 /\
  live_samples (current pf')
  = map (set_weight (d_div d_one (d_of_int (sample_count set1)))) (live_samples set1) /\
  sq = sum_square_weights (live_samples (current pf')) /\
  Z.max 0 (sample_count set1) <= Z.of_nat (length (samples set1)).
Proof.
  intros Hfn Hpos H. apply pf_update_sensor_spec in H.
  rewrite Hfn in H. cbn [fst snd] in H. unfold sensor_rule in H. rewrite Hpos in H. exact H.
Qed.
(** ** Even weights, in every arithmetic *)
Lemma scaled_units (P : pf_vector_t D -> Prop) total l :
  Forall (unit_weight_in P) l ->
  Forall (fun s => weight s = d_div d_one total) (map (scale_weight total) l).
Proof.
  intros H. apply Forall_map. eapply Forall_impl; [|exact H].
  intros s [Hw _]. simpl. rewrite Hw. reflexivity.
Qed.

Lemma resampled_from_even set_a P set' : resampled_from set_a P set' -> evenly_weighted set'.
Proof.
  intros (l1 & l2 & Hl & H1 & H2 & Hc).
  exists (d_div d_one (add_ones d_zero (length (l1 ++ l2)))).
  rewrite Hl, Hc, Nat2Z.id, length_map. split; [|split; [reflexivity | right; reflexivity]].
  rewrite map_app. apply Forall_app. split; eapply scaled_units; eauto.
Qed.

Lemma resampled_by_count_even set' : resampled_by_count set' -> evenly_weighted set'.
Proof.
  intros (l & Hl & H1 & Hc).
  exists (d_div d_one (d_of_int (Z.of_nat (length l)))).
  rewrite Hl, Hc, Nat2Z.id, length_map. split; [|split; [reflexivity | left; reflexivity]].
  eapply scaled_units; eauto.
Qed.

Lemma init_with_even {St} pf (draw : St -> res (pf_vector_t D * St)) st pf' :
  init_with pf draw st = Ret pf' -> evenly_weighted (current pf').
Proof.
  intros H. apply (init_with_spec pf draw (fun _ => True)) in H; [|auto].
  destruct H as (_ & Hc & HF & Hlen).
  exists (d_div d_one (d_of_int (max_samples pf))). rewrite Hc.
  split; [|split; [|left; reflexivity]].
  - eapply Forall_impl; [|exact HF]. intros s [? _]. assumption.
  - intros Hpos. unfold live_samples. rewrite Hc. apply firstn_length_le. lia.
Qed.

Lemma run_call_even fuel pf (c : pf_call D) r pf' :
  run_call fuel pf c r = Ret pf' -> evenly_weighted (current pf').
Proof.
  intros H. destruct c; simpl in H.
  - eapply init_with_even; exact H.
  - eapply init_with_even; exact H.
  - eapply init_with_even; exact H.
  - eapply init_with_even; exact H.
  - apply pf_update_resample_spec in H. destruct H as (_ & _ & H).
    eapply resampled_from_even; eauto.
  - apply pf_update_resample_map_spec in H. destruct H as (_ & _ & H).
    eapply resampled_from_even; eauto.
  - apply pf_update_resample_addParticle_spec in H. destruct H as (_ & _ & H).
    eapply resampled_from_even; eauto.
  - apply pf_update_resample_hyps_spec in H. destruct H as (_ & _ & H).
    eapply resampled_from_even; eauto.
  - apply pf_update_resample_hyps_2_spec in H. destruct H as (_ & _ & H).
    apply resampled_by_count_even; assumption.
  - apply pf_update_resample_hyps_3_spec in H. destruct H as (_ & _ & H).
    apply resampled_by_count_even; assumption.
Qed.
(** ** The calls return *)
Lemma aread_in_range {A} (l : list A) i :
  0 <= i < Z.of_nat (length l) -> exists a, aread l i = Ret a.
Proof.
  intros Hi. unfold aread. destruct (Z.ltb_spec i 0); [lia|].
  destruct (nth_error l (Z.to_nat i)) eqn:Hn; [eauto|].
  apply nth_error_None in Hn. lia.
Qed.

Lemma awrite_in_range {A} (l : list A) i a :
  0 <= i < Z.of_nat (length l) -> awrite l i a = Ret (upd l (Z.to_nat i) a).
Proof.
  intros Hi. unfold awrite.
  destruct (Z.leb_spec 0 i); [|lia]. destruct (Z.ltb_spec i (Z.of_nat (length l))); [|lia].
  reflexivity.
Qed.

Lemma bind_returns {A B} (m : res A) (k : A -> res B) a :
  m = Ret a -> (exists b, k a = Ret b) -> exists b, bind m k = Ret b.
Proof. intros -> H. exact H. Qed.

Lemma for_loop_returns {St} (I : Z -> St -> Prop) (body : Z -> St -> res St) n :
  forall i s,
    I i s ->
    (forall j t, i <= j < i + Z.of_nat n -> I j t -> exists t', body j t = Ret t' /\ I (j + 1) t') ->
    exists s', for_loop n i body s = Ret s' /\ I (i + Z.of_nat n) s'.
Proof.
  induction n as [|n IH]; intros i s HI Hstep.
  - exists s. split; [reflexivity|]. replace (i + Z.of_nat 0) with i by lia. assumption.
  - destruct (Hstep i s ltac:(lia) HI) as (t' & Hb & HI').
    destruct (IH (i + 1) t' HI') as (s' & Hl & HI'').
    + intros j t Hj. apply Hstep. lia.
    + exists s'. split; [simpl; rewrite Hb; simpl; assumption|].
      replace (i + Z.of_nat (S n)) with (i + 1 + Z.of_nat n) by lia. assumption.
Qed.

Lemma for_returns {St} (I : Z -> St -> Prop) lo hi (body : Z -> St -> res St) s :
  I lo s ->
  (forall j t, lo <= j < hi -> I j t -> exists t', body j t = Ret t' /\ I (j + 1) t') ->
  exists s', for_ lo hi body s = Ret s' /\ I (Z.max lo hi) s'.
Proof.
  intros HI Hstep. unfold for_.
  replace (Z.max lo hi) with (lo + Z.of_nat (Z.to_nat (hi - lo))) by lia.
  apply for_loop_returns; [assumption|]. intros j t Hj. apply Hstep. lia.
Qed.

Lemma pf_cluster_stats_returns set :
  cluster_max_count set <= Z.of_nat (length (clusters set)) ->
  sample_count set <= Z.of_nat (length (samples set)) ->
  labelled set ->
  exists set', pf_cluster_stats set = Ret set'.
Proof.
  intros HM HN Hlab. unfold pf_cluster_stats.
  set (k := pf_kdtree_cluster (kdtree set)).
  set (M := cluster_max_count set). set (L := length (clusters set)).
  set (inv := fun (C : Z -> Prop) (t : pf_sample_set_t) =>
                length (clusters t) = L /\ cluster_max_count t = M /\
                samples t = samples set /\ sample_count t = sample_count set /\
                kdtree t = k /\ C (cluster_count t)).
  destruct (for_returns (fun _ => inv (fun c => c = 0)) 0 M
              (fun i t => cl <- awrite (clusters t) i cluster_zero ;; Ret (with_clusters t cl))
              (with_cluster_count (with_kdtree set k) 0)) as (s1 & H1 & I1).
  { unfold inv. simpl. auto 10. }
  { intros j t Hj (A & B & C & D0 & F & G).
    rewrite awrite_in_range by lia. simpl. eexists. split; [reflexivity|].
    unfold inv. simpl. rewrite upd_length. auto 10. }
  apply (bind_returns _ _ s1 H1).
  destruct (for_returns (fun j t => inv (fun c => 0 <= c <= Z.max 0 M) t) 0 (sample_count s1)
              (fun i t =>
                 sample <- aread (samples t) i ;;
                 let c := pf_kdtree_get_cluster (kdtree t) (pose sample) in
                 _ <- assert_ (0 <=? c) ;;
                 if cluster_max_count t <=? c then Ret t
                 else
                   let t := if cluster_count t <? c + 1
                            then with_cluster_count t (c + 1) else t in
                   cluster <- aread (clusters t) c ;;
                   cl <- awrite (clusters t) c (cluster_add cluster sample) ;;
                   Ret (with_clusters t cl)) s1) as (s2 & H2 & I2).
  { destruct I1 as (A & B & C & D0 & F & G). unfold inv. rewrite G. repeat split; auto; lia. }
  { destruct I1 as (_ & _ & _ & Hc1 & _ & _).
    intros j t Hj (A & B & C & D0 & F & G).
    destruct (aread_in_range (samples t) j) as (sample & Hrd); [rewrite C; lia|].
    rewrite Hrd. simpl.
    assert (Hin : In sample (live_samples set)).
    { apply aread_Ret in Hrd. destruct Hrd as (_ & Hn). rewrite C in Hn.
      unfold live_samples.
      rewrite <- (firstn_skipn (Z.to_nat (sample_count set)) (samples set)) in Hn.
      rewrite nth_error_app1 in Hn; [eapply nth_error_In; eauto|].
      rewrite firstn_length_le; lia. }
    specialize (Hlab sample Hin). fold k in Hlab. rewrite F.
    unfold assert_. destruct (Z.leb_spec 0 (pf_kdtree_get_cluster k (pose sample))); [|lia].
    simpl. rewrite B.
    destruct (Z.leb_spec M (pf_kdtree_get_cluster k (pose sample))).
    - eexists. split; [reflexivity|]. unfold inv. auto 10.
    - set (c := pf_kdtree_get_cluster k (pose sample)) in *.
      set (t1 := if cluster_count t <? c + 1 then with_cluster_count t (c + 1) else t).
      assert (Ht1 : length (clusters t1) = L /\ cluster_max_count t1 = M /\
                    samples t1 = samples set /\ sample_count t1 = sample_count set /\
                    kdtree t1 = k /\ 0 <= cluster_count t1 <= Z.max 0 M).
      { unfold t1. destruct (Z.ltb_spec (cluster_count t) (c + 1)); simpl; repeat split; auto; lia. }
      destruct Ht1 as (A1 & B1 & C1 & D1 & F1 & G1).
      destruct (aread_in_range (clusters t1) c) as (cluster & Hrc); [lia|].
      rewrite Hrc. simpl. rewrite awrite_in_range by lia. simpl.
      eexists. split; [reflexivity|]. unfold inv. simpl. rewrite upd_length. auto 10. }
  apply (bind_returns _ _ s2 H2).
  destruct I2 as (A2 & B2 & C2 & D2 & F2 & G2).
  destruct (for_returns (fun j t => length (clusters t) = L) 0 (cluster_count s2)
              (fun i t =>
                 cluster <- aread (clusters t) i ;;
                 cl <- awrite (clusters t) i (cluster_normalize cluster) ;;
                 Ret (with_clusters t cl)) s2) as (s3 & H3 & _).
  { assumption. }
  { intros j t Hj Hlen.
    destruct (aread_in_range (clusters t) j) as (cluster & Hrc); [lia|].
    rewrite Hrc. simpl. rewrite awrite_in_range by lia. simpl.
    eexists. split; [reflexivity|]. simpl. rewrite upd_length. assumption. }
  eauto.
Qed.

Lemma get_set_current pf :
  (current_set pf = 0 \/ current_set pf = 1) -> get_set pf (current_set pf) = Ret (current pf).
Proof. intros [Hc|Hc]; unfold get_set, current; rewrite Hc; reflexivity. Qed.

Lemma refilled_snoc (kd : kdtree_t) (w : D) (l : list (pf_vector_t D)) p :
  refilled kd w (l ++ [p]) = pf_kdtree_insert (refilled kd w l) p w.
Proof. unfold refilled. rewrite fold_left_app. reflexivity. Qed.

Lemma labels_poses_le (kd : kdtree_t) n m : m <= n -> labels_poses kd n -> labels_poses kd m.
Proof. intros Hm H w l Hl. apply H. lia. Qed.

Lemma init_with_returns {St} pf (draw : St -> res (pf_vector_t D * St)) st :
  (current_set pf = 0 \/ current_set pf = 1) ->
  max_samples pf <= Z.of_nat (length (samples (current pf))) ->
  cluster_max_count (current pf) <= Z.of_nat (length (clusters (current pf))) ->
  (forall s, exists p s', draw s = Ret (p, s')) ->
  labels_poses (kdtree (current pf)) (max_samples pf) ->
  exists pf', init_with pf draw st = Ret pf'.
Proof.
  intros Hcs Hmax Hcl Hdraw Hlab. unfold init_with.
  apply (bind_returns _ _ _ (get_set_current pf Hcs)). cbv beta.
  set (w := d_div d_one (d_of_int (max_samples pf))).
  set (s0 := with_sample_count (with_kdtree (current pf) _) (max_samples pf)).
  destruct (for_returns
              (fun j (t : pf_sample_set_t * St) =>
                 length (samples (fst t)) = length (samples (current pf)) /\
                 sample_count (fst t) = max_samples pf /\
                 cluster_max_count (fst t) = cluster_max_count (current pf) /\
                 clusters (fst t) = clusters (current pf) /\
                 kdtree (fst t)
                 = refilled (kdtree (current pf)) w
                     (map pose (firstn (Z.to_nat j) (samples (fst t)))))
              0 (sample_count s0)
              (fun i '(set, st) =>
                 let w := d_div d_one (d_of_int (max_samples pf)) in
                 '(p, st) <- draw st ;;
                 l <- awrite (samples set) i (mk_sample p w) ;;
                 Ret (with_kdtree (with_samples set l) (pf_kdtree_insert (kdtree set) p w), st))
              (s0, st)) as ([s1 st1] & H1 & I1).
  { simpl. auto 10. }
  { intros j [t tst] Hj (A & B & C & F & K). simpl in A, B, C, F, K. simpl in Hj.
    destruct (Hdraw tst) as (p & tst' & Hd). rewrite Hd. cbn [bind].
    rewrite awrite_in_range by lia. cbn [bind].
    eexists. split; [reflexivity|].
    cbn [fst samples sample_count cluster_max_count clusters kdtree with_kdtree with_samples].
    rewrite upd_length. repeat (split; [assumption|]).
    replace (Z.to_nat (j + 1)) with (S (Z.to_nat j)) by lia.
    rewrite firstn_upd_snoc by lia. rewrite map_app. cbn [map pose].
    rewrite refilled_snoc, K. reflexivity. }
  unfold init_samples. apply (bind_returns _ _ _ H1). cbv beta iota.
  simpl in I1. destruct I1 as (A & B & C & F & K).
  destruct (pf_cluster_stats_returns s1) as (s2 & H2).
  - rewrite C, F. assumption.
  - rewrite A, B. assumption.
  - intros s Hin. rewrite K.
    assert (Hlive : firstn (Z.to_nat (Z.max 0 (max_samples pf))) (samples s1) = live_samples s1).
    { unfold live_samples. rewrite B. f_equal. lia. }
    rewrite Hlive. apply Hlab.
    + rewrite length_map. unfold live_samples. rewrite length_firstn, B.
      destruct (live_samples s1) eqn:Hnil; [destruct Hin|]. 
      unfold live_samples in Hnil. rewrite B in Hnil.
      destruct (Z.to_nat (max_samples pf)) eqn:Hz; [discriminate Hnil|]. lia.
    + apply in_map. assumption.
  - apply (bind_returns _ _ _ H2). eauto.
Qed.

Lemma pf_update_sensor_returns pf (sensor_fn : pf_sample_set_t -> D * pf_sample_set_t) :
  (current_set pf = 0 \/ current_set pf = 1) ->
  sample_count (snd (sensor_fn (current pf)))
  <= Z.of_nat (length (samples (snd (sensor_fn (current pf))))) ->
  exists sq pf', pf_update_sensor pf sensor_fn = Ret (sq, pf').
Proof.
  intros Hcs Hn.
  enough (Hex : exists b, pf_update_sensor pf sensor_fn = Ret b)
    by (destruct Hex as [[sq pf'] Hb]; eauto).
  unfold pf_update_sensor.
  rewrite (get_set_current pf Hcs). cbn [bind].
  destruct (sensor_fn (current pf)) as [total set1]. simpl in Hn.
  assert (Hloop : forall g : pf_sample_set_t -> pf_sample_t D -> D,
             exists st',
               for_ 0 (sample_count set1)
                 (fun i '(set, sq) =>
                    sample <- aread (samples set) i ;;
                    l <- awrite (samples set) i (mk_sample (pose sample) (g set sample)) ;;
                    Ret (with_samples set l, d_add sq (d_pow2 (g set sample))))
                 (set1, d_zero) = Ret st').
  { intros g.
    destruct (for_returns
                (fun _ (t : pf_sample_set_t * D) =>
                   length (samples (fst t)) = length (samples set1))
                0 (sample_count set1)
                (fun i '(set, sq) =>
                   sample <- aread (samples set) i ;;
                   l <- awrite (samples set) i (mk_sample (pose sample) (g set sample)) ;;
                   Ret (with_samples set l, d_add sq (d_pow2 (g set sample))))
                (set1, d_zero)) as (st' & H & _); [reflexivity | | eauto].
    intros j [t sq] Hj A. simpl in A.
    destruct (aread_in_range (samples t) j) as (sample & Hrd); [lia|].
    rewrite Hrd. cbn [bind]. rewrite awrite_in_range by lia. cbn [bind].
    eexists. split; [reflexivity|]. simpl. rewrite upd_length. assumption. }
  destruct (d_ltb d_zero total).
  - destruct (Hloop (fun _ sample => d_div (weight sample) total)) as ([s2 sq] & H).
    apply (bind_returns _ _ _ H). eauto.
  - destruct (Hloop (fun set _ => d_div d_one (d_of_int (sample_count set)))) as ([s2 sq] & H).
    apply (bind_returns _ _ _ H). eauto.
Qed.

End Generic.

(* ================================================================== *)

Section Real.
Context {E : Env R}.
Implicit Types (pf : @pf_t R E) (set : @pf_sample_set_t R E).
Local Open Scope R_scope.

Lemma add_ones_real (n : nat) : add_ones (D := R) 0 n = INR n.
Proof.
  induction n as [|n IH]; [reflexivity|].
  change (add_ones (D := R) 0 (S n)) with (add_ones (D := R) 0 n + 1).
  rewrite IH, S_INR. reflexivity.
Qed.

Lemma sum_weights_from (l : list (pf_sample_t R)) (acc : R) :
  fold_left (fun a s => d_add a (weight s)) l acc = acc + sum_weights l.
Proof.
  unfold sum_weights. revert acc. induction l as [|s l IH]; intros acc; cbn [fold_left].
  - unfold d_zero; simpl. lra.
  - rewrite IH. rewrite (IH (d_add d_zero (weight s))).
    generalize (fold_left (fun a s0 => d_add a (weight s0)) l d_zero). intros F.
    unfold d_zero; simpl. lra.
Qed.

Lemma sum_weights_const (l : list (pf_sample_t R)) (w : R) :
  Forall (fun s => weight s = w) l -> sum_weights l = INR (length l) * w.
Proof.
  induction 1 as [|s l Hs Hl IH].
  - unfold sum_weights, d_zero; simpl. lra.
  - unfold sum_weights. cbn [fold_left]. rewrite sum_weights_from, IH, Hs.
    change (length (s :: l)) with (S (length l)). rewrite S_INR.
    unfold d_zero; simpl. lra.
Qed.

Lemma sum_square_from (l : list (pf_sample_t R)) (acc : R) :
  fold_left (fun a s => d_add a (d_pow2 (weight s))) l acc = acc + sum_square_weights l.
Proof.
  unfold sum_square_weights. revert acc. induction l as [|s l IH]; intros acc; cbn [fold_left].
  - unfold d_zero; simpl. lra.
  - rewrite IH. rewrite (IH (d_add d_zero _)).
    generalize (fold_left (fun a s0 => d_add a (d_pow2 (weight s0))) l d_zero). intros F.
    unfold d_zero; simpl. lra.
Qed.

Lemma sum_square_const (l : list (pf_sample_t R)) (w : R) :
  Forall (fun s => weight s = w) l -> sum_square_weights l = INR (length l) * (w * w).
Proof.
  induction 1 as [|s l Hs Hl IH].
  - unfold sum_square_weights, d_zero; simpl. lra.
  - unfold sum_square_weights. cbn [fold_left]. rewrite sum_square_from, IH, Hs.
    change (length (s :: l)) with (S (length l)). rewrite S_INR.
    unfold d_zero; simpl. lra.
Qed.

Lemma even_weight_real set w :
  (0 < sample_count set)%Z ->
  (w = d_div d_one (d_of_int (sample_count set)) \/
   w = d_div d_one (add_ones d_zero (Z.to_nat (sample_count set)))) ->
  w = 1 / IZR (sample_count set).
Proof.
  intros Hpos [-> | ->]; [reflexivity|].
  rewrite add_ones_real, INR_IZR_INZ, Z2Nat.id by lia. reflexivity.
Qed.

(** C1, for a set that is not empty: after any initialisation or
    resampling operation returns, for every map, callback and generator,
    if the resulting current set holds at least one sample then every
    weight in it is nonnegative and the weights sum to 1, exactly, in real
    arithmetic. *)
Theorem weights_normalized fuel pf (c : pf_call R) r pf' :
  run_call fuel pf c r = Ret pf' ->
  (0 < sample_count (current pf'))%Z ->
  Forall (fun s => 0 <= weight s) (live_samples (current pf')) /\
  sum_weights (live_samples (current pf')) = 1.
Proof.
  intros H Hpos. apply run_call_even in H. destruct H as (w & HF & Hlen & Hw).
  apply even_weight_real in Hw; [|assumption]. specialize (Hlen Hpos).
  assert (Hn : 0 < IZR (sample_count (current pf'))) by (apply IZR_lt; assumption).
  split.
  - eapply Forall_impl; [|exact HF]. intros s ->. rewrite Hw.
    apply Rlt_le, Rdiv_lt_0_compat; lra.
  - rewrite (sum_weights_const _ w HF), Hlen, INR_IZR_INZ, Z2Nat.id, Hw by lia.
    field. lra.
Qed.

Lemma R_ltb_irrefl (x : R) : R_ltb x x = false.
Proof. unfold R_ltb. destruct (Rlt_dec x x); [lra | reflexivity]. Qed.

Lemma R_ltb_true (x y : R) : x < y -> R_ltb x y = true.
Proof. intros H. unfold R_ltb. destruct (Rlt_dec x y); [reflexivity | contradiction]. Qed.

Lemma sum_of_equal_squares (l : list (pf_sample_t R)) (w : R) :
  Forall (fun s => weight s = w) l ->
  fold_left (fun acc s => acc + weight s * weight s) l 0 = INR (length l) * (w * w).
Proof. apply sum_square_const. Qed.

(** C4, in real arithmetic: when the sensor model returns the total 0 and
    leaves a set [set1] of [n > 0] samples, [pf_update_sensor] does not
    switch sets, keeps the samples of [set1] with every weight set to
    [1 / n], and returns the sum of the squares [w * w] of these weights,
    which is [1 / n]. *)
Theorem pf_update_sensor_zero_total pf (sensor_fn : pf_sample_set_t -> R * pf_sample_set_t)
    set1 sq pf' :
  sensor_fn (current pf) = (0, set1) ->
  (0 < sample_count set1)%Z ->
  pf_update_sensor pf sensor_fn = Ret (sq, pf') ->
  current_set pf' = current_set pf /\
  sample_count (current pf') = sample_count set1 /\
  live_samples (current pf')
  = map (fun s => mk_sample (pose s) (1 / IZR (sample_count set1))) (live_samples set1) /\
  length (live_samples (current pf')) = Z.to_nat (sample_count set1) /\
  sq = fold_left (fun acc s => acc + weight s * weight s) (live_samples (current pf')) 0 /\
  sq = 1 / IZR (sample_count set1).
Proof.
  intros Hfn Hpos H.
  apply (pf_update_sensor_resets pf sensor_fn 0 set1) in H;
    [|assumption | apply R_ltb_irrefl].
  destruct H as (Hcs & Hc & Hl & Hsq & Hlen).
  assert (HF : Forall (fun s => weight s = 1 / IZR (sample_count set1))
                      (live_samples (current pf'))).
  { rewrite Hl. apply Forall_map. apply Forall_forall. intros s _. reflexivity. }
  assert (HL : length (live_samples (current pf')) = Z.to_nat (sample_count set1)).
  { rewrite Hl, length_map. unfold live_samples. apply firstn_length_le. lia. }
  split; [assumption|]. split; [assumption|]. split; [exact Hl|]. split; [assumption|].
  split; [exact Hsq|].
  rewrite Hsq. change (sum_square_weights (live_samples (current pf')))
    with (fold_left (fun acc s => acc + weight s * weight s) (live_samples (current pf')) 0).
  rewrite (sum_of_equal_squares _ _ HF), HL, INR_IZR_INZ, Z2Nat.id by lia.
  assert (0 < IZR (sample_count set1)) by (apply IZR_lt; assumption).
  field. lra.
Qed.

(** C5, in real arithmetic: when the sensor model returns a total
    [total > 0] and leaves the set [set1], [pf_update_sensor] does not
    switch sets, keeps the samples of [set1] with each weight divided by
    [total], and returns the sum of the squares [w * w] of the weights it
    has left, added in the order of the array. *)
Theorem pf_update_sensor_normalizes pf (sensor_fn : pf_sample_set_t -> R * pf_sample_set_t)
    total set1 sq pf' :
  sensor_fn (current pf) = (total, set1) ->
  0 < total ->
  pf_update_sensor pf sensor_fn = Ret (sq, pf') ->
  current_set pf' = current_set pf /\
  sample_count (current pf') = sample_count set1 /\
  live_samples (current pf')
  = map (fun s => mk_sample (pose s) (weight s / total)) (live_samples set1) /\
  sq = fold_left (fun acc s => acc + weight s * weight s) (live_samples (current pf')) 0.
Proof.
  intros Hfn Hpos H.
  apply (pf_update_sensor_scales pf sensor_fn total set1) in H;
    [|assumption | apply R_ltb_true; assumption].
  exact H.
Qed.
End Real.

(* ================================================================== *)
(** * The KLD limit in real arithmetic *)
(* ================================================================== *)

Section RealFacts.
Local Open Scope R_scope.

Lemma cubic_margin t : 0 <= t <= 1/2 -> 0 <= 4 - 13*t + 14*t*t - 3*t*t*t.
Proof. intros H. nra. Qed.

Lemma F_nonneg z t d : 0 <= z <= 6 -> 0 < t -> 0 <= d -> t + d <= 1/2 -> 0 < z - 2*t - d ->
  0 <= 2 * (1 + t * (t + d)) * (1 - t*t + z*t) - t * (1 - (t+d)*(t+d) + z*(t+d)) * (z - 2*t - d).
Proof.
  intros Hz Ht Hd Htd Hu.
  set (P := 1 - t*t + z*t). set (u := z - 2*t - d).
  assert (HP : 0 < P) by (unfold P; nra).
  assert (E : 2 * (1 + t * (t + d)) * P - t * (1 - (t+d)*(t+d) + z*(t+d)) * u
              = P * (2 + 4*t*t - z*t) + t * d * (3 * P - u*u)) by (unfold P, u; ring).
  rewrite E.
  assert (S1 : 4 * d * (1 - t) <= 2 + 4*t*t - z*t) by nra.
  assert (S3 : t * (u * u) <= (4 - t) * P).
  { assert (t * (u*u) <= t * ((z - 2*t) * (6 - 2*t))).
    { apply Rmult_le_compat_l; [lra|]. unfold u. nra. }
    assert (t * ((z - 2*t) * (6 - 2*t)) <= (4 - t) * P).
    { pose proof (cubic_margin t ltac:(lra)). unfold P. nra. }
    lra. }
  assert (S2 : P * (4 * d * (1 - t)) <= P * (2 + 4*t*t - z*t)) by (apply Rmult_le_compat_l; lra).
  assert (0 <= d * ((4 - t) * P - t * (u*u))) by (apply Rmult_le_pos; lra).
  nra.
Qed.

(** p1^3 t2^2 <= p2^3 t1^2 *)
Lemma kld_core z t1 t2 : 0 <= z <= 6 -> 0 < t2 <= t1 -> t1 <= 1/2 ->
  (1 - t1*t1 + z*t1) * (1 - t1*t1 + z*t1) * (1 - t1*t1 + z*t1) * (t2 * t2)
  <= (1 - t2*t2 + z*t2) * (1 - t2*t2 + z*t2) * (1 - t2*t2 + z*t2) * (t1 * t1).
Proof.
  intros Hz Ht Ht1.
  set (p1 := 1 - t1*t1 + z*t1). set (p2 := 1 - t2*t2 + z*t2).
  assert (Hp1 : 0 < p1) by (unfold p1; nra).
  assert (Hp2 : 0 < p2) by (unfold p2; nra).
  set (A := t1 * p2). set (B := t2 * p1).
  assert (HAB : A - B = (t1 - t2) * (1 + t1 * t2)) by (unfold A, B, p1, p2; ring).
  assert (HB : 0 < B) by (unfold B; apply Rmult_lt_0_compat; lra).
  assert (HBA : B <= A).
  { assert (0 <= (t1 - t2) * (1 + t1 * t2)) by (apply Rmult_le_pos; nra). lra. }
  replace (p1 * p1 * p1 * (t2 * t2)) with (B * B * p1) by (unfold B; ring).
  replace (p2 * p2 * p2 * (t1 * t1)) with (A * A * p2) by (unfold A; ring).
  destruct (Rle_dec p1 p2) as [Hle | Hgt].
  - assert (B * B <= A * A) by nra.
    assert (B * B * p1 <= A * A * p1) by (apply Rmult_le_compat_r; lra).
    assert (A * A * p1 <= A * A * p2) by (apply Rmult_le_compat_l; nra).
    lra.
  - assert (Hgt' : p2 < p1) by lra.
    set (d := t1 - t2). set (u := z - 2 * t2 - d).
    assert (Hpu : p1 - p2 = d * u) by (unfold p1, p2, u, d; ring).
    assert (Hd : 0 < d).
    { unfold d. destruct (Req_dec t1 t2) as [e|ne]; [|lra].
      exfalso. unfold p1, p2 in Hgt'. rewrite e in Hgt'. lra. }
    assert (Hu : 0 < u).
    { destruct (Rlt_dec 0 u); [assumption|]. exfalso.
      assert (d * u <= 0) by nra. lra. }
    pose proof (F_nonneg z t2 d Hz ltac:(lra) ltac:(lra) ltac:(unfold d; lra) Hu) as HF.
    replace (t2 + d) with t1 in HF by (unfold d; ring).
    fold p1 p2 in HF. fold u in HF.
    (* A^2 p2 - B^2 p1 = d [ (1 + t1 t2)(A + B) p2 - B^2 u ] *)
    assert (HE : A * A * p2 - B * B * p1 = d * ((1 + t1*t2) * (A + B) * p2 - B * B * u)).
    { replace (A * A * p2 - B * B * p1) with ((A - B) * (A + B) * p2 - B * B * (p1 - p2)) by ring.
      rewrite HAB, Hpu. unfold d. ring. }
    assert (HBu : B * B * u <= (A + B) * (B * u / 2)).
    { assert (0 <= B * u) by nra. nra. }
    assert (HF2 : B * u / 2 <= (1 + t1 * t2) * p2).
    { unfold B. lra. }
    assert (0 <= (1 + t1*t2) * (A + B) * p2 - B * B * u).
    { assert ((A + B) * (B * u / 2) <= (A + B) * ((1 + t1 * t2) * p2)).
      { apply Rmult_le_compat_l; lra. }
      lra. }
    assert (0 <= d * ((1 + t1*t2) * (A + B) * p2 - B * B * u)) by (apply Rmult_le_pos; lra).
    lra.
Qed.

Lemma R_to_int_IZR (n : Z) : R_to_int (IZR n) = n.
Proof.
  unfold R_to_int. destruct (Rle_dec 0 (IZR n)).
  - apply ZfloorZ.
  - apply Zceil_eq. lra.
Qed.

Lemma sqrt_of_square (x y : R) : 0 <= y -> x = y * y -> sqrt x = y.
Proof. intros Hy ->. apply sqrt_square. assumption. Qed.

Lemma int_of_integral_fits (t : Z) :
  (INT_MIN <= t <= INT_MAX)%Z -> int_of_integral t = t.
Proof.
  intros H. unfold int_of_integral.
  destruct (Z.leb_spec INT_MIN t); [|lia]. destruct (Z.leb_spec t INT_MAX); [|lia].
  reflexivity.
Qed.

Lemma int_of_integral_outside (t : Z) :
  (t < INT_MIN \/ INT_MAX < t)%Z -> int_of_integral t = INT_MIN.
Proof.
  intros H. unfold int_of_integral.
  destruct (Z.leb_spec INT_MIN t); [|reflexivity].
  destruct (Z.leb_spec t INT_MAX); [lia | reflexivity].
Qed.

Lemma int_of_integral_mono (t1 t2 : Z) :
  (t1 <= t2 <= INT_MAX)%Z -> (int_of_integral t1 <= int_of_integral t2)%Z.
Proof.
  intros H. unfold int_of_integral.
  destruct (Z.leb_spec INT_MIN t1), (Z.leb_spec t1 INT_MAX),
           (Z.leb_spec INT_MIN t2), (Z.leb_spec t2 INT_MAX); cbn [andb]; lia.
Qed.

Lemma R_to_int32_IZR (n : Z) : R_to_int32 (IZR n) = int_of_integral n.
Proof. unfold R_to_int32. rewrite R_to_int_IZR. reflexivity. Qed.
End RealFacts.

Section RealLimit.
Context {E : Env R}.
Implicit Types (pf : @pf_t R E) (k : Z).
#[local] Existing Instance RealIntOps | 0.
Local Open Scope R_scope.

(** In this section the doubles are the real numbers and [(int) x] is the
    conversion of the machine, [R_to_int32]. *)
Lemma pf_resample_limit_int pf k :
  pf_resample_limit pf k =
  if (k <=? 1)%Z then min_samples pf
  else clamp (min_samples pf) (max_samples pf)
             (int_of_integral (kld_ceiling (pop_z pf) (pop_err pf) k)).
Proof.
  unfold pf_resample_limit, clamp, kld_ceiling, kld_value.
  cbn [d_of_int d_div d_mul d_sub d_add d_sqrt d_to_int d_ceil RealIntOps].
  rewrite R_to_int32_IZR. reflexivity.
Qed.

Lemma kld_value_mono z e k1 k2 :
  0 < e -> 0 <= z <= 6 -> (2 <= k1 <= k2)%Z ->
  kld_value z e k1 <= kld_value z e k2.
Proof.
  intros He Hz Hk. unfold kld_value.
  rewrite !minus_IZR.
  assert (Hy1 : 1 <= IZR k1 - 1) by (assert (2 <= IZR k1) by (apply IZR_le; lia); lra).
  assert (Hy12 : IZR k1 - 1 <= IZR k2 - 1) by (assert (IZR k1 <= IZR k2) by (apply IZR_le; lia); lra).
  set (y1 := IZR k1 - 1) in *. set (y2 := IZR k2 - 1) in *.
  set (b1 := 2 / (9 * y1)). set (b2 := 2 / (9 * y2)).
  assert (Hb1 : 0 < b1 <= 2/9).
  { unfold b1. split.
    - apply Rdiv_lt_0_compat; lra.
    - apply Rmult_le_reg_r with (9 * y1); [lra|]. field_simplify; lra. }
  assert (Hb2 : 0 < b2 <= b1).
  { unfold b2, b1. split.
    - apply Rdiv_lt_0_compat; lra.
    - apply Rmult_le_compat_l; [lra|]. apply Rinv_le_contravar; lra. }
  assert (Hyb1 : y1 * b1 = 2/9) by (unfold b1; field; lra).
  assert (Hyb2 : y2 * b2 = 2/9) by (unfold b2; field; lra).
  set (t1 := sqrt b1). set (t2 := sqrt b2).
  assert (Ht1 : t1 * t1 = b1) by (apply sqrt_sqrt; lra).
  assert (Ht2 : t2 * t2 = b2) by (apply sqrt_sqrt; lra).
  assert (Ht2p : 0 < t2) by (apply sqrt_lt_R0; lra).
  assert (Ht21 : t2 <= t1) by (apply sqrt_le_1_alt; lra).
  assert (Ht1h : t1 <= 1/2).
  { destruct (Rle_dec t1 (1/2)); [assumption|]. exfalso. nra. }
  pose proof (kld_core z t1 t2 Hz (conj Ht2p Ht21) Ht1h) as Hc.
  rewrite Ht1, Ht2 in Hc.
  set (p1 := 1 - b1 + t1 * z). set (p2 := 1 - b2 + t2 * z).
  replace (1 - b1 + z * t1) with p1 in Hc by (unfold p1; ring).
  replace (1 - b2 + z * t2) with p2 in Hc by (unfold p2; ring).
  assert (Hq : y1 * (p1 * p1 * p1) <= y2 * (p2 * p2 * p2)).
  { assert (H1 : y1 * y2 * (p1 * p1 * p1 * b2) <= y1 * y2 * (p2 * p2 * p2 * b1)).
    { apply Rmult_le_compat_l; [nra|assumption]. }
    replace (y1 * y2 * (p1 * p1 * p1 * b2)) with (y1 * (p1*p1*p1) * (y2 * b2)) in H1 by ring.
    replace (y1 * y2 * (p2 * p2 * p2 * b1)) with (y2 * (p2*p2*p2) * (y1 * b1)) in H1 by ring.
    rewrite Hyb1, Hyb2 in H1. lra. }
  replace (y1 / (2 * e) * p1 * p1 * p1) with (y1 * (p1 * p1 * p1) * / (2 * e)) by (field; lra).
  replace (y2 / (2 * e) * p2 * p2 * p2) with (y2 * (p2 * p2 * p2) * / (2 * e)) by (field; lra).
  apply Rmult_le_compat_r; [|assumption].
  apply Rlt_le, Rinv_0_lt_compat. lra.
Qed.

Lemma clamp_mono lo hi n1 n2 : (lo <= hi -> n1 <= n2 -> clamp lo hi n1 <= clamp lo hi n2)%Z.
Proof.
  unfold clamp. intros.
  destruct (Z.ltb_spec n1 lo), (Z.ltb_spec n2 lo), (Z.leb_spec hi n1), (Z.leb_spec hi n2); lia.
Qed.

Lemma clamp_bounds lo hi n : (lo <= hi -> lo <= clamp lo hi n <= hi)%Z.
Proof.
  unfold clamp. intros.
  destruct (Z.ltb_spec n lo), (Z.leb_spec hi n); lia.
Qed.


End RealLimit.

(** ** The scripted histogram labels what it holds *)
Section HistogramFacts.
Context {D : Type} {ops : DoubleOps D}.

Lemma key_eqb_eq (a b : Z * Z * Z) : key_eqb a b = true <-> a = b.
Proof.
  destruct a as [[a0 a1] a2], b as [[b0 b1] b2]. unfold key_eqb.
  rewrite !andb_true_iff, !Z.eqb_eq. split.
  - intros [[-> ->] ->]. reflexivity.
  - intros H. injection H as -> -> ->. auto.
Qed.

Lemma add_to_leaf_Some (l : list (@leaf D)) k w :
  forall l', add_to_leaf l k w = Some l' ->
             map key l' = map key l /\ In k (map key l) /\ length l' = length l.
Proof.
  induction l as [|lf l IH]; intros l' H; cbn [add_to_leaf] in H; [discriminate|].
  destruct (key_eqb (key lf) k) eqn:He.
  - injection H as <-. cbn [map key length]. split; [reflexivity|].
    split; [left; apply key_eqb_eq; assumption | reflexivity].
  - destruct (add_to_leaf l k w) as [l1|] eqn:Hl; cbn [option_map] in H; [|discriminate].
    injection H as <-. destruct (IH l1 eq_refl) as (A & B & C). cbn [map length].
    split; [f_equal; assumption|]. split; [right; assumption | f_equal; assumption].
Qed.

Lemma histogram_insert_keys (h : @histogram D) p w :
  node_max_count (histogram_insert h p w) = node_max_count h /\
  incl (map key (leaves h)) (map key (leaves (histogram_insert h p w))) /\
  (length (leaves (histogram_insert h p w)) <= S (length (leaves h)))%nat /\
  (2 * (Z.of_nat (length (leaves h)) + 1) - 1 <= node_max_count h ->
   In (bucket_of p) (map key (leaves (histogram_insert h p w)))).
Proof.
  unfold histogram_insert.
  destruct (add_to_leaf (leaves h) (bucket_of p) w) as [l|] eqn:Ha.
  - apply add_to_leaf_Some in Ha. destruct Ha as (A & B & C).
    cbn [node_max_count leaves]. rewrite A, C.
    split; [reflexivity|]. split; [apply incl_refl|]. split; [lia | auto].
  - destruct (Z.leb_spec (2 * (Z.of_nat (length (leaves h)) + 1) - 1) (node_max_count h)).
    + cbn [node_max_count leaves]. rewrite map_app, length_app. cbn [map key length].
      split; [reflexivity|]. split; [apply incl_appl, incl_refl|]. split; [lia|].
      intros _. apply in_or_app. right. left. reflexivity.
    + split; [reflexivity|]. split; [apply incl_refl|]. split; [lia|]. lia.
Qed.

Lemma fold_insert_keys (w : D) (l : list (pf_vector_t D)) :
  forall (h : @histogram D) m,
    Z.of_nat (length (leaves h)) + Z.of_nat (length l) <= m ->
    2 * m - 1 <= node_max_count h ->
    incl (map key (leaves h))
         (map key (leaves (fold_left (fun kd p => histogram_insert kd p w) l h))) /\
    forall p, In p l ->
      In (bucket_of p) (map key (leaves (fold_left (fun kd p => histogram_insert kd p w) l h))).
Proof.
  induction l as [|q l IH]; intros h m Hm Hcap; cbn [fold_left].
  - split; [apply incl_refl | intros p []].
  - destruct (histogram_insert_keys h q w) as (A & B & C & F).
    cbn [length] in Hm.
    destruct (IH (histogram_insert h q w) m) as (I1 & I2); [lia | rewrite A; assumption |].
    split; [eapply incl_tran; eassumption|].
    intros p [<-|Hp]; [|apply I2; assumption].
    apply I1. apply F. lia.
Qed.

Lemma relabelled_refl (l : list (@leaf D)) : Forall2 relabelled l l.
Proof. induction l; constructor; [split; auto | assumption]. Qed.

Lemma relabelled_trans (l1 l2 l3 : list (@leaf D)) :
  Forall2 relabelled l1 l2 -> Forall2 relabelled l2 l3 -> Forall2 relabelled l1 l3.
Proof.
  intros H. revert l3. induction H as [|a b l1 l2 (K1 & C1) _ IH]; intros l3 H3.
  - inversion H3. constructor.
  - inversion H3 as [|b' c l2' l3' (K2 & C2) H3' E1 E2]. subst.
    constructor; [|apply IH; assumption].
    split; [congruence|]. destruct C1 as [C1|[C1 C1']], C2 as [C2|[C2 C2']].
    + left. congruence.
    + right. split; [congruence | assumption].
    + right. split; [assumption | lia].
    + lia.
Qed.

Lemma relabelled_keys (l l' : list (@leaf D)) :
  Forall2 relabelled l l' -> map key l' = map key l.
Proof. induction 1 as [|a b l l' (K & _) _ IH]; cbn [map]; congruence. Qed.

Lemma relabelled_unlabelled (l l' : list (@leaf D)) :
  Forall2 relabelled l l' -> (unlabelled l' <= unlabelled l)%nat.
Proof.
  unfold unlabelled. induction 1 as [|a b l l' (_ & C) _ IH]; [apply Nat.le_refl|].
  cbn [filter].
  destruct (Z.eqb_spec (cluster b) (-1)) as [Hb|Hb], (Z.eqb_spec (cluster a) (-1)) as [Ha|Ha];
    cbn [length]; lia.
Qed.

Lemma map_relabelled (g : @leaf D -> @leaf D) (l : list (@leaf D)) :
  (forall lf, relabelled lf (g lf)) -> Forall2 relabelled l (map g l).
Proof. intros Hg. induction l; cbn [map]; constructor; auto. Qed.

Lemma spread_relabelled c (l : list (@leaf D)) : 0 <= c -> Forall2 relabelled l (spread c l).
Proof.
  intros Hc. unfold spread. apply map_relabelled. intros lf.
  destruct ((cluster lf =? -1) && _) eqn:Hb.
  - apply andb_prop in Hb. destruct Hb as [Hb _]. apply Z.eqb_eq in Hb.
    split; [reflexivity|]. right. cbn [cluster]. auto.
  - split; auto.
Qed.

Lemma spread_n_relabelled n c (l : list (@leaf D)) :
  0 <= c -> Forall2 relabelled l (spread_n n c l).
Proof.
  intros Hc. revert l. induction n as [|n IH]; intros l; cbn [spread_n].
  - apply relabelled_refl.
  - apply (relabelled_trans _ (spread c l)); [apply spread_relabelled; assumption | apply IH].
Qed.

Lemma launch_Some c (l : list (@leaf D)) :
  0 <= c -> forall l1, launch c l = Some l1 ->
  Forall2 relabelled l l1 /\ (unlabelled l1 < unlabelled l)%nat.
Proof.
  intros Hc. unfold unlabelled.
  induction l as [|lf l IH]; intros l1 H; cbn [launch] in H; [discriminate|].
  destruct (Z.eqb_spec (cluster lf) (-1)) as [He|He].
  - injection H as <-. split.
    + constructor; [|apply relabelled_refl]. split; [reflexivity|]. right. cbn [cluster]. auto.
    + cbn [filter cluster]. destruct (Z.eqb_spec c (-1)); [lia|].
      destruct (Z.eqb_spec (cluster lf) (-1)); [|contradiction]. cbn [length]. lia.
  - destruct (launch c l) as [l2|] eqn:Hl; cbn [option_map] in H; [|discriminate].
    injection H as <-. destruct (IH l2 eq_refl) as (A & B). split.
    + constructor; [split; auto | assumption].
    + cbn [filter]. destruct (Z.eqb_spec (cluster lf) (-1)); [contradiction|]. assumption.
Qed.

Lemma launch_None c (l : list (@leaf D)) : launch c l = None -> unlabelled l = O.
Proof.
  unfold unlabelled. induction l as [|lf l IH]; intros H; cbn [launch] in H; [reflexivity|].
  destruct (Z.eqb_spec (cluster lf) (-1)) as [He|He]; [discriminate|].
  destruct (launch c l) eqn:Hl; cbn [option_map] in H; [discriminate|].
  cbn [filter]. destruct (Z.eqb_spec (cluster lf) (-1)); [contradiction|]. apply IH. reflexivity.
Qed.

Lemma fill_all_relabelled n :
  forall c (l : list (@leaf D)), 0 <= c ->
    Forall2 relabelled l (fill_all n c l) /\
    ((unlabelled l <= n)%nat -> unlabelled (fill_all n c l) = O).
Proof.
  induction n as [|n IH]; intros c l Hc; cbn [fill_all].
  - split; [apply relabelled_refl | lia].
  - destruct (launch c l) as [l1|] eqn:Hl.
    + destruct (launch_Some c l Hc l1 Hl) as (A & B).
      pose proof (spread_n_relabelled (length l) c l1 Hc) as Hs.
      destruct (IH (c + 1) (spread_n (length l) c l1)) as (I1 & I2); [lia|].
      split.
      * eapply relabelled_trans; [exact A|]. eapply relabelled_trans; [exact Hs | exact I1].
      * intros Hn. apply I2. apply relabelled_unlabelled in Hs. lia.
    + split; [apply relabelled_refl|]. intros _. apply launch_None in Hl. assumption.
Qed.

Lemma histogram_cluster_labels (h : @histogram D) :
  map key (leaves (histogram_cluster h)) = map key (leaves h) /\
  Forall (fun lf => 0 <= cluster lf) (leaves (histogram_cluster h)).
Proof.
  unfold histogram_cluster. cbn [leaves].
  set (l0 := map (fun lf => mk_leaf (key lf) (value lf) (-1)) (leaves h)).
  destruct (fill_all_relabelled (length l0) 0 l0) as (A & B); [lia|].
  assert (Hu : unlabelled (fill_all (length l0) 0 l0) = O).
  { apply B. unfold unlabelled. apply filter_length_le. }
  split.
  - rewrite (relabelled_keys _ _ A). unfold l0. rewrite map_map. reflexivity.
  - assert (H0 : Forall (fun lf => cluster lf = -1) l0).
    { unfold l0. apply Forall_map. apply Forall_forall. intros lf _. reflexivity. }
    clear B. revert Hu. induction A as [|a b l l' (_ & C) _ IH]; intros Hu; [constructor|].
    inversion H0 as [|? ? Ha H0']. subst.
    unfold unlabelled in Hu. cbn [filter] in Hu.
    destruct (Z.eqb_spec (cluster b) (-1)) as [Hb|Hb]; [discriminate Hu|].
    constructor; [lia | apply IH; assumption].
Qed.

(** A histogram of at least [2 n - 1] nodes has room for [n] poses. *)
Lemma histogram_labels_poses (h : @histogram D) (n : Z) :
  2 * n - 1 <= node_max_count h -> labels_poses (E := ScriptedEnv D) h n.
Proof.
  intros Hcap w l Hl p Hp. unfold refilled.
  cbn [pf_kdtree_get_cluster pf_kdtree_cluster pf_kdtree_insert pf_kdtree_clear ScriptedEnv].
  set (h1 := fold_left (fun kd q => histogram_insert kd q w) l
                       (mk_histogram (node_max_count h) [])).
  destruct (fold_insert_keys w l (mk_histogram (node_max_count h) []) n) as (_ & Hk);
    [cbn [leaves length]; lia | cbn [node_max_count]; assumption |].
  specialize (Hk p Hp). fold h1 in Hk.
  destruct (histogram_cluster_labels h1) as (Hkeys & Hlab).
  rewrite <- Hkeys in Hk. unfold histogram_get_cluster.
  destruct (find _ _) as [lf|] eqn:Hf.
  - apply find_some in Hf. destruct Hf as (Hin & _).
    rewrite Forall_forall in Hlab. apply Hlab. assumption.
  - apply in_map_iff in Hk. destruct Hk as (lf & Hkey & Hin).
    apply (find_none _ _ Hf) in Hin. cbv beta in Hin.
    rewrite Hkey in Hin. assert (Ht : key_eqb (bucket_of p) (bucket_of p) = true)
      by (apply key_eqb_eq; reflexivity).
    congruence.
Qed.
End HistogramFacts.

(* ================================================================== *)
(** * Further properties, in every arithmetic *)
(* ================================================================== *)

Section Further.
Context {D : Type} {ops : DoubleOps D} {E : Env D}.
Implicit Types (pf : pf_t) (set : pf_sample_set_t).

Lemma after_n_S {St} (f : St -> pf_vector_t D * St) n st :
  after_n f (S n) st = snd (f (after_n f n st)).
Proof. revert st; induction n as [|n IH]; intros st; [reflexivity|]. simpl in *. apply IH. Qed.

Lemma drawn_snoc {St} (f : St -> pf_vector_t D * St) n st :
  drawn f (S n) st = drawn f n st ++ [fst (f (after_n f n st))].
Proof.
  revert st; induction n as [|n IH]; intros st; [reflexivity|].
  change (drawn f (S (S n)) st) with (fst (f st) :: drawn f (S n) (snd (f st))).
  rewrite IH. reflexivity.
Qed.

Lemma init_with_frame {St} pf (draw : St -> res (pf_vector_t D * St)) st pf' :
  init_with pf draw st = Ret pf' ->
  (current_set pf = 0 \/ current_set pf = 1) /\
  exists set', pf' = put_set pf (current_set pf) set'.
Proof.
  unfold init_with. intros H. bind_inv H as s0 Hget. bind_inv H as p1 Hinit.
  destruct p1 as [s1 st1]. bind_inv H as s2 Hcl. ret_inv H.
  split; [|eauto]. apply get_set_Ret in Hget. destruct Hget as [[? _]|[? _]]; auto.
Qed.

Lemma put_set_fields pf j set :
  min_samples (put_set pf j set) = min_samples pf /\
  max_samples (put_set pf j set) = max_samples pf /\
  overHead_samples (put_set pf j set) = overHead_samples pf /\
  pop_err (put_set pf j set) = pop_err pf /\ pop_z (put_set pf j set) = pop_z pf.
Proof. unfold put_set. destruct (j =? 0); simpl; auto. Qed.

Lemma init_to_point_draw_valid fuel map x y var st tmp r :
  do_while fuel (init_to_point_draw map x y var) st = Ret (tmp, r) ->
  valid_cell_check map tmp = true.
Proof.
  intros H. apply do_while_last in H. destruct H as ([t0 r0] & H).
  unfold init_to_point_draw in H.
  destruct (gsl_rng_uniform_pos r0) as [u0 r1].
  destruct (gsl_rng_uniform_pos r1) as [u1 r2].
  destruct (gsl_rng_uniform r2) as [u2 r3].
  injection H as Hv Ht _. subst tmp.
  destruct (valid_cell_check _ _); [reflexivity | discriminate].
Qed.

(** X1: an initialisation ([pf_init], [pf_init_map], [pf_init_model],
    [pf_init_to_point]) that returns has not switched sets, has left the
    other set and the parameters of the filter as they were, and has
    filled the current set with [max_samples] samples, each of weight
    [1.0 / max_samples]. *)
Theorem initialisation_fills_current_set fuel pf (c : pf_call D) r pf' :
  is_resample c = false ->
  run_call fuel pf c r = Ret pf' ->
  current_set pf' = current_set pf /\
  scratch pf' = scratch pf /\
  (min_samples pf' = min_samples pf /\ max_samples pf' = max_samples pf /\
   overHead_samples pf' = overHead_samples pf /\
   pop_err pf' = pop_err pf /\ pop_z pf' = pop_z pf) /\
  sample_count (current pf') = max_samples pf /\
  Forall (fun s => weight s = d_div d_one (d_of_int (max_samples pf)))
         (live_samples (current pf')).
Proof.
  intros Hc H.
  assert (Hi : exists St (draw : St -> res (pf_vector_t D * St)) st,
             init_with pf draw st = Ret pf').
  { destruct c; simpl in Hc; try discriminate; simpl in H; eauto. }
  destruct Hi as (St & draw & st & Hi).
  destruct (init_with_frame _ _ _ _ Hi) as (Hcs & set' & Hpf).
  apply init_with_spec with (P := fun _ => True) in Hi; [|auto].
  destruct Hi as (Hcur & Hn & HF & _).
  destruct (current_put_set pf set' Hcs) as (_ & _ & Hscr).
  split; [assumption|]. split; [rewrite Hpf; assumption|].
  split; [rewrite Hpf; apply put_set_fields|]. split; [assumption|].
  eapply Forall_impl; [|exact HF]. intros s [Hw _]. exact Hw.
Qed.

(** X3: after [pf_init_to_point] the cell of every sample is within the
    bounds of the map (the occupancy of the cell is not looked at). *)
Theorem pf_init_to_point_in_bounds fuel pf (mp : map_t D) x y var r pf' :
  pf_init_to_point fuel pf mp x y var r = Ret pf' ->
  Forall (fun s => valid_cell_check mp (pose s) = true) (live_samples (current pf')).
Proof.
  unfold pf_init_to_point. intros H.
  apply init_with_spec with (P := fun p => valid_cell_check mp p = true) in H.
  - destruct H as (_ & _ & HF & _). eapply Forall_impl; [|exact HF].
    intros s [_ Hp]. exact Hp.
  - intros s p s' Hd. eapply init_to_point_draw_valid; eauto.
Qed.

Lemma init_samples_order {St} pf (f : St -> pf_vector_t D * St) set st set' st' :
  init_samples pf (fun s => Ret (f s)) set st = Ret (set', st') ->
  map pose (firstn (Z.to_nat (sample_count set)) (samples set'))
  = drawn f (Z.to_nat (sample_count set)) st.
Proof.
  unfold init_samples. intros H.
  assert (HI : snd (set', st') = after_n f (Z.to_nat (Z.max 0 (sample_count set))) st /\
               Z.max 0 (sample_count set) <= Z.of_nat (length (samples (fst (set', st')))) /\
               map pose (firstn (Z.to_nat (Z.max 0 (sample_count set))) (samples (fst (set', st'))))
               = drawn f (Z.to_nat (Z.max 0 (sample_count set))) st).
  { eapply (for_ind (fun i t => snd t = after_n f (Z.to_nat i) st /\
                        i <= Z.of_nat (length (samples (fst t))) /\
                        map pose (firstn (Z.to_nat i) (samples (fst t)))
                        = drawn f (Z.to_nat i) st));
      [exact H | simpl; repeat split; auto; lia |].
    intros j [sj tj] t' Hj (Hst & Hlen & HF) Hb. simpl in Hst, HF, Hlen.
    cbn [bind] in Hb. destruct (f tj) as [p tj'] eqn:Hf.
    bind_inv Hb as l Hw. ret_inv Hb.
    apply awrite_Ret in Hw. destruct Hw as (Hi & ->). cbn [fst snd samples with_kdtree with_samples].
    replace (Z.to_nat (j + 1)) with (S (Z.to_nat j)) by lia.
    rewrite after_n_S, drawn_snoc, Hf. rewrite upd_length.
    split; [reflexivity|]. split; [lia|].
    rewrite firstn_upd_snoc by lia. rewrite map_app, HF. reflexivity. }
  destruct HI as (_ & _ & HF). simpl in HF.
  replace (Z.to_nat (Z.max 0 (sample_count set))) with (Z.to_nat (sample_count set)) in HF by lia.
  exact HF.
Qed.

Lemma init_with_order {St} pf (f : St -> pf_vector_t D * St) st pf' :
  init_with pf (fun s => Ret (f s)) st = Ret pf' ->
  map pose (live_samples (current pf')) = drawn f (Z.to_nat (max_samples pf)) st.
Proof.
  intros H. assert (Hfr := init_with_frame _ _ _ _ H). destruct Hfr as (Hcs & _).
  unfold init_with in H. bind_inv H as s0 Hget. bind_inv H as p1 Hinit.
  destruct p1 as [s1 st1]. bind_inv H as s2 Hcl. ret_inv H.
  destruct (current_put_set pf s2 Hcs) as (-> & _ & _).
  apply pf_cluster_stats_live in Hcl. destruct Hcl as (-> & _).
  assert (Hc := Hinit). apply init_samples_spec with (P := fun _ => True) in Hc; [|auto].
  destruct Hc as (Hc & _ & _).
  apply init_samples_order in Hinit. cbn [sample_count with_sample_count with_kdtree] in *.
  unfold live_samples. rewrite Hc. exact Hinit.
Qed.

(** X4: [pf_init_model] calls [init_fn] once per sample, in the order of
    the array, each call on the state the call before left: the poses of
    the samples are, in order, the [max_samples] poses these calls yield. *)
Theorem pf_init_model_calls_in_order {I} pf (init_fn : I -> pf_vector_t D * I) init_data pf' :
  pf_init_model pf init_fn init_data = Ret pf' ->
  map pose (live_samples (current pf')) = drawn init_fn (Z.to_nat (max_samples pf)) init_data.
Proof. apply init_with_order. Qed.

Lemma pf_init_draws_in_order pf mean cov r pf' :
  pf_init pf mean cov r = Ret pf' ->
  map pose (live_samples (current pf'))
  = drawn (fun r => pf_pdf_gaussian_sample r mean cov) (Z.to_nat (max_samples pf)) r.
Proof. apply init_with_order. Qed.

Lemma gather_snoc (l : list (pf_sample_t D)) s : gather (l ++ [s]) = cluster_add (gather l) s.
Proof. unfold gather. rewrite fold_left_app. reflexivity. Qed.

Lemma zero_loop set0 set1 :
  for_ 0 (cluster_max_count set0)
    (fun i set => cl <- awrite (clusters set) i cluster_zero ;; Ret (with_clusters set cl)) set0
  = Ret set1 ->
  samples set1 = samples set0 /\ sample_count set1 = sample_count set0 /\
  kdtree set1 = kdtree set0 /\ cluster_max_count set1 = cluster_max_count set0 /\
  cluster_count set1 = cluster_count set0 /\
  length (clusters set1) = length (clusters set0) /\
  Z.max 0 (cluster_max_count set0) <= Z.of_nat (length (clusters set0)) /\
  (forall c, 0 <= c < cluster_max_count set0 ->
             nth_error (clusters set1) (Z.to_nat c) = Some cluster_zero).
Proof.
  intros H.
  assert (HI : samples set1 = samples set0 /\ sample_count set1 = sample_count set0 /\
               kdtree set1 = kdtree set0 /\ cluster_max_count set1 = cluster_max_count set0 /\
               cluster_count set1 = cluster_count set0 /\
               length (clusters set1) = length (clusters set0) /\
               Z.max 0 (cluster_max_count set0) <= Z.of_nat (length (clusters set0)) /\
               (forall c, 0 <= c < Z.max 0 (cluster_max_count set0) ->
                          nth_error (clusters set1) (Z.to_nat c) = Some cluster_zero)).
  { eapply (for_ind (fun i t =>
        samples t = samples set0 /\ sample_count t = sample_count set0 /\
        kdtree t = kdtree set0 /\ cluster_max_count t = cluster_max_count set0 /\
        cluster_count t = cluster_count set0 /\
        length (clusters t) = length (clusters set0) /\
        i <= Z.of_nat (length (clusters set0)) /\
        (forall c, 0 <= c < i -> nth_error (clusters t) (Z.to_nat c) = Some cluster_zero)));
      [exact H | |].
    - repeat (split; [reflexivity|]). split; [lia|]. intros c Hc. lia.
    - intros j t t' Hj (H1 & H2 & H3 & H4 & H5 & H6 & H7 & H8) Hb.
      bind_inv Hb as cl Hw. ret_inv Hb. apply awrite_Ret in Hw. destruct Hw as (Hi & ->).
      cbn [samples sample_count kdtree cluster_max_count cluster_count clusters with_clusters].
      rewrite upd_length.
      repeat (split; [assumption|]). split; [lia|].
      intros c Hc. destruct (Z.eq_dec c j) as [->|Hne].
      + apply nth_error_upd_same. lia.
      + rewrite nth_error_upd_other by lia. apply H8. lia. }
  destruct HI as (H1 & H2 & H3 & H4 & H5 & H6 & H7 & H8).
  repeat (split; [assumption|]). intros c Hc. apply H8. lia.
Qed.

Lemma acc_step set0 j t t' :
  0 <= j -> acc_inv set0 j t ->
  (sample <- aread (samples t) j ;;
   let c := pf_kdtree_get_cluster (kdtree t) (pose sample) in
   _ <- assert_ (0 <=? c) ;;
   if cluster_max_count t <=? c then Ret t
   else
     let t := if cluster_count t <? c + 1 then with_cluster_count t (c + 1) else t in
     cluster <- aread (clusters t) c ;;
     cl <- awrite (clusters t) c (cluster_add cluster sample) ;;
     Ret (with_clusters t cl)) = Ret t' ->
  acc_inv set0 (j + 1) t'.
Proof.
  intros Hj (H1 & H2 & H3 & H4 & H5 & H6 & H7 & H8 & H9) Hb.
  bind_inv Hb as sample Hrd. apply aread_Ret in Hrd. destruct Hrd as (Hjr & Hnth).
  rewrite H1 in Hnth, Hjr. cbv zeta in Hb. rewrite H3 in Hb.
  change (pf_kdtree_get_cluster (kdtree set0) (pose sample)) with (label_in (kdtree set0) sample) in Hb.
  bind_inv Hb as u Has. unfold assert_ in Has.
  destruct (Z.leb_spec 0 (label_in (kdtree set0) sample)) as [Hpos|]; [clear Has u|discriminate].
  assert (Hfirst : firstn (Z.to_nat (j + 1)) (samples set0)
                   = firstn (Z.to_nat j) (samples set0) ++ [sample]).
  { replace (Z.to_nat (j + 1)) with (S (Z.to_nat j)) by lia.
    apply firstn_snoc_nth. assumption. }
  rewrite H4 in Hb. destruct (Z.leb_spec (cluster_max_count set0) (label_in (kdtree set0) sample)) as [Hge|Hlt].
  - ret_inv Hb. unfold acc_inv. rewrite Hfirst.
    repeat (split; [assumption|]). split; [|split].
    + intros c Hc. rewrite filter_app. cbn [filter].
      destruct (Z.eqb_spec (label_in (kdtree set0) sample) c); [lia|]. rewrite app_nil_r. apply H7. assumption.
    + apply Forall_app. split; [assumption|]. constructor; [|constructor]. split; [assumption|lia].
    + intros Hc. destruct (H9 Hc) as (s & Hin & Hs). exists s. split; [|assumption].
      apply in_or_app. left. assumption.
  - set (t1 := if cluster_count t <? label_in (kdtree set0) sample + 1
               then with_cluster_count t (label_in (kdtree set0) sample + 1) else t) in Hb.
    assert (Ht1 : samples t1 = samples t /\ sample_count t1 = sample_count t /\
                  kdtree t1 = kdtree t /\ cluster_max_count t1 = cluster_max_count t /\
                  clusters t1 = clusters t /\
                  cluster_count t1 = Z.max (cluster_count t) (label_in (kdtree set0) sample + 1)).
    { unfold t1. destruct (Z.ltb_spec (cluster_count t) (label_in (kdtree set0) sample + 1)); simpl;
        repeat split; lia. }
    destruct Ht1 as (T1 & T2 & T3 & T4 & T5 & T6).
    bind_inv Hb as cluster Hrc. bind_inv Hb as cl Hw. ret_inv Hb.
    rewrite T5 in Hrc, Hw.
    apply aread_Ret in Hrc. destruct Hrc as (_ & Hc0).
    apply awrite_Ret in Hw. destruct Hw as (Hir & ->).
    rewrite H7 in Hc0 by lia. injection Hc0 as <-.
    unfold acc_inv.
    cbn [samples sample_count kdtree cluster_max_count cluster_count clusters with_clusters].
    rewrite upd_length, T1, T2, T3, T4, T6, Hfirst.
    repeat (split; [assumption|]). split; [clear - H6 Hlt Hpos; lia|]. split; [|split].
    + intros c Hc. rewrite filter_app. cbn [filter].
      destruct (Z.eqb_spec (label_in (kdtree set0) sample) c) as [Heq|Hne].
      * rewrite <- Heq. rewrite nth_error_upd_same by lia. rewrite gather_snoc. reflexivity.
      * rewrite nth_error_upd_other by lia. rewrite app_nil_r. apply H7. assumption.
    + apply Forall_app. split.
      * eapply Forall_impl; [|exact H8]. intros s [Hs1 Hs2]. split; [assumption|].
        intros Hs. specialize (Hs2 Hs). lia.
      * constructor; [|constructor]. split; [assumption|lia].
    + intros Hc.
      destruct (Z.ltb_spec (cluster_count t) (label_in (kdtree set0) sample + 1)) as [Hnew|Hold].
      * exists sample. split; [apply in_or_app; right; left; reflexivity | lia].
      * assert (Hc' : 0 < cluster_count t) by lia.
        destruct (H9 Hc') as (s & Hin & Hs). exists s.
        split; [apply in_or_app; left; assumption | lia].
Qed.

Lemma normalize_loop set2 set3 :
  for_ 0 (cluster_count set2)
    (fun i set =>
       cluster <- aread (clusters set) i ;;
       cl <- awrite (clusters set) i (cluster_normalize cluster) ;;
       Ret (with_clusters set cl)) set2 = Ret set3 ->
  samples set3 = samples set2 /\ sample_count set3 = sample_count set2 /\
  kdtree set3 = kdtree set2 /\ cluster_max_count set3 = cluster_max_count set2 /\
  cluster_count set3 = cluster_count set2 /\
  length (clusters set3) = length (clusters set2) /\
  (forall c cl, 0 <= c < cluster_count set2 ->
     nth_error (clusters set2) (Z.to_nat c) = Some cl ->
     nth_error (clusters set3) (Z.to_nat c) = Some (cluster_normalize cl)) /\
  (forall c, Z.max 0 (cluster_count set2) <= c ->
     nth_error (clusters set3) (Z.to_nat c) = nth_error (clusters set2) (Z.to_nat c)).
Proof.
  intros H.
  assert (HI : samples set3 = samples set2 /\ sample_count set3 = sample_count set2 /\
               kdtree set3 = kdtree set2 /\ cluster_max_count set3 = cluster_max_count set2 /\
               cluster_count set3 = cluster_count set2 /\
               length (clusters set3) = length (clusters set2) /\
               (forall c cl, 0 <= c < Z.max 0 (cluster_count set2) ->
                  nth_error (clusters set2) (Z.to_nat c) = Some cl ->
                  nth_error (clusters set3) (Z.to_nat c) = Some (cluster_normalize cl)) /\
               (forall c, Z.max 0 (cluster_count set2) <= c ->
                  nth_error (clusters set3) (Z.to_nat c)
                  = nth_error (clusters set2) (Z.to_nat c))).
  { eapply (for_ind (fun i t =>
        samples t = samples set2 /\ sample_count t = sample_count set2 /\
        kdtree t = kdtree set2 /\ cluster_max_count t = cluster_max_count set2 /\
        cluster_count t = cluster_count set2 /\
        length (clusters t) = length (clusters set2) /\
        (forall c cl, 0 <= c < i ->
           nth_error (clusters set2) (Z.to_nat c) = Some cl ->
           nth_error (clusters t) (Z.to_nat c) = Some (cluster_normalize cl)) /\
        (forall c, i <= c ->
           nth_error (clusters t) (Z.to_nat c) = nth_error (clusters set2) (Z.to_nat c))));
      [exact H | |].
    - repeat (split; [reflexivity|]). split; [intros c cl Hc; lia | reflexivity].
    - intros j t t' Hj (H1 & H2 & H3 & H4 & H5 & H6 & H7 & H8) Hb.
      bind_inv Hb as cluster Hrd. bind_inv Hb as cl Hw. ret_inv Hb.
      apply aread_Ret in Hrd. destruct Hrd as (_ & Hnth).
      apply awrite_Ret in Hw. destruct Hw as (Hi & ->).
      cbn [samples sample_count kdtree cluster_max_count cluster_count clusters with_clusters].
      rewrite upd_length. repeat (split; [assumption|]). split.
      + intros c cl Hc Hcl. destruct (Z.eq_dec c j) as [->|Hne].
        * rewrite nth_error_upd_same by lia. rewrite H8 in Hnth by lia. congruence.
        * rewrite nth_error_upd_other by lia. apply H7; [lia | assumption].
      + intros c Hc. rewrite nth_error_upd_other by lia. apply H8. lia. }
  destruct HI as (H1 & H2 & H3 & H4 & H5 & H6 & H7 & H8).
  repeat (split; [assumption|]). split; [|assumption].
  intros c cl Hc. apply H7. lia.
Qed.

Lemma filter_none {A} (f : A -> bool) (l : list A) :
  Forall (fun a => f a = false) l -> filter f l = [].
Proof.
  induction 1 as [|a l Ha _ IH]; [reflexivity|]. simpl. rewrite Ha. assumption.
Qed.

Lemma pf_cluster_stats_clustered set set' :
  pf_cluster_stats set = Ret set' -> clustered set set'.
Proof.
  unfold pf_cluster_stats. intros H.
  bind_inv H as s1 Hz. bind_inv H as s2 Ha.
  apply zero_loop in Hz.
  cbn [samples sample_count kdtree cluster_max_count cluster_count clusters
       with_kdtree with_cluster_count] in Hz.
  destruct Hz as (Z1 & Z2 & Z3 & Z4 & Z5 & Z6 & Z7 & Z8).
  assert (HA : acc_inv s1 (Z.max 0 (sample_count s1)) s2).
  { eapply (for_ind (acc_inv s1)); [exact Ha | |].
    - unfold acc_inv. repeat (split; [reflexivity|]). rewrite Z5.
      split; [lia|]. split; [|split].
      + intros c Hc. simpl. rewrite Z4 in Hc. apply Z8. assumption.
      + constructor.
      + intros Hc. lia.
    - intros j t t' Hj Hinv Hb. eapply acc_step; [lia | exact Hinv | exact Hb]. }
  destruct HA as (A1 & A2 & A3 & A4 & A5 & A6 & A7 & A8 & A9).
  apply normalize_loop in H.
  destruct H as (N1 & N2 & N3 & N4 & N5 & N6 & N7 & N8).
  assert (Hlive : firstn (Z.to_nat (Z.max 0 (sample_count s1))) (samples s1)
                  = live_samples set).
  { unfold live_samples. rewrite Z1, Z2. f_equal. lia. }
  rewrite Hlive in A7, A8, A9. rewrite Z3, Z4 in *.
  change (label_in (pf_kdtree_cluster (kdtree set))) with (cluster_label set) in *.
  unfold clustered.
  split; [congruence|]. split; [congruence|]. split; [congruence|].
  split; [congruence|]. split; [congruence|]. rewrite N5.
  split; [assumption|]. split; [assumption|]. split; [|split; [|split]].
  - intros c Hc. apply N7; [assumption|]. apply A7. lia.
  - intros c Hc. rewrite N8 by lia. rewrite A7 by lia.
    rewrite filter_none; [reflexivity|].
    eapply Forall_impl; [|exact A8]. intros s [Hs1 Hs2].
    apply Z.eqb_neq. intros Heq. rewrite Heq in Hs2. lia.
  - assumption.
  - assumption.
Qed.

Lemma fold_cluster_add (l : list (pf_sample_t D)) :
  forall cl,
    c_count (fold_left cluster_add l cl) = c_count cl + Z.of_nat (length l) /\
    c_weight (fold_left cluster_add l cl)
    = fold_left (fun acc s => d_add acc (weight s)) l (c_weight cl) /\
    c_m0 (fold_left cluster_add l cl)
    = fold_left (fun acc s => d_add acc (d_mul (weight s) (v0 (pose s)))) l (c_m0 cl) /\
    c_m1 (fold_left cluster_add l cl)
    = fold_left (fun acc s => d_add acc (d_mul (weight s) (v1 (pose s)))) l (c_m1 cl).
Proof.
  induction l as [|s l IH]; intros cl.
  - simpl. repeat split; lia.
  - cbn [fold_left]. destruct (IH (cluster_add cl s)) as (H1 & H2 & H3 & H4).
    rewrite H1, H2, H3, H4. cbn [cluster_add c_count c_weight c_m0 c_m1 length].
    repeat split; lia.
Qed.

(** X7: after [pf_cluster_stats], the cluster of every label [c] below
    [cluster_count] holds the number of the samples the histogram labels
    [c], the sum of their weights, and as mean position the weighted sum
    of their positions divided by that weight, all added up in the order
    of the array. *)
Theorem pf_cluster_stats_gathers set set' c :
  pf_cluster_stats set = Ret set' ->
  0 <= c < cluster_count set' ->
  exists cl,
    nth_error (clusters set') (Z.to_nat c) = Some cl /\
    c_count cl = Z.of_nat (length (members set c)) /\
    c_weight cl = sum_weights (members set c) /\
    v0 (c_mean cl) = d_div (weighted_sum v0 (members set c)) (sum_weights (members set c)) /\
    v1 (c_mean cl) = d_div (weighted_sum v1 (members set c)) (sum_weights (members set c)).
Proof.
  intros H Hc. apply pf_cluster_stats_clustered in H.
  destruct H as (_ & _ & _ & _ & _ & _ & _ & Hg & _).
  exists (cluster_normalize (gather (members set c))). split; [apply Hg; assumption|].
  destruct (fold_cluster_add (members set c) cluster_zero) as (H1 & H2 & H3 & H4).
  unfold cluster_normalize, gather, sum_weights, weighted_sum.
  cbn [c_count c_weight c_mean v0 v1]. rewrite H1, H2, H3, H4. cbn [cluster_zero c_count c_weight c_m0 c_m1].
  repeat split; lia.
Qed.

(** X8: after [pf_cluster_stats], [cluster_count] is between 0 and the
    capacity [cluster_max_count] and within the array of clusters; every
    sample has a label that is not negative, and below [cluster_count] if
    it is below the capacity; and when [cluster_count] is positive some
    sample has the label [cluster_count - 1]. *)
Theorem pf_cluster_stats_counts_labels set set' :
  pf_cluster_stats set = Ret set' ->
  0 <= cluster_count set' <= Z.max 0 (cluster_max_count set) /\
  cluster_count set' <= Z.of_nat (length (clusters set')) /\
  Forall (fun s => 0 <= cluster_label set s /\
                   (cluster_label set s < cluster_max_count set ->
                    cluster_label set s < cluster_count set'))
         (live_samples set) /\
  (0 < cluster_count set' ->
   exists s, In s (live_samples set) /\ cluster_label set s = cluster_count set' - 1).
Proof.
  intros H. apply pf_cluster_stats_clustered in H.
  destruct H as (_ & _ & _ & _ & H5 & H6 & H7 & _ & _ & H10 & H11).
  split; [assumption|]. split; [lia|]. split; assumption.
Qed.

Lemma init_with_last {St} pf (draw : St -> res (pf_vector_t D * St)) st pf' :
  init_with pf draw st = Ret pf' ->
  (current_set pf' = 0 \/ current_set pf' = 1) /\
  exists set, pf_cluster_stats set = Ret (current pf').
Proof.
  intros H. destruct (init_with_frame _ _ _ _ H) as (Hcs & _).
  unfold init_with in H. bind_inv H as s0 Hget. bind_inv H as p1 Hinit.
  destruct p1 as [s1 st1]. bind_inv H as s2 Hcl. ret_inv H.
  destruct (current_put_set pf s2 Hcs) as (-> & -> & _). eauto.
Qed.

Lemma flip_last pf set_b3 set_b4 :
  (current_set pf = 0 \/ current_set pf = 1) ->
  pf_cluster_stats set_b3 = Ret set_b4 ->
  let pf' := with_current_set (put_set pf (1 - current_set pf) set_b4) (1 - current_set pf) in
  (current_set pf' = 0 \/ current_set pf' = 1) /\
  exists set, pf_cluster_stats set = Ret (current pf').
Proof.
  intros Hcs Hcl pf'. destruct (flip_frame pf set_b4 Hcs) as (Hc & _ & Hcur & _).
  fold pf' in Hc, Hcur. rewrite Hc, Hcur. split; [lia | eauto].
Qed.

Lemma flip_both_last pf set_a2 set_b3 set_b4 :
  (current_set pf = 0 \/ current_set pf = 1) ->
  pf_cluster_stats set_b3 = Ret set_b4 ->
  let pf' := with_current_set
               (put_set (put_set pf (current_set pf) set_a2) (1 - current_set pf) set_b4)
               (1 - current_set pf) in
  (current_set pf' = 0 \/ current_set pf' = 1) /\
  exists set, pf_cluster_stats set = Ret (current pf').
Proof.
  intros Hcs Hcl pf'. destruct (flip_both pf set_a2 set_b4 Hcs) as (Hc & _ & Hcur & _).
  fold pf' in Hc, Hcur. rewrite Hc, Hcur. split; [lia | eauto].
Qed.

Lemma run_call_last fuel pf (c : pf_call D) r pf' :
  run_call fuel pf c r = Ret pf' ->
  (current_set pf' = 0 \/ current_set pf' = 1) /\
  exists set, pf_cluster_stats set = Ret (current pf').
Proof.
  intros H. destruct c; cbn [run_call] in H.
  - eapply init_with_last; exact H.
  - eapply init_with_last; exact H.
  - eapply init_with_last; exact H.
  - eapply init_with_last; exact H.
  - unfold pf_update_resample in H.
    bind_inv H as set_a Ha. bind_inv H as set_b Hb. bind_inv H as randlist Hrl.
    bind_inv H as st1 Hloop. destruct st1 as [[set_b1 total1] r1].
    bind_inv H as set_b3 Hnorm. bind_inv H as set_b4 Hcl. ret_inv H.
    destruct (get_sets_Ret _ _ _ Ha Hb) as (Hcs & Hr & _ & _). rewrite Hr.
    eapply flip_last; eauto.
  - unfold pf_update_resample_map in H.
    bind_inv H as set_a Ha. bind_inv H as set_b Hb. bind_inv H as randlist Hrl.
    bind_inv H as st1 Hloop. bind_inv H as st2 Hinj. destruct st2 as [[set_b2 total2] r2].
    bind_inv H as set_b3 Hnorm. bind_inv H as set_b4 Hcl. ret_inv H.
    destruct (get_sets_Ret _ _ _ Ha Hb) as (Hcs & Hr & _ & _). rewrite Hr.
    eapply flip_last; eauto.
  - unfold pf_update_resample_addParticle in H.
    bind_inv H as set_a Ha. bind_inv H as set_b Hb. bind_inv H as randlist Hrl.
    bind_inv H as st1 Hloop. bind_inv H as st2 Hinj. destruct st2 as [[set_b2 total2] r2].
    bind_inv H as set_b3 Hnorm. bind_inv H as set_b4 Hcl. ret_inv H.
    destruct (get_sets_Ret _ _ _ Ha Hb) as (Hcs & Hr & _ & _). rewrite Hr.
    eapply flip_last; eauto.
  - unfold pf_update_resample_hyps in H.
    bind_inv H as set_a Ha. bind_inv H as set_b Hb. bind_inv H as randlist Hrl.
    bind_inv H as st1 Hloop. bind_inv H as nNewSample Hbud.
    bind_inv H as st2 Hinj. destruct st2 as [[set_b2 total2] r2].
    bind_inv H as set_b3 Hnorm. bind_inv H as set_b4 Hcl. ret_inv H.
    destruct (get_sets_Ret _ _ _ Ha Hb) as (Hcs & Hr & _ & _). rewrite Hr.
    eapply flip_last; eauto.
  - unfold pf_update_resample_hyps_2 in H.
    bind_inv H as set_a Ha. bind_inv H as set_b Hb. bind_inv H as nNewSample Hbud.
    bind_inv H as st0 Hinj. destruct st0 as [set_a1 r0].
    bind_inv H as set_a2 Hun. bind_inv H as randlist Hrl.
    bind_inv H as st1 Hloop. destruct st1 as [[set_b1 total1] r1].
    bind_inv H as set_b3 Hnorm. bind_inv H as set_b4 Hcl. ret_inv H.
    destruct (get_sets_Ret _ _ _ Ha Hb) as (Hcs & Hr & _ & _). rewrite Hr.
    eapply flip_both_last; eauto.
  - unfold pf_update_resample_hyps_3 in H.
    bind_inv H as set_a Ha. bind_inv H as set_b Hb. bind_inv H as randlist Hrl.
    bind_inv H as st1 Hloop. destruct st1 as [[set_b1 total1] r1].
    bind_inv H as nNewSample Hbud.
    bind_inv H as st2 Hinj. destruct st2 as [[set_a2 set_b2] r2].
    bind_inv H as set_b3 Hnorm. bind_inv H as set_b4 Hcl. ret_inv H.
    destruct (get_sets_Ret _ _ _ Ha Hb) as (Hcs & Hr & _ & _). rewrite Hr.
    eapply flip_both_last; eauto.
Qed.

(** X9: after any initialisation or resampler has returned,
    [pf_get_cluster_stats] on a label from 0 to [cluster_count - 1] reads
    inside the array of clusters and returns 1 with the weight, mean and
    covariance of that cluster, and on a label from [cluster_count] up it
    returns 0 and stores nothing. *)
Theorem cluster_query_after_call fuel pf (c : pf_call D) r pf' :
  run_call fuel pf c r = Ret pf' ->
  0 <= cluster_count (current pf') <= Z.max 0 (cluster_max_count (current pf')) /\
  (forall clabel, 0 <= clabel < cluster_count (current pf') ->
     exists cl,
       nth_error (clusters (current pf')) (Z.to_nat clabel) = Some cl /\
       pf_get_cluster_stats pf' clabel = Ret (1, Some (c_weight cl, c_mean cl, c_cov cl))) /\
  (forall clabel, cluster_count (current pf') <= clabel ->
     pf_get_cluster_stats pf' clabel = Ret (0, None)).
Proof.
  intros H. apply run_call_last in H. destruct H as (Hcs & set & Hcl).
  apply pf_cluster_stats_clustered in Hcl.
  destruct Hcl as (_ & _ & _ & Hm & _ & Hc & _ & Hg & _).
  split; [rewrite Hm; assumption|]. split.
  - intros clabel Hl. eexists. split; [apply Hg; assumption|].
    apply pf_get_cluster_stats_in_range; auto.
  - intros clabel Hl. apply pf_get_cluster_stats_above; assumption.
Qed.

(** X10: [pf_get_cluster_stats(pf, clabel, ...)] is
    [pf_get_cluster_stats_set] on the current set of [pf]. *)
Theorem pf_get_cluster_stats_is_set_query pf clabel :
  (current_set pf = 0 \/ current_set pf = 1) ->
  pf_get_cluster_stats pf clabel = pf_get_cluster_stats_set (current pf) clabel.
Proof.
  intros Hcs. unfold pf_get_cluster_stats, pf_get_cluster_stats_set.
  rewrite (get_set_current pf Hcs). reflexivity.
Qed.

Lemma insert_loop_frame set set' :
  for_ 0 (sample_count set)
    (fun i set =>
       sample <- aread (samples set) i ;;
       Ret (with_kdtree set (pf_kdtree_insert (kdtree set) (pose sample) (weight sample))))
    set = Ret set' ->
  samples set' = samples set /\ sample_count set' = sample_count set /\
  cluster_max_count set' = cluster_max_count set /\ clusters set' = clusters set /\
  Z.max 0 (sample_count set) <= Z.of_nat (length (samples set)).
Proof.
  intros H.
  assert (HI : (samples set' = samples set /\ sample_count set' = sample_count set /\
                cluster_max_count set' = cluster_max_count set /\ clusters set' = clusters set) /\
               Z.max 0 (sample_count set) <= Z.of_nat (length (samples set))).
  { eapply (for_ind (fun i t =>
        (samples t = samples set /\ sample_count t = sample_count set /\
         cluster_max_count t = cluster_max_count set /\ clusters t = clusters set) /\
        i <= Z.of_nat (length (samples set)))); [exact H | simpl; repeat split; lia |].
    intros j t t' Hj ((H1 & H2 & H3 & H4) & H5) Hb.
    bind_inv Hb as sample Hrd. ret_inv Hb. apply aread_Ret in Hrd. destruct Hrd as (Hr & _).
    rewrite H1 in Hr. simpl. repeat split; auto; lia. }
  destruct HI as ((H1 & H2 & H3 & H4) & H5). auto.
Qed.

(** X12: [pf_update_action_update_cluster] does not switch sets and
    leaves the other set as it was; the samples of the current set are
    those the action model left (it is called on the set with a cleared
    histogram), and the clusters recomputed for them are at most
    [cluster_max_count]. *)
Theorem pf_update_action_update_cluster_frame pf
    (action_fn : pf_sample_set_t -> pf_sample_set_t) pf' :
  pf_update_action_update_cluster pf action_fn = Ret pf' ->
  let moved := action_fn (with_kdtree (current pf) (pf_kdtree_clear (kdtree (current pf)))) in
  current_set pf' = current_set pf /\
  scratch pf' = scratch pf /\
  samples (current pf') = samples moved /\
  sample_count (current pf') = sample_count moved /\
  0 <= cluster_count (current pf') <= Z.max 0 (cluster_max_count moved).
Proof.
  intros H moved. unfold pf_update_action_update_cluster in H.
  bind_inv H as s0 Hget. bind_inv H as s1 Hins. bind_inv H as s2 Hcl. ret_inv H.
  assert (Hcs : current_set pf = 0 \/ current_set pf = 1).
  { apply get_set_Ret in Hget. destruct Hget as [[? _]|[? _]]; auto. }
  rewrite (get_set_current pf Hcs) in Hget. injection Hget as <-.
  fold moved in Hins.
  destruct (current_put_set pf s2 Hcs) as (-> & -> & ->).
  apply insert_loop_frame in Hins. destruct Hins as (I1 & I2 & I3 & _).
  apply pf_cluster_stats_clustered in Hcl.
  destruct Hcl as (C1 & C2 & _ & _ & _ & C6 & _).
  split; [reflexivity|]. split; [reflexivity|].
  split; [congruence|]. split; [congruence|]. rewrite <- I3. assumption.
Qed.

(** X11: [pf_cluster_set] leaves the samples of the set and their number
    as they are and gives the set 100 clusters, of which at most 100 are
    in use; [pf_get_cluster_stats_set] on each label in use then returns 1
    and the statistics of that cluster. *)
Theorem pf_cluster_set_frame set set' :
  pf_cluster_set set = Ret set' ->
  samples set' = samples set /\ sample_count set' = sample_count set /\
  cluster_max_count set' = 100 /\ length (clusters set') = 100%nat /\
  0 <= cluster_count set' <= 100 /\
  (forall c, 0 <= c < cluster_count set' ->
     exists cl, nth_error (clusters set') (Z.to_nat c) = Some cl /\
                pf_get_cluster_stats_set set' c
                = Ret (1, Some (c_weight cl, c_mean cl, c_cov cl))).
Proof.
  unfold pf_cluster_set. intros H. bind_inv H as s1 Hins.
  apply insert_loop_frame in Hins.
  cbn [samples sample_count cluster_max_count clusters with_kdtree] in Hins.
  destruct Hins as (I1 & I2 & I3 & I4 & _).
  apply pf_cluster_stats_clustered in H.
  destruct H as (C1 & C2 & _ & C4 & C5 & C6 & _ & C8 & _).
  rewrite I3 in C4, C6. rewrite I4, repeat_length in C5.
  split; [congruence|]. split; [congruence|]. split; [assumption|].
  split; [assumption|]. split; [lia|].
  intros c Hc. eexists. split; [apply C8; assumption|].
  unfold pf_get_cluster_stats_set. destruct (Z.leb_spec (cluster_count set') c); [lia|].
  unfold aread. destruct (Z.ltb_spec c 0); [lia|]. rewrite (C8 c Hc). reflexivity.
Qed.

(** X13: [pf_update_sensor] does not switch sets, leaves the other set
    as it was, and changes no pose and not the number of the samples the
    sensor model left: only their weights. *)
Theorem pf_update_sensor_keeps_poses pf
    (sensor_fn : pf_sample_set_t -> D * pf_sample_set_t) sq pf' :
  pf_update_sensor pf sensor_fn = Ret (sq, pf') ->
  current_set pf' = current_set pf /\
  scratch pf' = scratch pf /\
  sample_count (current pf') = sample_count (snd (sensor_fn (current pf))) /\
  map pose (live_samples (current pf'))
  = map pose (live_samples (snd (sensor_fn (current pf)))).
Proof.
  intros H. assert (Hs := H). apply pf_update_sensor_spec in Hs. cbv zeta in Hs.
  destruct Hs as (H1 & H2 & H3 & _).
  split; [assumption|]. split; [|split; [assumption|]].
  - unfold pf_update_sensor in H. bind_inv H as s0 Hget.
    assert (Hcs : current_set pf = 0 \/ current_set pf = 1).
    { apply get_set_Ret in Hget. destruct Hget as [[? _]|[? _]]; auto. }
    destruct (sensor_fn s0) as [total s1]. bind_inv H as p Hloop. destruct p as [s2 sq2].
    ret_inv H. apply (current_put_set pf s2 Hcs).
  - rewrite H3, map_map. apply map_ext. intros s. unfold sensor_rule.
    destruct (d_ltb _ _); reflexivity.
Qed.

Lemma resample_step_count pf set_a randlist set_b total r brk set_b' total' r' :
  resample_step pf set_a randlist (set_b, total, r) = Ret (brk, (set_b', total', r')) ->
  sample_count set_b' = sample_count set_b + 1 /\
  brk = (pf_resample_limit pf (leaf_count (kdtree set_b')) <? sample_count set_b').
Proof.
  unfold resample_step. intros H.
  destruct (pf_pdf_discrete_sample r (sample_count set_a) randlist) as [i r1].
  bind_inv H as sample_a Hrd. bind_inv H as u Has. bind_inv H as sb Hpush.
  injection H as Hbrk Hsb Ht Hr'. subst.
  unfold push_sample in Hpush. bind_inv Hpush as l Hw. ret_inv Hpush.
  split; reflexivity.
Qed.

Lemma resample_loop_count fuel pf set_a randlist bound :
  forall st st',
    resample_loop fuel pf set_a randlist bound st = Ret st' ->
    sample_count (fst (fst st)) <= sample_count (fst (fst st')) /\
    sample_count (fst (fst st')) <= Z.max (sample_count (fst (fst st))) bound /\
    (bound <= sample_count (fst (fst st')) \/
     pf_resample_limit pf (leaf_count (kdtree (fst (fst st')))) < sample_count (fst (fst st'))).
Proof.
  unfold resample_loop. induction fuel as [|f IH]; intros st st' H; [discriminate|].
  cbn [while_] in H. destruct st as [[set_b total] r]. cbn [fst snd].
  destruct (Z.ltb_spec (sample_count set_b) bound) as [Hlt|Hge].
  - bind_inv H as p Hstep. destruct p as [brk [[set_b1 total1] r1]].
    apply resample_step_count in Hstep. destruct Hstep as (Hc & Hbrk).
    destruct brk.
    + ret_inv H. cbn [fst snd]. symmetry in Hbrk. apply Z.ltb_lt in Hbrk.
      split; [lia|]. split; [lia|]. right. assumption.
    + apply IH in H. cbn [fst snd] in H. destruct H as (H1 & H2 & H3).
      split; [lia|]. split; [lia|]. assumption.
  - ret_inv H. cbn [fst snd]. split; [lia|]. split; [lia|]. left. assumption.
Qed.

Lemma resample_loop_idle fuel pf set_a randlist bound st st' :
  resample_loop fuel pf set_a randlist bound st = Ret st' ->
  bound <= sample_count (fst (fst st)) -> st' = st.
Proof.
  unfold resample_loop. destruct fuel as [|f]; intros H Hb; [discriminate|].
  cbn [while_] in H. destruct st as [[set_b total] r]. cbn [fst snd] in Hb.
  destruct (Z.ltb_spec (sample_count set_b) bound); [lia|]. ret_inv H. reflexivity.
Qed.

Lemma pf_update_resample_count fuel pf nMaxParticles r pf' :
  pf_update_resample fuel pf nMaxParticles r = Ret pf' ->
  0 <= sample_count (current pf') <= Z.max 0 nMaxParticles /\
  (min_samples pf <= max_samples pf ->
   Z.min nMaxParticles (min_samples pf + 1) <= sample_count (current pf')) /\
  Forall (from_source (current pf)) (map pose (live_samples (current pf'))).
Proof.
  intros H. assert (Hspec := H). apply pf_update_resample_spec in Hspec.
  destruct Hspec as (Hcs & _ & Hres).
  unfold pf_update_resample in H.
  bind_inv H as set_a Ha. bind_inv H as set_b Hb. bind_inv H as randlist Hrl.
  bind_inv H as st1 Hloop. destruct st1 as [[set_b1 total1] r1].
  bind_inv H as set_b3 Hnorm. bind_inv H as set_b4 Hcl. ret_inv H.
  destruct (get_sets_Ret _ _ _ Ha Hb) as (_ & Hr & -> & ->). rewrite Hr in *.
  destruct (flip_frame pf set_b4 Hcs) as (_ & _ & Hcur & _). rewrite Hcur in *.
  apply pf_cluster_stats_live in Hcl. destruct Hcl as (_ & Hc4).
  apply normalize_weights_spec in Hnorm. destruct Hnorm as (Hc3 & _).
  apply resample_loop_count in Hloop. cbn [fst snd sample_count with_sample_count] in Hloop.
  destruct Hloop as (L1 & L2 & L3). rewrite Hc4, Hc3.
  split; [lia|]. split.
  - intros Hmm. destruct L3 as [L3|L3]; [lia|].
    pose proof (pf_resample_limit_within pf (leaf_count (kdtree set_b1)) Hmm). lia.
  - destruct Hres as (l1 & l2 & Hlive & Hl1 & Hl2 & _).
    assert (l2 = []) as ->.
    { destruct l2 as [|s l2]; [reflexivity|]. inversion Hl2 as [|? ? [_ []] _]. }
    rewrite app_nil_r in Hlive. rewrite Hlive, map_map. cbn [scale_weight pose].
    apply Forall_map. eapply Forall_impl; [|exact Hl1]. intros s [_ Hs]. exact Hs.
Qed.

(** X14: [pf_update_resample(pf, nMaxParticles)] leaves between 0 and
    [nMaxParticles] samples in the new current set; on a filter whose
    bounds are in order it leaves more than [min_samples] of them unless
    [nMaxParticles] stops it before; and every pose it leaves is the pose
    of a sample of the set it resampled from.  In every arithmetic of the
    doubles. *)
Theorem pf_update_resample_sample_count fuel pf nMaxParticles r pf' :
  pf_update_resample fuel pf nMaxParticles r = Ret pf' ->
  0 <= sample_count (current pf') <= Z.max 0 nMaxParticles /\
  (min_samples pf <= max_samples pf ->
   Z.min nMaxParticles (min_samples pf + 1) <= sample_count (current pf')) /\
  Forall (from_source (current pf)) (map pose (live_samples (current pf'))).
Proof. apply pf_update_resample_count. Qed.

(** X18: on a filter with [max_samples <= 1000],
    [pf_update_resample_hyps_2] returns with an empty current set: the
    bound [max_samples - 1000] of its resampling loop lets no sample
    through. *)
Theorem pf_update_resample_hyps_2_small_filter fuel pf (mp : map_t D) nHyp hyps over_head r pf' :
  pf_update_resample_hyps_2 fuel pf mp nHyp hyps over_head r = Ret pf' ->
  max_samples pf <= 1000 ->
  sample_count (current pf') = 0 /\ live_samples (current pf') = [].
Proof.
  intros H Hmax. assert (Hspec := H). apply pf_update_resample_hyps_2_spec in Hspec.
  destruct Hspec as (Hcs & _ & _).
  unfold pf_update_resample_hyps_2 in H.
  bind_inv H as set_a Ha. bind_inv H as set_b Hb. bind_inv H as nNewSample Hbud.
  bind_inv H as st0 Hinj. destruct st0 as [set_a1 r0].
  bind_inv H as set_a2 Hun. bind_inv H as randlist Hrl.
  bind_inv H as st1 Hloop. destruct st1 as [[set_b1 total1] r1].
  bind_inv H as set_b3 Hnorm. bind_inv H as set_b4 Hcl. ret_inv H.
  destruct (get_sets_Ret _ _ _ Ha Hb) as (_ & Hr & _ & _). rewrite Hr.
  destruct (flip_both pf set_a2 set_b4 Hcs) as (_ & _ & -> & _).
  apply pf_cluster_stats_live in Hcl. destruct Hcl as (Hl4 & Hc4).
  unfold normalize_by_count in Hnorm.
  apply normalize_weights_spec in Hnorm. destruct Hnorm as (Hc3 & _ & _ & Hl3).
  apply resample_loop_idle in Hloop; [|cbn [fst snd sample_count with_sample_count]; lia].
  injection Hloop as -> _ _.
  cbn [sample_count with_sample_count] in Hc3.
  split; [congruence|].
  unfold live_samples. rewrite Hc4, Hc3. reflexivity.
Qed.

Lemma add_particles_count fuel (mp : map_t D) n st st' :
  add_particles fuel mp n st = Ret st' ->
  sample_count (fst (fst st')) = sample_count (fst (fst st)) + Z.max 0 n.
Proof.
  unfold add_particles. intros H.
  replace (Z.max 0 n) with (Z.max 0 n - 0) by lia.
  eapply (for_ind (fun i t => sample_count (fst (fst t)) = sample_count (fst (fst st)) + (i - 0)));
    [exact H | lia |].
  intros j [[sb total] rr] t' Hj Hinv Hb. cbn [fst snd] in Hinv.
  bind_inv Hb as d Hd. destruct d as [tmp r'].
  bind_inv Hb as sb' Hpush. ret_inv Hb.
  apply push_sample_spec in Hpush. destruct Hpush as ((_ & Hc & _) & _).
  cbn [fst snd kd_insert with_kdtree sample_count length] in *. lia.
Qed.

(** X16: [pf_update_resample_addParticle(pf, nPartToAdd, map)] with
    [nPartToAdd >= 0] leaves at most [max_samples - nPartToAdd] resampled
    poses, copies of poses of the source set, followed by exactly
    [nPartToAdd] injected poses, each in a free cell of the map. *)
Theorem pf_update_resample_addParticle_count fuel pf nPartToAdd (mp : map_t D) r pf' :
  pf_update_resample_addParticle fuel pf nPartToAdd mp r = Ret pf' ->
  0 <= nPartToAdd ->
  exists l1 l2,
    map pose (live_samples (current pf')) = l1 ++ l2 /\
    Forall (from_source (current pf)) l1 /\
    Forall (in_free_cell mp) l2 /\
    length l2 = Z.to_nat nPartToAdd /\
    Z.of_nat (length l1) <= Z.max 0 (max_samples pf - nPartToAdd) /\
    sample_count (current pf') = Z.of_nat (length l1) + nPartToAdd.
Proof.
  intros H Hn. assert (Hspec := H). apply pf_update_resample_addParticle_spec in Hspec.
  destruct Hspec as (Hcs & _ & _).
  unfold pf_update_resample_addParticle in H.
  bind_inv H as set_a Ha. bind_inv H as set_b Hb. bind_inv H as randlist Hrl.
  bind_inv H as st1 Hloop. bind_inv H as st2 Hinj. destruct st2 as [[set_b2 total2] r2].
  bind_inv H as set_b3 Hnorm. bind_inv H as set_b4 Hcl. ret_inv H.
  destruct (get_sets_Ret _ _ _ Ha Hb) as (_ & Hr & -> & ->). rewrite Hr in *.
  destruct (flip_frame pf set_b4 Hcs) as (_ & _ & -> & _).
  apply pf_cluster_stats_live in Hcl. destruct Hcl as (Hl4 & Hc4).
  apply normalize_weights_spec in Hnorm. destruct Hnorm as (Hc3 & _ & _ & Hl3).
  cbn [fst snd] in Hc3, Hl3.
  assert (Hcount := Hloop). apply resample_loop_count in Hcount.
  cbn [fst snd sample_count with_sample_count] in Hcount. destruct Hcount as (_ & Hle & _).
  assert (Hadd := Hinj). apply add_particles_count in Hadd. cbn [fst snd] in Hadd.
  apply resample_loop_grown in Hloop; [|apply reset_wf].
  assert (Hwf := grown_wf _ _ _ _ Hloop).
  apply add_particles_grown in Hinj; [|exact Hwf].
  destruct Hloop as (l1 & (A1 & A2 & _ & _) & Hl1 & _).
  destruct Hinj as (l2 & (B1 & B2 & _ & _) & Hl2 & _).
  cbn [fst snd] in *. rewrite live_samples_reset in A1.
  cbn [sample_count with_sample_count app] in A1, A2.
  exists (map pose l1), (map pose l2). rewrite !length_map.
  split; [rewrite Hl4, Hl3, map_pose_scale, B1, A1, map_app; reflexivity|].
  split; [apply unit_weight_poses; assumption|].
  split; [apply unit_weight_poses; assumption|].
  split; [lia|]. split; [lia|]. lia.
Qed.

Lemma build_randlist_returns set :
  sample_count set <= Z.of_nat (length (samples set)) ->
  build_randlist set = Ret (map weight (live_samples set)).
Proof.
  intros Hn. unfold build_randlist.
  destruct (for_returns
              (fun j (l : list D) => l = map weight (firstn (Z.to_nat j) (samples set)))
              0 (sample_count set)
              (fun i l => sample <- aread (samples set) i ;; Ret (l ++ [weight sample]))
              []) as (l & Hl & HI).
  - reflexivity.
  - intros j t Hj ->. destruct (aread_in_range (samples set) j) as (sample & Hrd); [lia|].
    rewrite Hrd. cbn [bind]. eexists. split; [reflexivity|].
    apply aread_Ret in Hrd. destruct Hrd as (_ & Hnth).
    replace (Z.to_nat (j + 1)) with (S (Z.to_nat j)) by lia.
    rewrite (firstn_snoc_nth _ _ _ Hnth), map_app. reflexivity.
  - rewrite Hl, HI. unfold live_samples. do 3 f_equal. lia.
Qed.

Lemma live_samples_nth set i s :
  0 <= i < sample_count set -> nth_error (samples set) (Z.to_nat i) = Some s ->
  In s (live_samples set).
Proof.
  intros Hi Hn. unfold live_samples.
  assert (Hs : (Z.to_nat i < length (samples set))%nat) by (apply nth_error_Some; congruence).
  rewrite <- (firstn_skipn (Z.to_nat (sample_count set)) (samples set)) in Hn.
  rewrite nth_error_app1 in Hn; [eapply nth_error_In; eauto|].
  rewrite length_firstn; lia.
Qed.

Lemma resample_step_returns pf set_a randlist set_b total r :
  sample_count set_a <= Z.of_nat (length (samples set_a)) ->
  (let i := fst (pf_pdf_discrete_sample r (sample_count set_a) randlist) in
   0 <= i < sample_count set_a) ->
  Forall (fun s => d_ltb d_zero (weight s) = true) (live_samples set_a) ->
  0 <= sample_count set_b < Z.of_nat (length (samples set_b)) ->
  exists brk set_b' total' r',
    resample_step pf set_a randlist (set_b, total, r) = Ret (brk, (set_b', total', r')) /\
    sample_count set_b' = sample_count set_b + 1 /\
    length (samples set_b') = length (samples set_b) /\
    cluster_max_count set_b' = cluster_max_count set_b /\
    clusters set_b' = clusters set_b.
Proof.
  intros Ha Hi Hw Hb. unfold resample_step. cbv zeta in Hi.
  destruct (pf_pdf_discrete_sample r (sample_count set_a) randlist) as [i r1].
  cbn [fst] in Hi.
  destruct (aread_in_range (samples set_a) i) as (sample_a & Hrd); [lia|].
  rewrite Hrd. cbn [bind].
  assert (Hpos : d_ltb d_zero (weight sample_a) = true).
  { apply aread_Ret in Hrd. destruct Hrd as (_ & Hn).
    rewrite Forall_forall in Hw. apply Hw. eapply live_samples_nth; eauto. }
  rewrite Hpos. cbn [assert_ bind]. unfold push_sample.
  rewrite awrite_in_range by lia. cbn [bind].
  do 4 eexists. split; [reflexivity|].
  cbn [sample_count samples cluster_max_count clusters kd_insert with_kdtree
       with_sample_count with_samples].
  rewrite upd_length. auto.
Qed.

Lemma resample_loop_returns pf set_a randlist bound fuel :
  sample_count set_a <= Z.of_nat (length (samples set_a)) ->
  (forall r, let i := fst (pf_pdf_discrete_sample r (sample_count set_a) randlist) in
             0 <= i < sample_count set_a) ->
  Forall (fun s => d_ltb d_zero (weight s) = true) (live_samples set_a) ->
  forall set_b total r,
    0 <= sample_count set_b ->
    bound <= Z.of_nat (length (samples set_b)) ->
    Z.max 0 (bound - sample_count set_b) < Z.of_nat fuel ->
    exists st',
      resample_loop fuel pf set_a randlist bound (set_b, total, r) = Ret st' /\
      cluster_max_count (fst (fst st')) = cluster_max_count set_b /\
      clusters (fst (fst st')) = clusters set_b.
Proof.
  intros Ha Hi Hw. unfold resample_loop.
  induction fuel as [|f IH]; intros set_b total r H0 Hb Hf; [lia|].
  cbn [while_]. destruct (Z.ltb_spec (sample_count set_b) bound) as [Hlt|Hge].
  - destruct (resample_step_returns pf set_a randlist set_b total r Ha (Hi r) Hw)
      as (brk & sb' & t' & r' & Hstep & Hc & Hlen & Hm & Hcl); [lia|].
    rewrite Hstep. cbn [bind]. destruct brk.
    + eexists. split; [reflexivity|]. cbn [fst]. auto.
    + destruct (IH sb' t' r') as (st' & Hst & Hm' & Hcl'); [lia | lia | lia |].
      exists st'. split; [assumption|]. split; congruence.
  - eexists. split; [reflexivity|]. cbn [fst]. auto.
Qed.

Lemma normalize_weights_returns set total :
  sample_count set <= Z.of_nat (length (samples set)) ->
  exists set', normalize_weights set total = Ret set'.
Proof.
  intros Hn. unfold normalize_weights.
  destruct (for_returns
              (fun _ (t : pf_sample_set_t) => length (samples t) = length (samples set))
              0 (sample_count set)
              (fun i set_b =>
                 sample_b <- aread (samples set_b) i ;;
                 l <- awrite (samples set_b) i
                        (mk_sample (pose sample_b) (d_div (weight sample_b) total)) ;;
                 Ret (with_samples set_b l)) set) as (s' & Hs & _).
  - reflexivity.
  - intros j t Hj Hlen.
    destruct (aread_in_range (samples t) j) as (sample & Hrd); [lia|].
    rewrite Hrd. cbn [bind]. rewrite awrite_in_range by lia. cbn [bind].
    eexists. split; [reflexivity|]. simpl. rewrite upd_length. assumption.
  - eauto.
Qed.

Lemma resample_loop_filled fuel pf set_a randlist bound (kd : kdtree_t) st st' :
  resample_loop fuel pf set_a randlist bound st = Ret st' ->
  sample_count (fst (fst st)) <= Z.of_nat (length (samples (fst (fst st)))) ->
  kdtree (fst (fst st)) = refilled kd d_one (map pose (live_samples (fst (fst st)))) ->
  kdtree (fst (fst st')) = refilled kd d_one (map pose (live_samples (fst (fst st')))).
Proof.
  unfold resample_loop. intros H Hwf Hkd.
  set (Q := fun t : pf_sample_set_t * D * rng =>
              sample_count (fst (fst t)) <= Z.of_nat (length (samples (fst (fst t)))) /\
              kdtree (fst (fst t))
              = refilled kd d_one (map pose (live_samples (fst (fst t))))).
  enough (HQ : Q st') by apply HQ.
  eapply (while_inv Q); [exact H | split; assumption |].
  intros [[sb total] rr] brk [[sb' total'] rr'] _ (Q1 & Q2) Hb. cbn [fst] in Q1, Q2.
  unfold resample_step in Hb.
  destruct (pf_pdf_discrete_sample rr (sample_count set_a) randlist) as [i r1].
  bind_inv Hb as sample_a Hrd. bind_inv Hb as u Has. bind_inv Hb as sb1 Hpush.
  injection Hb as _ Hsb _ _. subst sb'.
  apply push_sample_spec in Hpush. destruct Hpush as ((E1 & E2 & E3 & E4) & (F1 & _) & _).
  unfold Q. cbn [fst]. split.
  - cbn [kd_insert with_kdtree sample_count samples]. assumption.
  - change (live_samples (kd_insert sb1 (pose sample_a) d_one)) with (live_samples sb1).
    rewrite E1, map_app. cbn [map pose]. rewrite refilled_snoc, <- Q2, <- F1. reflexivity.
Qed.

Lemma pf_update_resample_total fuel pf nMaxParticles r :
  (current_set pf = 0 \/ current_set pf = 1) ->
  sample_count (current pf) <= Z.of_nat (length (samples (current pf))) ->
  (forall r', let i := fst (pf_pdf_discrete_sample r' (sample_count (current pf))
                              (map weight (live_samples (current pf)))) in
              0 <= i < sample_count (current pf)) ->
  Forall (fun s => d_ltb d_zero (weight s) = true) (live_samples (current pf)) ->
  nMaxParticles <= Z.of_nat (length (samples (scratch pf))) ->
  cluster_max_count (scratch pf) <= Z.of_nat (length (clusters (scratch pf))) ->
  labels_poses (kdtree (scratch pf)) (Z.max 0 nMaxParticles) ->
  Z.max 0 nMaxParticles < Z.of_nat fuel ->
  exists pf',
    pf_update_resample fuel pf nMaxParticles r = Ret pf' /\
    sample_count (current pf') <= Z.max 0 nMaxParticles.
Proof.
  intros Hcs Ha Hi Hw Hcap Hcl Hlab Hfuel.
  assert (Hex : exists pf', pf_update_resample fuel pf nMaxParticles r = Ret pf').
  { unfold pf_update_resample.
    apply (bind_returns _ _ _ (get_set_current pf Hcs)).
    assert (Hgb : get_set pf (Z.rem (current_set pf + 1) 2) = Ret (scratch pf)).
    { unfold get_set, scratch. destruct Hcs as [Hc|Hc]; rewrite Hc; reflexivity. }
    apply (bind_returns _ _ _ Hgb).
    apply (bind_returns _ _ _ (build_randlist_returns _ Ha)). cbv zeta.
    set (sb0 := with_sample_count (with_kdtree (scratch pf) _) 0).
    destruct (resample_loop_returns pf (current pf) (map weight (live_samples (current pf)))
                nMaxParticles fuel Ha Hi Hw sb0 d_zero r)
      as ([[sb1 t1] r1] & Hloop & Hm1 & Hc1); [simpl; lia | simpl; lia | simpl; lia |].
    apply (bind_returns _ _ _ Hloop). cbv beta iota.
    assert (Hkd : kdtree sb1 = refilled (kdtree (scratch pf)) d_one (map pose (live_samples sb1))).
    { apply (resample_loop_filled _ _ _ _ _ (kdtree (scratch pf)) _ _ Hloop);
        [apply reset_wf | reflexivity]. }
    assert (Hcount := Hloop). apply resample_loop_count in Hcount.
    cbn [fst snd sample_count sb0 with_sample_count] in Hcount.
    destruct Hcount as (Hc0 & Hcmax & _).
    assert (Hwf : sample_count sb1 <= Z.of_nat (length (samples sb1))).
    { apply resample_loop_grown in Hloop; [|apply reset_wf].
      apply (grown_wf _ _ _ _ Hloop). }
    destruct (normalize_weights_returns sb1 t1 Hwf) as (sb3 & Hnorm).
    apply (bind_returns _ _ _ Hnorm).
    apply normalize_weights_spec in Hnorm.
    destruct Hnorm as (Hc3 & (Hk3 & _ & Hm3 & Hcl3) & Hlen3 & Hl3).
    cbn [fst] in Hm1, Hc1.
    destruct (pf_cluster_stats_returns sb3) as (sb4 & Hst).
    - rewrite Hm3, Hcl3, Hm1, Hc1. exact Hcl.
    - rewrite Hc3, Hlen3. exact Hwf.
    - intros s Hin. rewrite Hk3, Hkd. apply Hlab.
      + rewrite length_map. unfold live_samples. rewrite length_firstn. lia.
      + rewrite Hl3 in Hin. apply in_map_iff in Hin. destruct Hin as (s1 & <- & Hin).
        cbn [scale_weight pose]. apply in_map. assumption.
    - apply (bind_returns _ _ _ Hst). eauto. }
  destruct Hex as (pf' & Hrun). exists pf'. split; [assumption|].
  apply pf_update_resample_count in Hrun. lia.
Qed.

(** X15: [pf_update_resample(pf, nMaxParticles)] returns, with no failed
    assertion and no access outside an array, whenever the current set
    holds no more samples than its array and only positive weights, the
    discrete sampler yields indices of that set, [nMaxParticles] is within
    the array of the other set, the clusters of the other set are within
    their array and the histogram of the other set has room for
    [nMaxParticles] poses (it labels every pose it has been filled with).
    The fuel is the bound of the model on the iterations of the loop. *)
Theorem pf_update_resample_returns fuel pf nMaxParticles r :
  (current_set pf = 0 \/ current_set pf = 1) ->
  sample_count (current pf) <= Z.of_nat (length (samples (current pf))) ->
  (forall r', let i := fst (pf_pdf_discrete_sample r' (sample_count (current pf))
                              (map weight (live_samples (current pf)))) in
              0 <= i < sample_count (current pf)) ->
  Forall (fun s => d_ltb d_zero (weight s) = true) (live_samples (current pf)) ->
  nMaxParticles <= Z.of_nat (length (samples (scratch pf))) ->
  cluster_max_count (scratch pf) <= Z.of_nat (length (clusters (scratch pf))) ->
  labels_poses (kdtree (scratch pf)) (Z.max 0 nMaxParticles) ->
  Z.max 0 nMaxParticles < Z.of_nat fuel ->
  exists pf',
    pf_update_resample fuel pf nMaxParticles r = Ret pf' /\
    sample_count (current pf') <= Z.max 0 nMaxParticles.
Proof. apply pf_update_resample_total. Qed.

Lemma MAP_INDEX_range (mp : map_t D) i j :
  MAP_VALID mp i j = true -> 0 <= MAP_INDEX mp i j < size_x mp * size_y mp.
Proof.
  unfold MAP_VALID, MAP_INDEX. intros H.
  apply andb_prop in H. destruct H as [H Hj2]. apply andb_prop in H. destruct H as [H Hj1].
  apply andb_prop in H. destruct H as [Hi1 Hi2].
  apply Z.leb_le in Hi1, Hj1. apply Z.ltb_lt in Hi2, Hj2. nia.
Qed.

(** X19: the index [MAP_INDEX] gives a cell that [MAP_VALID] accepts is
    within [0, size_x * size_y), and two such cells with the same index
    are the same cell. *)
Theorem MAP_INDEX_of_valid_cells (mp : map_t D) i j i' j' :
  MAP_VALID mp i j = true -> MAP_VALID mp i' j' = true ->
  0 <= MAP_INDEX mp i j < size_x mp * size_y mp /\
  (MAP_INDEX mp i j = MAP_INDEX mp i' j' -> i = i' /\ j = j').
Proof.
  intros H H'. split; [apply MAP_INDEX_range; assumption|].
  unfold MAP_VALID, MAP_INDEX in *.
  apply andb_prop in H. destruct H as [H Hj2]. apply andb_prop in H. destruct H as [H Hj1].
  apply andb_prop in H. destruct H as [Hi1 Hi2].
  apply andb_prop in H'. destruct H' as [H' Hj2']. apply andb_prop in H'. destruct H' as [H' Hj1'].
  apply andb_prop in H'. destruct H' as [Hi1' Hi2'].
  apply Z.leb_le in Hi1, Hj1, Hi1', Hj1'. apply Z.ltb_lt in Hi2, Hj2, Hi2', Hj2'.
  intros Heq. assert (j = j') by nia. subst j'. split; [lia | reflexivity].
Qed.

(** X20: when the array of cells holds [size_x * size_y] cells, the check
    of a pose against the map (cell computed with [MAP_GXWX], [MAP_GYWY],
    then [MAP_VALID] and the read of [occ_state]) reads inside the array,
    for every pose and in every arithmetic of the doubles; a pose it
    accepts is within the bounds of the map. *)
Theorem free_cell_check_in_bounds (mp : map_t D) (p : pf_vector_t D) :
  size_x mp * size_y mp <= Z.of_nat (length (cells mp)) ->
  exists b, free_cell_check mp p = Ret b /\
            (b = true -> valid_cell_check mp p = true).
Proof.
  intros Hlen. unfold free_cell_check, valid_cell_check. cbv zeta.
  destruct (MAP_VALID mp _ _) eqn:Hv.
  - apply MAP_INDEX_range in Hv.
    destruct (aread_in_range (cells mp) _ (conj (proj1 Hv) (Z.lt_le_trans _ _ _ (proj2 Hv) Hlen)))
      as (c & Hc).
    rewrite Hc. cbn [bind]. eauto.
  - exists false. split; [reflexivity | discriminate].
Qed.

Lemma fold_left_snoc {A B} (f : A -> B -> A) l b a :
  fold_left f (l ++ [b]) a = f (fold_left f l a) b.
Proof. rewrite fold_left_app. reflexivity. Qed.

Lemma cep_loop set st :
  for_ 0 (sample_count set)
    (fun i '(mn, mx, my, mrr) =>
       sample <- aread (samples set) i ;;
       let w := weight sample in
       let p := pose sample in
       let mrr := d_add mrr (d_mul (d_mul w (v0 p)) (v0 p)) in
       let mrr := d_add mrr (d_mul (d_mul w (v1 p)) (v1 p)) in
       Ret (d_add mn w, d_add mx (d_mul w (v0 p)), d_add my (d_mul w (v1 p)), mrr))
    (d_zero, d_zero, d_zero, d_zero) = Ret st ->
  st = fold_left
         (fun '(mn, mx, my, mrr) s =>
            (d_add mn (weight s),
             d_add mx (d_mul (weight s) (v0 (pose s))),
             d_add my (d_mul (weight s) (v1 (pose s))),
             d_add (d_add mrr (d_mul (d_mul (weight s) (v0 (pose s))) (v0 (pose s))))
                   (d_mul (d_mul (weight s) (v1 (pose s))) (v1 (pose s)))))
         (live_samples set) (d_zero, d_zero, d_zero, d_zero).
Proof.
  intros H.
  set (g := fun '(mn, mx, my, mrr) (s : pf_sample_t D) =>
            (d_add mn (weight s),
             d_add mx (d_mul (weight s) (v0 (pose s))),
             d_add my (d_mul (weight s) (v1 (pose s))),
             d_add (d_add mrr (d_mul (d_mul (weight s) (v0 (pose s))) (v0 (pose s))))
                   (d_mul (d_mul (weight s) (v1 (pose s))) (v1 (pose s))))).
  assert (HI : st = fold_left g (firstn (Z.to_nat (Z.max 0 (sample_count set))) (samples set))
                      (d_zero, d_zero, d_zero, d_zero)).
  { eapply (for_ind (fun i t => t = fold_left g (firstn (Z.to_nat i) (samples set))
                                      (d_zero, d_zero, d_zero, d_zero)));
      [exact H | reflexivity |].
    intros j [[[mn mx] my] mrr] t' Hj Hinv Hb.
    bind_inv Hb as sample Hrd. ret_inv Hb. apply aread_Ret in Hrd. destruct Hrd as (_ & Hn).
    replace (Z.to_nat (j + 1)) with (S (Z.to_nat j)) by lia.
    rewrite (firstn_snoc_nth _ _ _ Hn), fold_left_snoc, <- Hinv. reflexivity. }
  rewrite HI. unfold live_samples. do 2 f_equal. lia.
Qed.

Lemma init_map_draw_heading fuel (mp : map_t D) st tmp r :
  do_while fuel (init_map_draw mp) st = Ret (tmp, r) -> v2 tmp = d_zero.
Proof.
  intros H. apply do_while_last in H. destruct H as ([t0 r0] & H).
  unfold init_map_draw in H.
  destruct (gsl_rng_uniform_pos r0) as [u0 r1].
  destruct (gsl_rng_uniform_pos r1) as [u1 r2].
  bind_inv H as c Hc. injection H as _ Ht _. subst tmp. reflexivity.
Qed.

(** X2: after [pf_init_map] every sample has the heading 0.0, and a
    position in a free cell of the map. *)
Theorem pf_init_map_heading_zero fuel pf (mp : map_t D) r pf' :
  pf_init_map fuel pf mp r = Ret pf' ->
  Forall (fun s => v2 (pose s) = d_zero /\ in_free_cell mp (pose s))
         (live_samples (current pf')).
Proof.
  unfold pf_init_map. intros H.
  apply init_with_spec with (P := fun p => v2 p = d_zero /\ in_free_cell mp p) in H.
  - destruct H as (_ & _ & HF & _). eapply Forall_impl; [|exact HF].
    intros s [_ Hp]. exact Hp.
  - intros s p s' Hd. split.
    + eapply init_map_draw_heading; eauto.
    + eapply init_map_draw_free; eauto.
Qed.

Lemma map_injection_loop_count fuel pf (mp : map_t D) n :
  forall i st st',
    for_while n i
      (fun '(set_b, _, _) => sample_count set_b <? max_samples pf)
      (fun i '(set_b, total, r) =>
         '(tmp, r) <- do_while fuel (map_draw mp) (pf_vector_zero, r) ;;
         set_b <- push_sample set_b tmp ;;
         let total := d_add total d_one in
         Ret (kd_insert set_b tmp d_one, total, r)) st = Ret st' ->
    sample_count (fst (fst st'))
    = Z.max (sample_count (fst (fst st)))
            (Z.min (max_samples pf) (sample_count (fst (fst st)) + Z.of_nat n)).
Proof.
  induction n as [|n IH]; intros i [[sb total] r] st' H; cbn [for_while] in H.
  - ret_inv H. cbn [fst]. lia.
  - cbn [fst]. destruct (Z.ltb_spec (sample_count sb) (max_samples pf)) as [Hlt|Hge].
    + bind_inv H as t1 Hb. bind_inv Hb as d Hd. destruct d as [tmp r'].
      bind_inv Hb as sb' Hpush. ret_inv Hb.
      apply push_sample_spec in Hpush. destruct Hpush as ((_ & Hc & _) & _).
      apply IH in H. cbn [fst kd_insert with_kdtree sample_count length] in *. lia.
    + ret_inv H. cbn [fst]. lia.
Qed.

Lemma map_injection_count fuel pf (mp : map_t D) st st' :
  map_injection fuel pf mp st = Ret st' ->
  sample_count (fst (fst st'))
  = if sample_count (fst (fst st)) <? min_samples pf + 10
    then Z.max (sample_count (fst (fst st)))
               (Z.min (max_samples pf) (sample_count (fst (fst st)) + 100))
    else sample_count (fst (fst st)).
Proof.
  unfold map_injection. destruct st as [[sb total] r]. cbn [fst]. intros H.
  destruct (sample_count sb <? min_samples pf + 10).
  - apply map_injection_loop_count in H. cbn [fst] in H. exact H.
  - ret_inv H. reflexivity.
Qed.

(** X17: [pf_update_resample_map] leaves [n1] resampled poses, at most
    [max_samples - overHead_samples] of them, followed by injected poses
    in free cells.  When [n1 < min_samples + 10] the injection runs until
    the set holds [max_samples] samples or 100 have been injected;
    otherwise nothing is injected. *)
Theorem pf_update_resample_map_refill fuel pf (mp : map_t D) r pf' :
  pf_update_resample_map fuel pf mp r = Ret pf' ->
  exists l1 l2,
    map pose (live_samples (current pf')) = l1 ++ l2 /\
    Forall (from_source (current pf)) l1 /\
    Forall (in_free_cell mp) l2 /\
    Z.of_nat (length l1) <= Z.max 0 (max_samples pf - overHead_samples pf) /\
    sample_count (current pf') = Z.of_nat (length l1) + Z.of_nat (length l2) /\
    sample_count (current pf')
    = if Z.of_nat (length l1) <? min_samples pf + 10
      then Z.max (Z.of_nat (length l1)) (Z.min (max_samples pf) (Z.of_nat (length l1) + 100))
      else Z.of_nat (length l1).
Proof.
  intros H. assert (Hspec := H). apply pf_update_resample_map_spec in Hspec.
  destruct Hspec as (Hcs & _ & _).
  unfold pf_update_resample_map in H.
  bind_inv H as set_a Ha. bind_inv H as set_b Hb. bind_inv H as randlist Hrl.
  bind_inv H as st1 Hloop. bind_inv H as st2 Hinj. destruct st2 as [[set_b2 total2] r2].
  bind_inv H as set_b3 Hnorm. bind_inv H as set_b4 Hcl. ret_inv H.
  destruct (get_sets_Ret _ _ _ Ha Hb) as (_ & Hr & -> & ->). rewrite Hr in *.
  destruct (flip_frame pf set_b4 Hcs) as (_ & _ & -> & _).
  apply pf_cluster_stats_live in Hcl. destruct Hcl as (Hl4 & Hc4).
  apply normalize_weights_spec in Hnorm. destruct Hnorm as (Hc3 & _ & _ & Hl3).
  cbn [fst snd] in Hc3, Hl3.
  assert (Hcount := Hloop). apply resample_loop_count in Hcount.
  cbn [fst snd sample_count with_sample_count] in Hcount. destruct Hcount as (_ & Hle & _).
  assert (Hadd := Hinj). apply map_injection_count in Hadd. cbn [fst snd] in Hadd.
  apply resample_loop_grown in Hloop; [|apply reset_wf].
  assert (Hwf := grown_wf _ _ _ _ Hloop).
  apply map_injection_grown in Hinj; [|exact Hwf].
  destruct Hloop as (l1 & (A1 & A2 & _ & _) & Hl1 & _).
  destruct Hinj as (l2 & (B1 & B2 & _ & _) & Hl2 & _).
  cbn [fst snd] in *. rewrite live_samples_reset in A1.
  cbn [sample_count with_sample_count app] in A1, A2.
  exists (map pose l1), (map pose l2). rewrite !length_map.
  split; [rewrite Hl4, Hl3, map_pose_scale, B1, A1, map_app; reflexivity|].
  split; [apply unit_weight_poses; assumption|].
  split; [apply unit_weight_poses; assumption|].
  rewrite Hc4, Hc3. rewrite A2 in *. cbn [Z.add] in *.
  split; [lia|]. split; [lia|]. exact Hadd.
Qed.

Lemma flip_fields pf pf' :
  (current_set pf = 0 \/ current_set pf = 1) ->
  (exists set_b', pf' = with_current_set (put_set pf (1 - current_set pf) set_b')
                                          (1 - current_set pf)) ->
  min_samples pf' = min_samples pf /\ max_samples pf' = max_samples pf /\
  overHead_samples pf' = overHead_samples pf /\
  pop_err pf' = pop_err pf /\ pop_z pf' = pop_z pf.
Proof. intros Hcs (sb & ->). destruct (flip_frame pf sb Hcs) as (_ & _ & _ & H). exact H. Qed.

Lemma flip_both_fields pf pf' :
  (current_set pf = 0 \/ current_set pf = 1) ->
  (exists set_a' set_b',
      pf' = with_current_set
              (put_set (put_set pf (current_set pf) set_a') (1 - current_set pf) set_b')
              (1 - current_set pf)) ->
  min_samples pf' = min_samples pf /\ max_samples pf' = max_samples pf /\
  overHead_samples pf' = overHead_samples pf /\
  pop_err pf' = pop_err pf /\ pop_z pf' = pop_z pf.
Proof.
  intros Hcs (sa & sb & ->). destruct (flip_both pf sa sb Hcs) as (_ & _ & _ & H). exact H.
Qed.

(** X6: no initialisation and no resampler changes [min_samples],
    [max_samples], [overHead_samples], [pop_err] or [pop_z]; the KLD
    limit of the filter is the same function after the call. *)
Theorem run_call_keeps_parameters fuel pf (c : pf_call D) r pf' :
  run_call fuel pf c r = Ret pf' ->
  min_samples pf' = min_samples pf /\ max_samples pf' = max_samples pf /\
  overHead_samples pf' = overHead_samples pf /\
  pop_err pf' = pop_err pf /\ pop_z pf' = pop_z pf /\
  forall k, pf_resample_limit pf' k = pf_resample_limit pf k.
Proof.
  intros H.
  assert (Hf : min_samples pf' = min_samples pf /\ max_samples pf' = max_samples pf /\
               overHead_samples pf' = overHead_samples pf /\
               pop_err pf' = pop_err pf /\ pop_z pf' = pop_z pf).
  { destruct c; cbn [run_call] in H.
    - destruct (init_with_frame _ _ _ _ H) as (_ & s & ->). apply put_set_fields.
    - destruct (init_with_frame _ _ _ _ H) as (_ & s & ->). apply put_set_fields.
    - destruct (init_with_frame _ _ _ _ H) as (_ & s & ->). apply put_set_fields.
    - destruct (init_with_frame _ _ _ _ H) as (_ & s & ->). apply put_set_fields.
    - apply pf_update_resample_spec in H. destruct H as (Hcs & Hsh & _).
      apply flip_fields; assumption.
    - apply pf_update_resample_map_spec in H. destruct H as (Hcs & Hsh & _).
      apply flip_fields; assumption.
    - apply pf_update_resample_addParticle_spec in H. destruct H as (Hcs & Hsh & _).
      apply flip_fields; assumption.
    - apply pf_update_resample_hyps_spec in H. destruct H as (Hcs & Hsh & _).
      apply flip_fields; assumption.
    - apply pf_update_resample_hyps_2_spec in H. destruct H as (Hcs & Hsh & _).
      apply flip_both_fields; assumption.
    - apply pf_update_resample_hyps_3_spec in H. destruct H as (Hcs & Hsh & _).
      apply flip_both_fields; assumption. }
  destruct Hf as (H1 & H2 & H3 & H4 & H5).
  repeat (split; [assumption|]).
  intros k. unfold pf_resample_limit. rewrite H1, H2, H4, H5. reflexivity.
Qed.

(** ** A filter as pf_alloc makes it *)

Lemma pf_alloc_shape mn mx oh :
  let pf := pf_alloc mn mx oh : pf_t in
  current_set pf = 0 /\ max_samples pf = mx /\
  sample_count (current pf) = mx /\ sample_count (scratch pf) = mx /\
  length (samples (current pf)) = Z.to_nat mx /\
  length (samples (scratch pf)) = Z.to_nat mx /\
  cluster_max_count (current pf) = 100 /\ length (clusters (current pf)) = 100%nat /\
  cluster_max_count (scratch pf) = 100 /\ length (clusters (scratch pf)) = 100%nat.
Proof.
  unfold pf_alloc, current, scratch.
  cbn [current_set max_samples set0 set1 sample_count samples cluster_max_count clusters Z.eqb].
  rewrite !repeat_length. repeat split; reflexivity.
Qed.

(** X5: on the filter [pf_alloc] returns (for [max_samples >= 0]),
    [pf_init_model] returns, whatever the model, when the histogram
    [pf_alloc] has allocated has room for [max_samples] poses (it labels
    every pose it has been filled with); the set then holds [max_samples]
    samples, whose poses are those the model yields in order. *)
Theorem pf_alloc_then_init_model {I} mn mx oh (init_fn : I -> pf_vector_t D * I) init_data :
  0 <= mx ->
  labels_poses (pf_kdtree_alloc (3 * mx)) mx ->
  exists pf',
    pf_init_model (pf_alloc mn mx oh) init_fn init_data = Ret pf' /\
    sample_count (current pf') = mx /\
    map pose (live_samples (current pf')) = drawn init_fn (Z.to_nat mx) init_data.
Proof.
  intros Hmx Hlab.
  destruct (pf_alloc_shape mn mx oh) as (A1 & A2 & A3 & A4 & A5 & A6 & A7 & A8 & _).
  destruct (init_with_returns (pf_alloc mn mx oh) (fun d => Ret (init_fn d)) init_data)
    as (pf' & Hrun).
  - left. assumption.
  - rewrite A2, A5. lia.
  - rewrite A7, A8. lia.
  - intros s. destruct (init_fn s) as [p s']. eauto.
  - rewrite A2. exact Hlab.
  - exists pf'. unfold pf_init_model. split; [assumption|].
    assert (Ho := init_with_order _ _ _ _ Hrun).
    apply init_with_spec with (P := fun _ => True) in Hrun; [|auto].
    destruct Hrun as (_ & Hc & _). rewrite A2 in *. split; assumption.
Qed.
End Further.

(* ================================================================== *)
(** * Further properties, in real arithmetic *)
(* ================================================================== *)

Section FurtherReal.
Context {E : Env R}.
Implicit Types (pf : @pf_t R E) (set : @pf_sample_set_t R E).
Local Open Scope R_scope.

Lemma map_cell_of_centre (o s : R) (q i : Z) :
  s <> 0 ->
  R_to_int (IZR (Zfloor ((o + IZR (i - q) * s - o) / s + IZR 1 / IZR 2)) + IZR q) = i.
Proof.
  intros Hs.
  replace ((o + IZR (i - q) * s - o) / s) with (IZR (i - q)) by (field; assumption).
  rewrite (Zfloor_eq (i - q)) by lra.
  rewrite <- plus_IZR. rewrite R_to_int_IZR. lia.
Qed.


(** ** Sums over samples *)

Lemma squares_zero (b c : R) : b * b + c * c <= 0 -> b = 0 /\ c = 0.
Proof.
  intros H. apply Rplus_sqr_eq_0. unfold Rsqr. apply Rle_antisym; [assumption|].
  pose proof (Rle_0_sqr b). pose proof (Rle_0_sqr c). unfold Rsqr in *. lra.
Qed.

Lemma cep_sums_nonneg (l : list (pf_sample_t R)) :
  Forall (fun s => 0 <= weight s) l ->
  forall A B C Q, 0 <= A -> 0 <= Q -> B * B + C * C <= A * Q ->
  let '(A', B', C', Q') :=
    fold_left
      (fun '(mn, mx, my, mrr) s =>
         (mn + weight s, mx + weight s * v0 (pose s), my + weight s * v1 (pose s),
          mrr + weight s * v0 (pose s) * v0 (pose s) + weight s * v1 (pose s) * v1 (pose s)))
      l (A, B, C, Q) in
  0 <= A' /\ 0 <= Q' /\ B' * B' + C' * C' <= A' * Q' /\
  A' = fold_left (fun acc s => acc + weight s) l A /\
  B' = fold_left (fun acc s => acc + weight s * v0 (pose s)) l B /\
  C' = fold_left (fun acc s => acc + weight s * v1 (pose s)) l C.
Proof.
  induction 1 as [|s l Hw _ IH]; intros A B C Q HA HQ HC.
  - cbn [fold_left]. auto 10.
  - cbn [fold_left]. apply IH.
    + lra.
    + assert (0 <= weight s * v0 (pose s) * v0 (pose s)).
      { replace (weight s * v0 (pose s) * v0 (pose s))
          with (weight s * (v0 (pose s) * v0 (pose s))) by ring.
        apply Rmult_le_pos; [assumption | nra]. }
      assert (0 <= weight s * v1 (pose s) * v1 (pose s)).
      { replace (weight s * v1 (pose s) * v1 (pose s))
          with (weight s * (v1 (pose s) * v1 (pose s))) by ring.
        apply Rmult_le_pos; [assumption | nra]. }
      lra.
    + set (w := weight s) in *. set (x := v0 (pose s)). set (y := v1 (pose s)).
      clearbody w x y.
      assert (Hk : 2 * (B * x + C * y) <= A * (x * x + y * y) + Q).
      { clear IH. destruct (Req_dec A 0) as [HA0|HA0].
        - rewrite HA0 in *. destruct (squares_zero B C) as [-> ->]; lra.
        - assert (HAp : 0 < A) by lra.
          pose proof (Rle_0_sqr (A * x - B)) as H1.
          pose proof (Rle_0_sqr (A * y - C)) as H2. unfold Rsqr in H1, H2.
          assert (H3 : A * (2 * (B * x + C * y)) <= A * (A * (x * x + y * y) + Q)).
          { replace (A * (2 * (B * x + C * y)))
              with (A * A * (x * x + y * y) + (B * B + C * C)
                    - ((A * x - B) * (A * x - B) + (A * y - C) * (A * y - C))) by ring.
            replace (A * (A * (x * x + y * y) + Q)) with (A * A * (x * x + y * y) + A * Q) by ring.
            lra. }
          apply Rmult_le_reg_l with A; assumption. }
      replace ((B + w * x) * (B + w * x) + (C + w * y) * (C + w * y))
        with (B * B + C * C + w * (2 * (B * x + C * y)) + w * w * (x * x + y * y)) by ring.
      replace ((A + w) * (Q + w * x * x + w * y * y))
        with (A * Q + w * (A * (x * x + y * y) + Q) + w * w * (x * x + y * y)) by ring.
      assert (Hw3 : w * (2 * (B * x + C * y)) <= w * (A * (x * x + y * y) + Q)).
      { apply Rmult_le_compat_l; assumption. }
      lra.
Qed.


Lemma sum_weights_cons (s : pf_sample_t R) l :
  sum_weights (s :: l) = weight s + sum_weights l.
Proof.
  unfold sum_weights at 1. cbn [fold_left]. rewrite sum_weights_from.
  unfold d_zero. cbn [d_add d_of_int RealOps]. lra.
Qed.

Lemma sum_square_cons (s : pf_sample_t R) l :
  sum_square_weights (s :: l) = weight s * weight s + sum_square_weights l.
Proof.
  unfold sum_square_weights at 1. cbn [fold_left]. rewrite sum_square_from.
  unfold d_zero. cbn [d_add d_pow2 d_of_int RealOps]. lra.
Qed.

Lemma sum_weights_nil : sum_weights (D := R) [] = 0.
Proof. reflexivity. Qed.

Lemma sum_square_nil : sum_square_weights (D := R) [] = 0.
Proof. reflexivity. Qed.

Lemma sums_scaled (t : R) (l : list (pf_sample_t R)) :
  t <> 0 ->
  sum_weights (map (scale_weight t) l) = sum_weights l / t /\
  sum_square_weights (map (scale_weight t) l) = sum_square_weights l / (t * t).
Proof.
  intros Ht. induction l as [|s l [IH1 IH2]].
  - cbn [map]. rewrite sum_weights_nil, sum_square_nil. split; field; assumption.
  - cbn [map]. rewrite !sum_weights_cons, !sum_square_cons, IH1, IH2.
    cbn [scale_weight weight d_div RealOps]. split; field; assumption.
Qed.

Lemma sums_bounds (l : list (pf_sample_t R)) :
  Forall (fun s => 0 <= weight s) l ->
  0 <= sum_weights l /\ 0 <= sum_square_weights l /\
  sum_square_weights l <= sum_weights l * sum_weights l /\
  sum_weights l * sum_weights l <= INR (length l) * sum_square_weights l.
Proof.
  induction 1 as [|s l Hw _ (IH1 & IH2 & IH3 & IH4)].
  - rewrite sum_weights_nil, sum_square_nil. cbn [length INR]. lra.
  - rewrite sum_weights_cons, sum_square_cons.
    change (length (s :: l)) with (S (length l)). rewrite S_INR.
    set (w := weight s) in *. set (S0 := sum_weights l) in *.
    set (Q := sum_square_weights l) in *. set (n := INR (length l)) in *.
    assert (Hn : 0 <= n) by apply pos_INR.
    clearbody w S0 Q n.
    assert (Hww : 0 <= w * w) by (apply Rmult_le_pos; assumption).
    assert (HwS : 0 <= w * S0) by (apply Rmult_le_pos; assumption).
    split; [lra|]. split; [lra|]. split.
    + replace ((w + S0) * (w + S0)) with (w * w + 2 * (w * S0) + S0 * S0) by ring. lra.
    + assert (Hk : 2 * (w * S0) <= n * (w * w) + Q).
      { destruct (Req_dec n 0) as [Hn0|Hn0].
        - rewrite Hn0 in *. destruct (squares_zero S0 0) as [-> _]; lra.
        - assert (Hnp : 0 < n) by lra.
          pose proof (Rle_0_sqr (n * w - S0)) as H1. unfold Rsqr in H1.
          assert (H3 : n * (2 * (w * S0)) <= n * (n * (w * w) + Q)).
          { replace (n * (2 * (w * S0)))
              with (n * n * (w * w) + S0 * S0 - (n * w - S0) * (n * w - S0)) by ring.
            replace (n * (n * (w * w) + Q)) with (n * n * (w * w) + n * Q) by ring.
            lra. }
          apply Rmult_le_reg_l with n; assumption. }
      replace ((w + S0) * (w + S0)) with (w * w + 2 * (w * S0) + S0 * S0) by ring.
      replace ((n + 1) * (w * w + Q)) with (n * (w * w) + Q + w * w + n * Q) by ring.
      lra.
Qed.

End FurtherReal.

Section FurtherRealInt.
#[local] Existing Instance RealIntOps | 0.
Local Open Scope R_scope.

(** In this section the doubles are the real numbers and [(int) x] is the
    conversion of the machine, [R_to_int32]. *)
Lemma map_centre_of_cell (o s x : R) (q : Z) :
  0 < s ->
  IZR INT_MIN <= IZR (Zfloor ((x - o) / s + IZR 1 / IZR 2)) + IZR q <= IZR INT_MAX ->
  let c := R_to_int32 (IZR (Zfloor ((x - o) / s + IZR 1 / IZR 2)) + IZR q) in
  o + IZR (c - q) * s - s / 2 <= x < o + IZR (c - q) * s + s / 2.
Proof.
  intros Hs Hfit c. unfold c. clear c.
  rewrite <- plus_IZR in *. rewrite R_to_int32_IZR.
  rewrite int_of_integral_fits by (split; apply le_IZR; apply Hfit).
  replace (Zfloor ((x - o) / s + IZR 1 / IZR 2) + q - q)%Z
    with (Zfloor ((x - o) / s + IZR 1 / IZR 2)) by lia.
  destruct (Zfloor_bound ((x - o) / s + IZR 1 / IZR 2)) as [Hlo Hhi].
  set (n := IZR (Zfloor ((x - o) / s + IZR 1 / IZR 2))) in *.
  assert (Hq : (x - o) / s * s = x - o) by (field; lra).
  split.
  - assert (H1 : (n - 1 / 2) * s <= (x - o) / s * s) by (apply Rmult_le_compat_r; lra).
    lra.
  - assert (H1 : (x - o) / s * s < (n + 1 / 2) * s) by (apply Rmult_lt_compat_r; lra).
    lra.
Qed.

End FurtherRealInt.

Section FurtherRealCalls.
Context {E : Env R}.
Implicit Types (pf : @pf_t R E) (set : @pf_sample_set_t R E).

(** X25: in real arithmetic, on the filter [pf_alloc] returns for
    [max_samples > 0], [pf_init_model] followed by
    [pf_update_resample(pf, nMaxParticles)] with
    [nMaxParticles <= max_samples] both return, when the histogram
    [pf_alloc] allocates has room for [max_samples] poses (it labels every
    pose it has been filled with) and the discrete sampler yields an index
    below the number of weights it is given; the resampled set holds at
    most [nMaxParticles] samples, copies of poses of the initialised
    set. *)
Theorem alloc_init_resample_returns {I} mn mx oh (init_fn : I -> pf_vector_t R * I) init_data
    nMaxParticles fuel r :
  0 < mx -> nMaxParticles <= mx ->
  labels_poses (pf_kdtree_alloc (3 * mx)) mx ->
  (forall r' l, length l = Z.to_nat mx -> 0 <= fst (pf_pdf_discrete_sample r' mx l) < mx) ->
  Z.max 0 nMaxParticles < Z.of_nat fuel ->
  exists pf1 pf2,
    pf_init_model (pf_alloc mn mx oh) init_fn init_data = Ret pf1 /\
    pf_update_resample fuel pf1 nMaxParticles r = Ret pf2 /\
    0 <= sample_count (current pf2) <= Z.max 0 nMaxParticles /\
    Forall (from_source (current pf1)) (map pose (live_samples (current pf2))).
Proof.
  intros Hmx Hn Hlab Hsam Hfuel.
  destruct (pf_alloc_shape (E := E) mn mx oh)
    as (A1 & A2 & A3 & A4 & A5 & A6 & A7 & A8 & A9 & A10).
  destruct (init_with_returns (pf_alloc mn mx oh) (fun d => Ret (init_fn d)) init_data)
    as (pf1 & Hrun1).
  { left. assumption. }
  { rewrite A2, A5. lia. }
  { rewrite A7, A8. lia. }
  { intros s. destruct (init_fn s) as [p s']. eauto. }
  { rewrite A2. exact Hlab. }
  assert (Hfr := init_with_frame _ _ _ _ Hrun1). destruct Hfr as (Hcs & set' & Hpf1).
  destruct (current_put_set _ set' Hcs) as (_ & Hcur & Hscr). rewrite <- Hpf1 in Hcur, Hscr.
  assert (Hspec := Hrun1). apply init_with_spec with (P := fun _ => True) in Hspec; [|auto].
  destruct Hspec as (_ & Hc & HF & Hlen). rewrite A2 in *.
  assert (Hlive : length (live_samples (current pf1)) = Z.to_nat mx).
  { unfold live_samples. rewrite length_firstn, Hc. lia. }
  destruct (pf_update_resample_total fuel pf1 nMaxParticles r) as (pf2 & Hrun2 & _).
  - rewrite Hcur. assumption.
  - rewrite Hc. lia.
  - intros r'. cbv zeta. rewrite Hc. apply Hsam. rewrite length_map. assumption.
  - eapply Forall_impl; [|exact HF]. intros s [Hw _]. rewrite Hw.
    cbn [d_ltb d_div RealOps]. change (@d_zero R RealOps) with 0%R.
    change (@d_one R RealOps) with 1%R. cbn [d_of_int RealOps].
    apply R_ltb_true. apply Rdiv_lt_0_compat; [lra | apply IZR_lt; assumption].
  - rewrite Hscr, A6. lia.
  - rewrite Hscr, A9, A10. lia.
  - rewrite Hscr. apply (labels_poses_le _ mx); [lia | exact Hlab].
  - assumption.
  - exists pf1, pf2. split; [exact Hrun1|]. split; [exact Hrun2|].
    apply pf_update_resample_count in Hrun2. destruct Hrun2 as (H1 & _ & H3). auto.
Qed.
End FurtherRealCalls.

(* ================================================================== *)
(** * Runs on concrete filters *)
(* ================================================================== *)

(** ** Weights after a call *)
(** The witness of the calls on the real numbers comes from the lemmas
    that the calls return. *)
Lemma pf_pair_init_returns :
  exists pf', run_call 0 pf_pair (Call_init_model unit origin_fn tt) silent = Ret pf'.
Proof.
  apply (init_with_returns pf_pair (fun d => Ret (origin_fn d)) tt).
  - left. reflexivity.
  - vm_compute. discriminate.
  - vm_compute. discriminate.
  - intros s. unfold origin_fn. eauto.
  - intros w l _ p _. cbn. lia.
Qed.

(** An initialisation from a model, on the filter of two samples. *)
Lemma weights_normalized_witness :
  returned (run_call 0 pf_pair (Call_init_model unit origin_fn tt) silent)
    (fun pf' =>
       0 < sample_count (current pf') /\
       Forall (fun s => (0 <= weight s)%R) (live_samples (current pf')) /\
       sum_weights (live_samples (current pf')) = 1%R).
Proof.
  destruct pf_pair_init_returns as [pf' Hrun]. rewrite Hrun. cbn [returned].
  assert (Hpos : 0 < sample_count (current pf')).
  { assert (Hs := Hrun). cbn [run_call] in Hs. unfold pf_init_model in Hs.
    apply init_with_spec with (P := fun _ => True) in Hs; [|auto].
    destruct Hs as (_ & Hc & _). rewrite Hc. reflexivity. }
  split; [exact Hpos|].
  exact (weights_normalized 0 pf_pair _ silent pf' Hrun Hpos).
Defined.

(** [pf_update_resample(pf, 0)] returns with an empty current set: its
    weights add up to 0. *)
Lemma resample_none_not_normalized :
  returned (run_call 10 pf_fresh_real (Call_resample 0) silent)
    (fun pf' => live_samples (current pf') = [] /\
                sum_weights (live_samples (current pf')) <> 1%R).
Proof.
  apply (returned_impl _ (fun pf' => live_samples (current pf') = [])).
  - intros pf' Hl. split; [exact Hl|]. rewrite Hl. unfold sum_weights. simpl. lra.
  - vm_compute. reflexivity.
Qed.

(** [pf_update_resample_hyps_2] on a filter of at most 1000 samples: the
    bound [max_samples - 1000] of its loop lets no sample through. *)
Lemma hyps_2_small_filter_empties :
  returned (run_call 10 pf_fresh_real
              (Call_resample_hyps_2 (grid_2x2 (-1) (-1) (-1) (-1)) 1
                                    [hyp_at 0%R 0%R 1%R] 0) silent)
    (fun pf' => live_samples (current pf') = []).
Proof. vm_compute. reflexivity. Qed.

(** ** The KLD limit, in real arithmetic with the [int] of the machine *)
Section LimitRuns.
#[local] Existing Instance RealIntOps | 0.

(** The ceiling at a [k] for which [2 / (9 (k - 1))] is a square. *)
Lemma kld_ceiling_eq (z e : R) (k : Z) (t : R) (n : Z) :
  (0 <= t)%R -> (2 / (9 * (IZR k - 1)) = t * t)%R ->
  (IZR n - 1 < IZR (k - 1) / (2 * e) * (1 - t * t + t * z) * (1 - t * t + t * z)
               * (1 - t * t + t * z) <= IZR n)%R ->
  kld_ceiling z e k = n.
Proof.
  intros Ht Hb Hn. unfold kld_ceiling, kld_value. cbv zeta.
  rewrite (sqrt_of_square _ t Ht Hb), Hb. apply Zceil_eq. exact Hn.
Qed.

Lemma ceiling_3 : kld_ceiling 3 (1 / 100) 3 = 674.
Proof. apply (kld_ceiling_eq _ _ _ (1 / 3)); change (3 - 1) with 2; lra. Qed.

Lemma ceiling_9 : kld_ceiling 3 (1 / 100) 9 = 1277.
Proof. apply (kld_ceiling_eq _ _ _ (1 / 6)); change (9 - 1) with 8; lra. Qed.

(** At [k = 50000000] the KLD bound is above 2.4e9: its ceiling is no
    [int]. *)
Lemma ceiling_beyond_int : INT_MAX < kld_ceiling 3 (1 / 100) 50000000.
Proof.
  unfold kld_ceiling. apply lt_IZR.
  eapply Rlt_le_trans; [|apply Zceil_bound].
  unfold kld_value. cbv zeta. change (50000000 - 1) with 49999999.
  set (b := (2 / (9 * (50000000 - 1)))%R).
  assert (Hb : (0 <= b <= 1 / 100)%R) by (unfold b; lra).
  assert (Hs : (0 <= sqrt b)%R) by apply sqrt_pos.
  set (x := (1 - b + sqrt b * 3)%R).
  assert (Hx : (99 / 100 <= x)%R) by (unfold x; lra).
  assert (H2 : (99 / 100 * (99 / 100) <= x * x)%R) by (apply Rmult_le_compat; lra).
  assert (H3 : (99 / 100 * (99 / 100) * (99 / 100) <= x * x * x)%R)
    by (apply Rmult_le_compat; lra).
  replace (49999999 / (2 * (1 / 100)) * x * x * x)%R
    with (2499999950 * (x * x * x))%R by lra.
  unfold INT_MAX. lra.
Qed.

Lemma pf_large_real_bounds :
  INT_MIN <= min_samples pf_large_real <= max_samples pf_large_real.
Proof. unfold INT_MIN, pf_large_real, pf_alloc. cbn [min_samples max_samples]. lia. Qed.

Lemma pf_large_real_pop :
  pop_z pf_large_real = 3%R /\ pop_err pf_large_real = (1 / 100)%R.
Proof. split; reflexivity. Qed.


(** The two values next to the largest [int], on binary64: at
    [k = 42921873] the ceiling is an [int] above [max_samples], at
    [k = 42921874] it is none and the limit is [min_samples]. *)
Example pf_large_float_limits :
  pf_resample_limit pf_large 2 = 527 /\
  pf_resample_limit pf_large 42921873 = 5000 /\
  pf_resample_limit pf_large 42921874 = 100.
Proof. split; [|split]; vm_compute; reflexivity. Qed.

(** *** The limit of a filter with its bounds exchanged *)


(** *** The limit under a large quantile *)
Lemma wide_ceiling_3 : kld_ceiling 100 (1 / 2) 3 = 80160.
Proof. apply (kld_ceiling_eq _ _ _ (1 / 3)); change (3 - 1) with 2; lra. Qed.

Lemma wide_ceiling_9 : kld_ceiling 100 (1 / 2) 9 = 43904.
Proof. apply (kld_ceiling_eq _ _ _ (1 / 6)); change (9 - 1) with 8; lra. Qed.


(** The same two values on binary64. *)
Example pf_wide_float_limits :
  pf_resample_limit pf_wide_float 3 = 80160 /\ pf_resample_limit pf_wide_float 9 = 43904.
Proof. split; vm_compute; reflexivity. Qed.

End LimitRuns.

(** ** A sensor that finds every pose impossible *)
Lemma pf_skewed_blind_returns :
  exists sq pf', pf_update_sensor pf_skewed blind_sensor = Ret (sq, pf').
Proof.
  apply pf_update_sensor_returns.
  - left. reflexivity.
  - vm_compute. discriminate.
Qed.

(** The blind sensor on the filter of two samples of weights 3/4 and 1/4:
    both weights become [1 / 2], and so does the value returned. *)
Lemma pf_update_sensor_zero_total_witness :
  returned (pf_update_sensor pf_skewed blind_sensor)
    (fun out =>
       map weight (live_samples (current pf_skewed)) = [(3 / 4)%R; (1 / 4)%R] /\
       map weight (live_samples (current (snd out))) = [(1 / 2)%R; (1 / 2)%R] /\
       fst out = (1 / 2)%R).
Proof.
  destruct pf_skewed_blind_returns as (sq & pf' & Hrun). rewrite Hrun. cbn [returned fst snd].
  assert (Hfn : blind_sensor (current pf_skewed) = (0%R, snd (blind_sensor (current pf_skewed))))
    by reflexivity.
  assert (Hpos : 0 < sample_count (snd (blind_sensor (current pf_skewed)))) by reflexivity.
  destruct (pf_update_sensor_zero_total pf_skewed blind_sensor
              (snd (blind_sensor (current pf_skewed))) sq pf' Hfn Hpos Hrun)
    as (_ & _ & Hl & _ & _ & Hsq).
  split; [reflexivity|]. split; [rewrite Hl; reflexivity | exact Hsq].
Defined.

(** On binary64 the ten weights are [1.0 / 10] and the value returned,
    the sum of their ten squares, is above [1.0 / 10]: it is the second
    double after it, 0x1.999999999999cp-4, where [1.0 / 10] is
    0x1.999999999999ap-4. *)
Lemma zero_total_sum_is_rounded :
  returned (pf_update_sensor pf_ten blind_sensor)
    (fun out =>
       map weight (live_samples (current (snd out)))
       = repeat (d_div d_one (d_of_int 10)) 10 /\
       PrimFloat.ltb (d_div d_one (d_of_int 10)) (fst out) = true /\
       fst out = PrimFloat.next_up (PrimFloat.next_up (d_div d_one (d_of_int 10)))).
Proof. vm_compute. split; [|split]; reflexivity. Qed.

(** ** A sensor that prefers one pose *)
Lemma pf_pair_keen_returns :
  exists sq pf', pf_update_sensor pf_pair keen_sensor = Ret (sq, pf').
Proof.
  apply pf_update_sensor_returns.
  - left. reflexivity.
  - vm_compute. discriminate.
Qed.

(** The keen sensor on the filter of two samples: the weights 3 and 1, of
    total 4, become 3/4 and 1/4, and the value returned is
    [9/16 + 1/16 = 5/8]. *)
Lemma pf_update_sensor_normalizes_witness :
  returned (pf_update_sensor pf_pair keen_sensor)
    (fun out =>
       map weight (live_samples (current pf_pair)) = [(1 / 2)%R; (1 / 2)%R] /\
       map weight (live_samples (current (snd out))) = [(3 / 4)%R; (1 / 4)%R] /\
       fst out = (5 / 8)%R).
Proof.
  destruct pf_pair_keen_returns as (sq & pf' & Hrun). rewrite Hrun. cbn [returned fst snd].
  assert (Hfn : keen_sensor (current pf_pair) = (4%R, snd (keen_sensor (current pf_pair))))
    by reflexivity.
  assert (Hpos : (0 < 4)%R) by lra.
  destruct (pf_update_sensor_normalizes pf_pair keen_sensor 4%R
              (snd (keen_sensor (current pf_pair))) sq pf' Hfn Hpos Hrun)
    as (_ & _ & Hl & Hsq).
  assert (Hlive : live_samples (snd (keen_sensor (current pf_pair)))
                  = [mk_sample pf_vector_zero 3%R; mk_sample pf_vector_zero 1%R])
    by reflexivity.
  split; [reflexivity|]. split; [rewrite Hl; reflexivity|].
  rewrite Hsq, Hl, Hlive. cbn [map fold_left weight pose]. lra.
Defined.

(** ** A sensor of constant likelihood *)
(** The flat sensor on the fresh filter of four samples, on binary64: the
    total is 4, every weight becomes 0.25 and the value returned is 0.25. *)
Example flat_sensor_run :
  returned (pf_update_sensor pf_fresh flat_sensor)
    (fun out => map weight (live_samples (current (snd out)))
                = repeat (d_div d_one (d_of_int 4)) 4 /\
                fst out = d_div d_one (d_of_int 4)).
Proof. vm_compute. split; reflexivity. Qed.

(** ** Poses and free cells *)
(** A run of [pf_update_resample_map] that resamples two poses and
    injects two. *)
Lemma emitted_poses_witness :
  returned (run_call 10 pf_fresh (Call_resample_map grid_corner) (tenths [5; 5; 1; 1; 5; 1; 1; 5]))
    (fun pf' => exists l1 l2,
       map pose (live_samples (current pf')) = l1 ++ l2 /\
       Forall (from_source (current pf_fresh)) l1 /\
       Forall (in_free_cell grid_corner) l2 /\
       (is_resample (Call_resample_map grid_corner) = false -> l1 = [])).
Proof.
  assert (Hr : returned (run_call 10 pf_fresh (Call_resample_map grid_corner)
                           (tenths [5; 5; 1; 1; 5; 1; 1; 5])) (fun _ => True))
    by (vm_compute; exact I).
  destruct (run_call 10 pf_fresh (Call_resample_map grid_corner)
              (tenths [5; 5; 1; 1; 5; 1; 1; 5])) as [pf'|e] eqn:Hrun; [|exact Hr].
  cbn [returned].
  exact (emitted_poses_copied_or_free 10 pf_fresh (Call_resample_map grid_corner) _ pf'
           grid_corner eq_refl Hrun).
Defined.

(** [pf_update_resample_map] on a map whose cell at the origin is occupied:
    the two resampled samples keep the pose of the source, the origin; the
    two injected ones are in the free cell. *)
Lemma resample_map_keeps_occupied_pose :
  returned (run_call 10 pf_fresh (Call_resample_map grid_corner) (tenths [5; 5; 1; 1; 5; 1; 1; 5]))
    (fun pf' => map (fun s => free_cell_check grid_corner (pose s)) (live_samples (current pf'))
                = [Ret false; Ret false; Ret true; Ret true]).
Proof. vm_compute. reflexivity. Qed.



(** [pf_update_resample_hyps_2] appends its draws to the set it resamples
    from and resets the weights of that set: after a resampling that left
    2 samples of weight 0.5 in the current set, it leaves that set with
    4 samples of weight 0.25. *)
Example hyps_2_appends_to_source :
  returned (pf1 <- run_call 10 pf_fresh (Call_resample 2) silent ;;
            pf2 <- run_call 10 pf1 (Call_resample_hyps_2 grid_free 1 [hyp_near] 0) silent ;;
            Ret (pf1, pf2))
    (fun out =>
       map weight (live_samples (current (fst out)))
       = repeat (d_div d_one (d_of_int 2)) 2 /\
       map weight (live_samples (scratch (snd out)))
       = repeat (d_div d_one (d_of_int 4)) 4).
Proof. vm_compute. split; reflexivity. Qed.

(** [pf_update_resample_hyps_3] with a negative number of hypotheses
    builds no cloud: the set it resampled from is as it was. *)
Example hyps_3_negative_keeps_source :
  returned (run_call 10 pf_fresh (Call_resample_hyps_3 grid_free (-1) [hyp_near]) silent)
    (fun pf' => map weight (live_samples (scratch pf'))
                = map weight (live_samples (current pf_fresh)) /\
                sample_count (scratch pf') = 4).
Proof. vm_compute. split; reflexivity. Qed.

(** ** The budget *)
(** One hypothesis, a budget of one draw. *)
Lemma hyps_budget_witness :
  returned (hyps_injection grid_free 1 [hyp_near] 1 (half_filled, d_of_int 2, tenths [3; 7]))
    (fun st' =>
       hyps_budget pf_fresh half_filled 1 1 = Ret 1 /\
       1 = Z.quot (Z.min (max_samples pf_fresh - sample_count half_filled) 1) 1 /\
       snd st' = after_draws (E:=ScriptedEnv PrimFloat.float) 1
                  (firstn (Z.to_nat 1) [hyp_near]) (tenths [3; 7])).
Proof.
  assert (Hr : returned (hyps_injection grid_free 1 [hyp_near] 1
                           (half_filled, d_of_int 2, tenths [3; 7])) (fun _ => True))
    by (vm_compute; exact I).
  destruct (hyps_injection grid_free 1 [hyp_near] 1 (half_filled, d_of_int 2, tenths [3; 7]))
    as [st'|e] eqn:Hrun; [|exact Hr].
  cbn [returned].
  assert (Hb : hyps_budget pf_fresh half_filled 1 1 = Ret 1) by (vm_compute; reflexivity).
  split; [exact Hb|].
  exact (hyps_budget_and_draws pf_fresh half_filled _ _ grid_free 1 [hyp_near] 1 1 st' Hb Hrun).
Defined.

(** With 2 of the 4 places taken, 1 hypothesis and [nParticle = 1] the
    budget is 1, not [(4 - 2) / 1 = 2]. *)
Lemma hyps_budget_capped_by_nParticle :
  hyps_budget pf_fresh half_filled 1 1 = Ret 1 /\
  Z.quot (max_samples pf_fresh - sample_count half_filled) 1 = 2.
Proof. split; vm_compute; reflexivity. Qed.

(** ** A negative label *)
(** The label -1 on the fresh filter, which has no cluster yet. *)
Lemma negative_label_witness :
  (current_set pf_fresh = 0 \/ current_set pf_fresh = 1) /\
  -1 < 0 /\ -1 < cluster_count (current pf_fresh) /\
  pf_get_cluster_stats pf_fresh (-1) = Err OutOfBounds.
Proof.
  assert (Hcs : current_set pf_fresh = 0 \/ current_set pf_fresh = 1) by (left; reflexivity).
  assert (Hn : -1 < 0) by lia.
  assert (Hc : -1 < cluster_count (current pf_fresh)) by (vm_compute; reflexivity).
  split; [exact Hcs|]. split; [exact Hn|]. split; [exact Hc|].
  exact (pf_get_cluster_stats_negative_label pf_fresh (-1) Hcs Hn Hc).
Defined.

(* ================================================================== *)
(** * Runs for the further properties *)
(* ================================================================== *)

(** ** Initialisations *)

Lemma initialisation_witness :
  returned (run_call 10 pf_fresh (Call_init_map grid_free) (tenths [1; 1; 1; 1; 1; 1; 1; 1]))
    (fun pf' =>
       current_set pf' = current_set pf_fresh /\ scratch pf' = scratch pf_fresh /\
       sample_count (current pf') = max_samples pf_fresh /\
       Forall (fun s => weight s = d_div d_one (d_of_int (max_samples pf_fresh)))
              (live_samples (current pf'))).
Proof.
  assert (Hr : returned (run_call 10 pf_fresh (Call_init_map grid_free)
                           (tenths [1; 1; 1; 1; 1; 1; 1; 1])) (fun _ => True))
    by (vm_compute; exact I).
  destruct (run_call 10 pf_fresh (Call_init_map grid_free) (tenths [1; 1; 1; 1; 1; 1; 1; 1]))
    as [pf'|e] eqn:Hrun; [|exact Hr].
  cbn [returned].
  destruct (initialisation_fills_current_set 10 pf_fresh (Call_init_map grid_free) _ pf'
              eq_refl Hrun) as (H1 & H2 & _ & H4 & H5).
  auto.
Defined.

Lemma pf_init_map_heading_witness :
  returned (pf_init_map 10 pf_fresh grid_free (tenths [1; 1; 1; 1; 1; 1; 1; 1]))
    (fun pf' => Forall (fun s => v2 (pose s) = d_zero /\ in_free_cell grid_free (pose s))
                       (live_samples (current pf'))).
Proof.
  assert (Hr : returned (pf_init_map 10 pf_fresh grid_free (tenths [1; 1; 1; 1; 1; 1; 1; 1]))
                 (fun _ => True)) by (vm_compute; exact I).
  destruct (pf_init_map 10 pf_fresh grid_free (tenths [1; 1; 1; 1; 1; 1; 1; 1]))
    as [pf'|e] eqn:Hrun; [|exact Hr].
  cbn [returned]. exact (pf_init_map_heading_zero 10 pf_fresh grid_free _ pf' Hrun).
Defined.

Lemma pf_init_to_point_witness :
  returned (pf_init_to_point 10 pf_fresh grid_free d_zero d_zero d_one silent)
    (fun pf' => Forall (fun s => valid_cell_check grid_free (pose s) = true)
                       (live_samples (current pf'))).
Proof.
  assert (Hr : returned (pf_init_to_point 10 pf_fresh grid_free d_zero d_zero d_one silent)
                 (fun _ => True)) by (vm_compute; exact I).
  destruct (pf_init_to_point 10 pf_fresh grid_free d_zero d_zero d_one silent)
    as [pf'|e] eqn:Hrun; [|exact Hr].
  cbn [returned]. exact (pf_init_to_point_in_bounds 10 pf_fresh grid_free _ _ _ _ pf' Hrun).
Defined.

Lemma pf_init_model_order_witness :
  returned (pf_init_model pf_fresh count_fn 0)
    (fun pf' => map pose (live_samples (current pf'))
                = drawn count_fn (Z.to_nat (max_samples pf_fresh)) 0).
Proof.
  assert (Hr : returned (pf_init_model pf_fresh count_fn 0) (fun _ => True))
    by (vm_compute; exact I).
  destruct (pf_init_model pf_fresh count_fn 0) as [pf'|e] eqn:Hrun; [|exact Hr].
  cbn [returned]. exact (pf_init_model_calls_in_order pf_fresh count_fn 0 pf' Hrun).
Defined.

(** On binary64, with the scripted histogram: the model that counts. *)
Lemma pf_alloc_then_init_witness :
  exists pf' : @pf_t PrimFloat.float (ScriptedEnv PrimFloat.float),
    pf_init_model (pf_alloc 1 4 1) count_fn 0 = Ret pf' /\
    sample_count (current pf') = 4 /\
    map pose (live_samples (current pf')) = drawn count_fn (Z.to_nat 4) 0.
Proof.
  assert (H4 : 0 <= 4) by lia.
  assert (Hroom : labels_poses (E := ScriptedEnv PrimFloat.float) (pf_kdtree_alloc (3 * 4)) 4).
  { apply histogram_labels_poses. cbn. lia. }
  exact (pf_alloc_then_init_model (E := ScriptedEnv PrimFloat.float) 1 4 1 count_fn 0
           H4 Hroom).
Defined.

(** The run of the witness, in numbers: the four poses fall in four
    buckets that do not touch, which make four clusters. *)
Example pf_alloc_then_init_run :
  returned (pf_init_model (pf_alloc 1 4 1 : @pf_t PrimFloat.float (ScriptedEnv PrimFloat.float))
              count_fn 0)
    (fun pf' => map (fun s => pf_kdtree_get_cluster (kdtree (current pf')) (pose s))
                    (live_samples (current pf')) = [0; 1; 2; 3] /\
                cluster_count (current pf') = 4).
Proof. vm_compute. split; reflexivity. Qed.

Lemma keeps_parameters_witness :
  returned (run_call 10 pf_fresh (Call_resample 2) silent)
    (fun pf' => max_samples pf' = max_samples pf_fresh /\
                pf_resample_limit pf' 5 = pf_resample_limit pf_fresh 5).
Proof.
  assert (Hr : returned (run_call 10 pf_fresh (Call_resample 2) silent) (fun _ => True))
    by (vm_compute; exact I).
  destruct (run_call 10 pf_fresh (Call_resample 2) silent) as [pf'|e] eqn:Hrun; [|exact Hr].
  cbn [returned].
  destruct (run_call_keeps_parameters 10 pf_fresh (Call_resample 2) _ pf' Hrun)
    as (_ & H2 & _ & _ & _ & H6).
  split; [exact H2 | exact (H6 5)].
Defined.

(** ** Clusters *)

Lemma gathers_witness :
  returned (pf_cluster_stats (current pf_cell))
    (fun set' =>
       cluster_count set' = 1 /\
       exists cl,
         nth_error (clusters set') (Z.to_nat 0) = Some cl /\
         c_count cl = Z.of_nat (length (members (current pf_cell) 0)) /\
         c_weight cl = sum_weights (members (current pf_cell) 0)).
Proof.
  assert (Hr : returned (pf_cluster_stats (current pf_cell)) (fun set' => cluster_count set' = 1))
    by (vm_compute; reflexivity).
  destruct (pf_cluster_stats (current pf_cell)) as [set'|e] eqn:Hrun; [|exact Hr].
  cbn [returned] in *. split; [exact Hr|].
  assert (Hc : 0 <= 0 < cluster_count set') by (rewrite Hr; lia).
  destruct (pf_cluster_stats_gathers (current pf_cell) set' 0 Hrun Hc)
    as (cl & H1 & H2 & H3 & _).
  exists cl. auto.
Defined.

Lemma counts_labels_witness :
  returned (pf_cluster_stats (current pf_cell))
    (fun set' => 0 <= cluster_count set' <= Z.max 0 (cluster_max_count (current pf_cell)) /\
                 cluster_count set' <= Z.of_nat (length (clusters set'))).
Proof.
  assert (Hr : returned (pf_cluster_stats (current pf_cell)) (fun _ => True))
    by (vm_compute; exact I).
  destruct (pf_cluster_stats (current pf_cell)) as [set'|e] eqn:Hrun; [|exact Hr].
  cbn [returned].
  destruct (pf_cluster_stats_counts_labels (current pf_cell) set' Hrun) as (H1 & H2 & _).
  auto.
Defined.

Lemma cluster_query_witness :
  returned (run_call 10 pf_cell (Call_init_model Z count_fn 0) silent)
    (fun pf' =>
       0 <= cluster_count (current pf') <= Z.max 0 (cluster_max_count (current pf')) /\
       pf_get_cluster_stats pf' 5 = Ret (0, None)).
Proof.
  assert (Hr : returned (run_call 10 pf_cell (Call_init_model Z count_fn 0) silent)
                 (fun pf' => cluster_count (current pf') = 1)) by (vm_compute; reflexivity).
  destruct (run_call 10 pf_cell (Call_init_model Z count_fn 0) silent)
    as [pf'|e] eqn:Hrun; [|exact Hr].
  cbn [returned] in *.
  destruct (cluster_query_after_call 10 pf_cell (Call_init_model Z count_fn 0) _ pf' Hrun)
    as (H1 & _ & H3).
  split; [exact H1|]. apply H3. rewrite Hr. lia.
Defined.

Lemma set_query_witness :
  (current_set pf_fresh = 0 \/ current_set pf_fresh = 1) /\
  pf_get_cluster_stats pf_fresh 0 = pf_get_cluster_stats_set (current pf_fresh) 0.
Proof.
  assert (Hcs : current_set pf_fresh = 0 \/ current_set pf_fresh = 1) by (left; reflexivity).
  split; [exact Hcs|]. exact (pf_get_cluster_stats_is_set_query pf_fresh 0 Hcs).
Defined.

Lemma pf_cluster_set_witness :
  returned (pf_cluster_set (current pf_cell))
    (fun set' => samples set' = samples (current pf_cell) /\
                 cluster_max_count set' = 100 /\ 0 <= cluster_count set' <= 100).
Proof.
  assert (Hr : returned (pf_cluster_set (current pf_cell)) (fun _ => True))
    by (vm_compute; exact I).
  destruct (pf_cluster_set (current pf_cell)) as [set'|e] eqn:Hrun; [|exact Hr].
  cbn [returned].
  destruct (pf_cluster_set_frame (current pf_cell) set' Hrun) as (H1 & _ & H3 & _ & H5 & _).
  auto.
Defined.

Lemma action_update_cluster_witness :
  returned (pf_update_action_update_cluster pf_cell (fun s => s))
    (fun pf' => current_set pf' = current_set pf_cell /\ scratch pf' = scratch pf_cell /\
                samples (current pf') = samples (current pf_cell)).
Proof.
  assert (Hr : returned (pf_update_action_update_cluster pf_cell (fun s => s)) (fun _ => True))
    by (vm_compute; exact I).
  destruct (pf_update_action_update_cluster pf_cell (fun s => s)) as [pf'|e] eqn:Hrun;
    [|exact Hr].
  cbn [returned].
  destruct (pf_update_action_update_cluster_frame pf_cell (fun s => s) pf' Hrun)
    as (H1 & H2 & H3 & _).
  split; [exact H1|]. split; [exact H2 | exact H3].
Defined.

Lemma sensor_keeps_poses_witness :
  returned (pf_update_sensor pf_fresh flat_sensor)
    (fun out =>
       scratch (snd out) = scratch pf_fresh /\
       map pose (live_samples (current (snd out)))
       = map pose (live_samples (snd (flat_sensor (current pf_fresh))))).
Proof.
  assert (Hr : returned (pf_update_sensor pf_fresh flat_sensor) (fun _ => True))
    by (vm_compute; exact I).
  destruct (pf_update_sensor pf_fresh flat_sensor) as [[sq pf']|e] eqn:Hrun; [|exact Hr].
  cbn [returned snd].
  destruct (pf_update_sensor_keeps_poses pf_fresh flat_sensor sq pf' Hrun) as (_ & H2 & _ & H4).
  split; [exact H2 | exact H4].
Defined.

(** ** The scripted sampler *)

Lemma inverse_cdf_range {D} {ops : DoubleOps D} (l : list D) :
  l <> [] -> forall i acc target,
    i <= inverse_cdf l i acc target < i + Z.of_nat (length l).
Proof.
  induction l as [|w l IH]; intros Hne i acc target; [congruence|].
  cbn [inverse_cdf length]. destruct (d_ltb target (d_add acc w)); [lia|].
  destruct l as [|w' l'].
  - cbn [inverse_cdf length]. lia.
  - specialize (IH ltac:(discriminate) (i + 1) (d_add acc w) target).
    cbn [length] in *. lia.
Qed.

Lemma tape_discrete_range {D} {ops : DoubleOps D} (t : tape D) n (l : list D) :
  l <> [] -> 0 <= fst (tape_discrete t n l) < Z.of_nat (length l).
Proof.
  intros Hne. unfold tape_discrete. destruct (next_uniform t) as [u t']. cbn [fst].
  apply (inverse_cdf_range l Hne 0).
Qed.

(** ** Resampling *)

Lemma resample_count_witness :
  returned (pf_update_resample 10 pf_fresh 2 silent)
    (fun pf' =>
       min_samples pf_fresh <= max_samples pf_fresh /\
       Z.min 2 (min_samples pf_fresh + 1) <= sample_count (current pf') <= Z.max 0 2).
Proof.
  assert (Hr : returned (pf_update_resample 10 pf_fresh 2 silent) (fun _ => True))
    by (vm_compute; exact I).
  destruct (pf_update_resample 10 pf_fresh 2 silent) as [pf'|e] eqn:Hrun; [|exact Hr].
  cbn [returned].
  assert (Hmm : min_samples pf_fresh <= max_samples pf_fresh) by (vm_compute; discriminate).
  destruct (pf_update_resample_sample_count 10 pf_fresh 2 silent pf' Hrun) as (H1 & H2 & _).
  split; [exact Hmm|]. split; [exact (H2 Hmm) | exact (proj2 H1)].
Defined.

(** On binary64, with the scripted histogram, whose 12 nodes have room
    for 2 poses. *)
Lemma resample_returns_witness :
  exists pf', pf_update_resample 10 pf_fresh 2 silent = Ret pf' /\
              sample_count (current pf') <= Z.max 0 2.
Proof.
  apply (pf_update_resample_returns 10 pf_fresh 2 silent).
  - left. reflexivity.
  - vm_compute. discriminate.
  - intros r'. cbv zeta.
    change (sample_count (current pf_fresh)) with 4.
    apply (tape_discrete_range r' 4 (map weight (live_samples (current pf_fresh)))).
    vm_compute. discriminate.
  - vm_compute. repeat constructor.
  - vm_compute. discriminate.
  - vm_compute. discriminate.
  - apply histogram_labels_poses. vm_compute. discriminate.
  - vm_compute. reflexivity.
Defined.

Lemma addParticle_count_witness :
  returned (pf_update_resample_addParticle 10 pf_fresh 1 grid_free (tenths [5; 5; 5; 1; 1; 5]))
    (fun pf' =>
       exists l1 l2,
         map pose (live_samples (current pf')) = l1 ++ l2 /\
         length l2 = Z.to_nat 1 /\
         sample_count (current pf') = Z.of_nat (length l1) + 1).
Proof.
  assert (Hr : returned (pf_update_resample_addParticle 10 pf_fresh 1 grid_free
                           (tenths [5; 5; 5; 1; 1; 5])) (fun _ => True))
    by (vm_compute; exact I).
  destruct (pf_update_resample_addParticle 10 pf_fresh 1 grid_free (tenths [5; 5; 5; 1; 1; 5]))
    as [pf'|e] eqn:Hrun; [|exact Hr].
  cbn [returned].
  assert (H1 : 0 <= 1) by lia.
  destruct (pf_update_resample_addParticle_count 10 pf_fresh 1 grid_free _ pf' Hrun H1)
    as (l1 & l2 & A & _ & _ & B & _ & C).
  exists l1, l2. auto.
Defined.

Lemma resample_map_refill_witness :
  returned (pf_update_resample_map 10 pf_fresh grid_corner (tenths [5; 5; 1; 1; 5; 1; 1; 5]))
    (fun pf' =>
       exists l1 l2,
         map pose (live_samples (current pf')) = l1 ++ l2 /\
         Forall (in_free_cell grid_corner) l2 /\
         sample_count (current pf') = Z.of_nat (length l1) + Z.of_nat (length l2)).
Proof.
  assert (Hr : returned (pf_update_resample_map 10 pf_fresh grid_corner
                           (tenths [5; 5; 1; 1; 5; 1; 1; 5])) (fun _ => True))
    by (vm_compute; exact I).
  destruct (pf_update_resample_map 10 pf_fresh grid_corner (tenths [5; 5; 1; 1; 5; 1; 1; 5]))
    as [pf'|e] eqn:Hrun; [|exact Hr].
  cbn [returned].
  destruct (pf_update_resample_map_refill 10 pf_fresh grid_corner _ pf' Hrun)
    as (l1 & l2 & A & _ & B & _ & C & _).
  exists l1, l2. auto.
Defined.

Lemma hyps_2_small_filter_witness :
  returned (pf_update_resample_hyps_2 10 pf_fresh grid_free 1 [hyp_near] 0 silent)
    (fun pf' => max_samples pf_fresh <= 1000 /\ sample_count (current pf') = 0).
Proof.
  assert (Hr : returned (pf_update_resample_hyps_2 10 pf_fresh grid_free 1 [hyp_near] 0 silent)
                 (fun _ => True)) by (vm_compute; exact I).
  destruct (pf_update_resample_hyps_2 10 pf_fresh grid_free 1 [hyp_near] 0 silent)
    as [pf'|e] eqn:Hrun; [|exact Hr].
  cbn [returned].
  assert (Hm : max_samples pf_fresh <= 1000) by (vm_compute; discriminate).
  split; [exact Hm|].
  exact (proj1 (pf_update_resample_hyps_2_small_filter 10 pf_fresh grid_free 1 [hyp_near] 0
                  silent pf' Hrun Hm)).
Defined.

(** ** Maps *)

Lemma map_index_witness :
  MAP_VALID grid_free 0 1 = true /\ MAP_VALID grid_free 1 0 = true /\
  0 <= MAP_INDEX grid_free 0 1 < size_x grid_free * size_y grid_free /\
  (MAP_INDEX grid_free 0 1 = MAP_INDEX grid_free 1 0 -> 0 = 1 /\ 1 = 0).
Proof.
  assert (H1 : MAP_VALID grid_free 0 1 = true) by reflexivity.
  assert (H2 : MAP_VALID grid_free 1 0 = true) by reflexivity.
  split; [exact H1|]. split; [exact H2|].
  exact (MAP_INDEX_of_valid_cells grid_free 0 1 1 0 H1 H2).
Defined.

Lemma free_cell_check_witness :
  size_x grid_corner * size_y grid_corner <= Z.of_nat (length (cells grid_corner)) /\
  exists b, free_cell_check grid_corner pf_vector_zero = Ret b /\
            (b = true -> valid_cell_check grid_corner pf_vector_zero = true).
Proof.
  assert (H : size_x grid_corner * size_y grid_corner <= Z.of_nat (length (cells grid_corner)))
    by (vm_compute; discriminate).
  split; [exact H|]. exact (free_cell_check_in_bounds grid_corner pf_vector_zero H).
Defined.

Lemma grid_real_scale : (0 < scale grid_real)%R.
Proof. unfold grid_real, grid_2x2, d_one. cbn [scale d_of_int RealOps]. lra. Qed.


Section MapRuns.
#[local] Existing Instance RealIntOps | 0.

Lemma grid_real_cell (x : R) :
  (- (1 / 2) <= x < 1 / 2)%R -> MAP_GXWX grid_real x = 1%R /\ MAP_GYWY grid_real x = 1%R.
Proof.
  intros Hx. unfold MAP_GXWX, MAP_GYWY, grid_real, grid_2x2, d_half, d_zero, d_one.
  cbn [d_add d_sub d_div d_floor d_of_int RealIntOps RealOps
       origin_x origin_y scale size_x size_y].
  change (Z.quot 2 2) with 1. rewrite (Zfloor_eq 0) by lra. split; lra.
Qed.

End MapRuns.

(** ** Real arithmetic *)(** ** Real arithmetic *)

Lemma pf_pair_live :
  live_samples (current pf_pair)
  = [mk_sample pf_vector_zero (1 / 2)%R; mk_sample pf_vector_zero (1 / 2)%R].
Proof. reflexivity. Qed.

Lemma pf_pair_weights :
  Forall (fun s : pf_sample_t R => (0 <= weight s)%R) (live_samples (current pf_pair)) /\
  (0 < sum_weights (live_samples (current pf_pair)))%R.
Proof.
  rewrite pf_pair_live. split.
  - repeat constructor; cbn [weight]; lra.
  - unfold sum_weights, d_zero. cbn [fold_left weight d_add d_of_int RealOps]. lra.
Qed.


Lemma pf_pair_flat_returns :
  exists sq pf', pf_update_sensor pf_pair flat_sensor = Ret (sq, pf').
Proof.
  apply pf_update_sensor_returns.
  - left. reflexivity.
  - vm_compute. discriminate.
Qed.

Lemma pf_pair_flat :
  flat_sensor (current pf_pair) = (2%R, snd (flat_sensor (current pf_pair))) /\
  live_samples (snd (flat_sensor (current pf_pair)))
  = [mk_sample pf_vector_zero 1%R; mk_sample pf_vector_zero 1%R].
Proof. split; reflexivity. Qed.


Lemma scripted_sampler (r' : tape R) (l : list R) :
  length l = Z.to_nat 2 ->
  0 <= fst (@pf_pdf_discrete_sample R (ScriptedEnv R) r' 2 l) < 2.
Proof.
  intros Hl. change 2 with (Z.of_nat (Z.to_nat 2)) at 3. rewrite <- Hl.
  apply tape_discrete_range. intros ->. discriminate Hl.
Qed.

(** On the real numbers, with the scripted histogram and the scripted
    sampler. *)
Lemma alloc_init_resample_witness :
  exists pf1 pf2 : @pf_t R (ScriptedEnv R),
    pf_init_model (pf_alloc 1 2 0) origin_fn tt = Ret pf1 /\
    pf_update_resample 5 pf1 2 silent = Ret pf2 /\
    0 <= sample_count (current pf2) <= Z.max 0 2.
Proof.
  assert (H1 : 0 < 2) by lia. assert (H2 : 2 <= 2) by lia.
  assert (H3 : Z.max 0 2 < Z.of_nat 5) by (vm_compute; reflexivity).
  assert (Hroom : labels_poses (E := ScriptedEnv R) (pf_kdtree_alloc (3 * 2)) 2).
  { apply histogram_labels_poses. cbn. lia. }
  destruct (alloc_init_resample_returns (E := ScriptedEnv R) 1 2 0 origin_fn tt 2 5%nat silent
              H1 H2 Hroom scripted_sampler H3)
    as (pf1 & pf2 & A & B & C & _).
  exists pf1, pf2. auto.
Defined.
